(** * dasclient.agol_tools: reconciliation of EarthRanger records with an
      ArcGIS Online feature layer

    A shallow embedding of the reconciliation and field-mapping code of
    [python/dasclient/agol_tools.py] (class [AgolTools]) together with the
    properties its specification states about it.

    Conventions of the embedding.
    - Python values that travel through the code untyped (JSON scalars) are
      the type [pyval]: strings, integers, booleans and [None].
    - The staleness test of [upsert_events_from_er] computes with a Python
      [float]; it is embedded on binary64 with Rocq's primitive floats, and
      its comparison with an [int] is exact, as Python's is.  Where a
      timestamp is only stored or compared with other dates it is an instant
      in whole milliseconds, in [Z].
    - A Python [dict] keyed by strings is a [gmap string _]; a [dict] whose
      iteration order matters ([event_details], [er_event_files]) is an
      association list.
    - A raised exception is the [Raise] branch of [res]; calls to the two
      remote services are oracles over an abstract [world], and every call to
      the feature layer is recorded in a log. *)

From Stdlib Require Import ZArith QArith String Ascii List DecimalString Lia.
From Stdlib Require Import PrimFloat FloatOps SpecFloat.
From Stdlib Require Uint63.
From stdpp Require Import base option list gmap strings.

Local Open Scope Z_scope.
Local Open Scope string_scope.
Local Open Scope list_scope.

(** ** Python values *)

Inductive pyval : Type :=
| PStr (s : string)
| PInt (n : Z)
| PBool (b : bool)
| PNone.

#[global] Instance pyval_eq_dec : EqDecision pyval.
Proof. solve_decision. Defined.

(** [str(v)] *)
Definition py_str (v : pyval) : string :=
  match v with
  | PStr s => s
  | PInt n => NilZero.string_of_int (Z.to_int n)
  | PBool true => "True"
  | PBool false => "False"
  | PNone => "None"
  end.

(** Truth value of [v] in a condition ([if v:]). *)
Definition py_truthy (v : pyval) : bool :=
  match v with
  | PStr s => negb (String.eqb s "")
  | PInt n => negb (n =? 0)%Z
  | PBool b => b
  | PNone => false
  end.

(** The number a value stands for in an arithmetic comparison; strings and
    [None] have none (the comparison raises [TypeError]). *)
Definition py_num (v : pyval) : option Z :=
  match v with
  | PInt n => Some n
  | PBool b => Some (if b then 1 else 0)
  | _ => None
  end.

(** ** Python floats *)

(** [float(n)] for an [int] below [2 ** 63] in absolute value. *)
Definition float_of_Z (n : Z) : float :=
  match n with
  | Z0 => 0%float
  | Zpos _ => PrimFloat.of_uint63 (Uint63.of_Z n)
  | Zneg _ => (- PrimFloat.of_uint63 (Uint63.of_Z (- n)))%float
  end.

(** [n > f] for an [int] [n] and a [float] [f]: Python compares the two
    numbers exactly, without rounding [n] to a float; a comparison with
    [nan] is false. *)
Definition int_gt_float (n : Z) (f : float) : bool :=
  match Prim2SF f with
  | S754_nan => false
  | S754_infinity negative => negative
  | S754_zero _ => (0 <? n)%Z
  | S754_finite negative m e =>
      let mantissa := if negative then Z.neg m else Z.pos m in
      if (0 <=? e)%Z then (mantissa * 2 ^ e <? n)%Z
      else (mantissa <? n * 2 ^ (- e))%Z
  end.

(** The rational number a finite float is, in lowest terms. *)
Definition float_value (f : float) : option Q :=
  match Prim2SF f with
  | S754_zero _ => Some (inject_Z 0)
  | S754_finite negative m e =>
      let mantissa := if negative then Z.neg m else Z.pos m in
      Some (Qred (if (0 <=? e)%Z then inject_Z (mantissa * 2 ^ e)
                  else Qmake mantissa (Z.to_pos (2 ^ (- e)))))
  | _ => None
  end.

(** Keys of a [dict]: Python hashes [True] and [1] (and [False] and [0]) to
    the same key, so a key is a value up to that identification. *)
Inductive pykey : Type :=
| KStr (s : string)
| KInt (n : Z)
| KNone.

#[global] Instance pykey_eq_dec : EqDecision pykey.
Proof. solve_decision. Defined.

Definition pykey_to_sum (k : pykey) : string + Z + unit :=
  match k with
  | KStr s => inl (inl s)
  | KInt n => inl (inr n)
  | KNone => inr tt
  end.

Definition pykey_of_sum (x : string + Z + unit) : pykey :=
  match x with
  | inl (inl s) => KStr s
  | inl (inr n) => KInt n
  | inr _ => KNone
  end.

#[global] Instance pykey_countable : Countable pykey.
Proof.
  refine (inj_countable' pykey_to_sum pykey_of_sum _).
  intros []; reflexivity.
Defined.

Definition py_key (v : pyval) : pykey :=
  match v with
  | PStr s => KStr s
  | PInt n => KInt n
  | PBool b => KInt (if b then 1 else 0)
  | PNone => KNone
  end.

(** [d.get(k, dflt)] on a dict with scalar keys. *)
Definition dict_get (d : gmap pykey pyval) (k dflt : pyval) : pyval :=
  default dflt (d !! py_key k).

(** [d[key] = value] on a dict that is iterated: a new key goes last, a key
    the dict has keeps its place. *)
Fixpoint dict_set {V : Type} (key : string) (value : V)
    (d : list (string * V)) : list (string * V) :=
  match d with
  | [] => [(key, value)]
  | (k, v) :: rest =>
      if String.eqb k key then (k, value) :: rest
      else (k, v) :: dict_set key value rest
  end.

(** ** Strings *)

(** [s.replace(a, b)] for one-character [a] and [b]. *)
Fixpoint str_replace_char (a b : ascii) (s : string) : string :=
  match s with
  | EmptyString => EmptyString
  | String c r =>
      String (if Ascii.eqb c a then b else c) (str_replace_char a b r)
  end.

(** [needle in hay] *)
Fixpoint str_contains (needle hay : string) : bool :=
  String.prefix needle hay ||
  match hay with
  | EmptyString => false
  | String _ r => str_contains needle r
  end.

(** [sep.join(l)] *)
Fixpoint str_join (sep : string) (l : list string) : string :=
  match l with
  | [] => ""
  | [s] => s
  | s :: r => s +:+ sep +:+ str_join sep r
  end.

(** ** Exceptions *)

Record exn : Type := Exn { exn_class : string; exn_msg : string }.

(** [str(e)] *)
Definition exn_str (e : exn) : string := exn_msg e.

Inductive res (A : Type) : Type :=
| Ok (a : A)
| Raise (e : exn).
Arguments Ok {A} a.
Arguments Raise {A} e.

Definition res_bind {A B} (r : res A) (k : A -> res B) : res B :=
  match r with
  | Ok a => k a
  | Raise e => Raise e
  end.

Declare Scope res_scope.
Delimit Scope res_scope with res.
Notation "'try!' x ':=' r 'in' k" := (res_bind r (fun x => k))
  (at level 10, x pattern, r at level 100, k at level 200) : res_scope.

Definition TypeError (msg : string) : exn := Exn "TypeError" msg.
Definition AttributeError (msg : string) : exn := Exn "AttributeError" msg.
Definition ValueError (msg : string) : exn := Exn "ValueError" msg.
Definition KeyError (msg : string) : exn := Exn "KeyError" msg.

(** ** Field-name hooks of [AgolTools] *)

Definition _clean_field_alias (alias : string) : string := alias.

Definition _clean_field_value {A : Type} (value : A) : A := value.

Definition _clean_field_name (field : string) : string :=
  str_replace_char "-"%char "_"%char field.

(** ** [_chunk] *)

(** [range(i, stop, step)] for a positive [step]; [fuel] bounds the number of
    elements and [stop - i] is always enough. *)
Fixpoint range_from (fuel : nat) (i stop step : nat) : list nat :=
  match fuel with
  | O => []
  | S fuel' =>
      if (i <? stop)%nat then i :: range_from fuel' (i + step) stop step
      else []
  end.

(** [lst[i:j]] for [0 <= i <= j]. *)
Definition slice {A} (lst : list A) (i j : nat) : list A :=
  firstn (j - i) (skipn i lst).

(** The chunks [_chunk] yields, in order.  [range] raises [ValueError] on a
    zero step and is empty on a negative one. *)
Definition _chunk {A} (lst : list A) (chunk_size : Z) : res (list (list A)) :=
  if (chunk_size =? 0)%Z then
    Raise (ValueError "range() arg 3 must not be zero")
  else if (chunk_size <? 0)%Z then
    Ok []
  else
    let n := Z.to_nat chunk_size in
    Ok (map (fun i => slice lst i (i + n))
            (range_from (length lst) 0 (length lst) n)).

Local Open Scope res_scope.

(** ** Data model *)

(** One entry of the map [_get_er_field_definitions] returns: the schema
    property with its optional ['type'], ['title'] and ['value_map']. *)
Record field_def : Type := FieldDef {
  fd_type : option string;
  fd_title : option string;
  fd_value_map : option (gmap pykey pyval)
}.

(** A raw value of [event_details]: a [list] or anything else. *)
Inductive field_value : Type :=
| FScalar (v : pyval)
| FList (l : list pyval).

Record er_location : Type := ErLocation {
  loc_latitude : pyval;
  loc_longitude : pyval
}.

(** An entry of [is_contained_in]: [.get('type')] and
    [['related_event']['serial_number']]. *)
Record er_parent : Type := ErParent {
  par_type : pyval;
  par_serial_number : pyval
}.

Record er_file : Type := ErFile {
  file_url : pyval;
  file_filename : pyval
}.

(** An event as [DasClient.get_events] yields it.  [ev_location] is [None]
    when [event.get('location')] is falsy; [ev_reported_by] is [None] when
    [event.get('reported_by')] is falsy and [Some None] when the reporter has
    no ['name']; [ev_is_contained_in] is what [event.get('is_contained_in')]
    returns. *)
Record er_event : Type := ErEvent {
  ev_serial_number : pyval;
  ev_updated_at : string;
  ev_time : string;
  ev_is_collection : pyval;
  ev_location : option er_location;
  ev_reported_by : option (option pyval);
  ev_event_type : string;
  ev_title : pyval;
  ev_event_details : list (string * field_value);
  ev_is_contained_in : option (list er_parent);
  ev_files : list er_file
}.

Record point : Type := Point {
  pt_x : pyval;
  pt_y : pyval;
  pt_wkid : Z
}.

Record feature : Type := Feature {
  attributes : gmap string pyval;
  geometry : option point
}.

(** An entry of [fields_to_add]: [[field_name, esri_type, alias]]. *)
Definition pending_field : Type := string * string * string.

Definition pending_name (f : pending_field) : string := f.1.1.

Definition UPDATE_TIME_PADDING : Z := 24 * 60.

Definition ER_TO_ESRI_FIELD_TYPE : gmap string string :=
  <["string" := "esriFieldTypeString"]>
  (<["number" := "esriFieldTypeDouble"]>
  (<["default" := "esriFieldTypeString"]> ∅)).

(** ** [_field_already_exists] *)

Definition _field_already_exists (field : string) (layer_fields : list string)
    (additional_fields : list pending_field) : bool :=
  existsb (fun esri_field => String.eqb esri_field field) layer_fields
  || existsb (fun new_field => String.eqb (pending_name new_field) field)
       additional_fields.

(** ** Field translation (the loop over [event['event_details']]) *)

(** [for i in range(0, len(l)): l[i] = f(l[i])], on the list object [l]. *)
Definition update_each (f : pyval -> pyval) (l : list pyval) : list pyval :=
  foldl (fun acc i =>
           match acc !! i with
           | Some x => <[i := f x]> acc
           | None => acc
           end)
        l (seq 0 (length l)).

(** The list object [field_value] after the two element loops: the raw list
    itself when the raw value is a list, a fresh one-element list otherwise;
    every element substituted through ['value_map'] when the definition has
    one, then stringified. *)
Definition translated_elements (fdef : field_def) (v : field_value)
    : list pyval :=
  let field_value := match v with FList l => l | FScalar x => [x] end in
  let field_value :=
    match fd_value_map fdef with
    | Some value_map => update_each (fun x => dict_get value_map x x) field_value
    | None => field_value
    end in
  update_each (fun x => PStr (_clean_field_value (py_str x))) field_value.

(** The raw value as the event holds it afterwards: a list was rewritten in
    place, a scalar was copied into a list of its own and is untouched. *)
Definition value_after (fdef : field_def) (v : field_value) : field_value :=
  match v with
  | FList _ => FList (translated_elements fdef v)
  | FScalar _ => v
  end.

(** [field_def.get('type', 'string')] *)
Definition field_type (fdef : field_def) : string :=
  default "string" (fd_type fdef).

(** [self.ER_TO_ESRI_FIELD_TYPE.get(field_type,
    self.ER_TO_ESRI_FIELD_TYPE['default'])] *)
Definition esri_field_type (fdef : field_def) : string :=
  default (ER_TO_ESRI_FIELD_TYPE !!! "default")
          (ER_TO_ESRI_FIELD_TYPE !! field_type fdef).

(** [self._clean_field_name(field + "_" + field_type)] *)
Definition composite_field_name (field : string) (fdef : field_def) : string :=
  _clean_field_name (field +:+ "_" +:+ field_type fdef).

(** The loop over the fields of [event_details], in key order.  It returns
    the attribute map, the pending field list and [event_details] as the event
    holds it when the loop ends. *)
Fixpoint translate_details (layer_fields : list string)
    (field_defs : gmap string field_def)
    (details : list (string * field_value))
    (attrs : gmap string pyval) (fields_to_add : list pending_field)
    : gmap string pyval * list pending_field * list (string * field_value) :=
  match details with
  | [] => (attrs, fields_to_add, [])
  | (field, raw) :: rest =>
      match field_defs !! field with
      | None =>
          let '(attrs', fta', rest') :=
            translate_details layer_fields field_defs rest attrs fields_to_add in
          (attrs', fta', (field, raw) :: rest')
      | Some fdef =>
          let field_name := composite_field_name field fdef in
          let fields_to_add :=
            if _field_already_exists field_name layer_fields fields_to_add
            then fields_to_add
            else fields_to_add
                   ++ [(field_name, esri_field_type fdef,
                        default field (fd_title fdef))] in
          let elements := translated_elements fdef raw in
          let attrs :=
            <[field_name := PStr (str_join "," (map py_str elements))]> attrs in
          let '(attrs', fta', rest') :=
            translate_details layer_fields field_defs rest attrs fields_to_add in
          (attrs', fta', (field, value_after fdef raw) :: rest')
      end
  end.

(** ** The reconciliation loop of [upsert_events_from_er] *)

(** The local variables of [upsert_events_from_er] that its loop over
    [er_events] updates. *)
Record sync_state : Type := SyncState {
  features_to_add : list feature;
  features_to_update : list feature;
  fields_to_add : list pending_field;
  er_field_types : gmap string (gmap string field_def);
  er_event_type_names : gmap string pyval;
  er_event_files : list (string * list er_file);
  event_count : nat
}.

Definition initial_state : sync_state :=
  SyncState [] [] [] ∅ ∅ [] 0.

(** The first contained-in link of type ['contains'] (the loop with
    [break]). *)
Fixpoint first_parent (parents : list er_parent) : option pyval :=
  match parents with
  | [] => None
  | potential_parent :: rest =>
      if decide (par_type potential_parent = PStr "contains")
      then Some (par_serial_number potential_parent)
      else first_parent rest
  end.

Section EventLoop.

(** The instant [dateparser.parse(s)] denotes, in milliseconds; [None] when
    [dateparser] cannot parse [s] and returns [None]. *)
Variable parse_timestamp_ms : string -> option Z.

(** [dateparser.parse(s).timestamp()], the float of seconds that the
    staleness test computes with; [None] when [dateparser] returns [None]. *)
Variable parse_timestamp : string -> option float.

(** [self._get_er_field_definitions(event_type)]: the title and field
    definitions resolved from the tracking service's schema. *)
Variable _get_er_field_definitions :
  string -> res (pyval * gmap string field_def).

Variable include_incidents : bool.

(** The names of [esri_layer.properties.fields]. *)
Variable layer_fields : list string.

(** The index [_get_existing_esri_events] returned: serial number to
    [[OBJECTID, EditDate]]. *)
Variable existing_events : gmap string (pyval * pyval).

Definition timestamp_ms (s : string) : res Z :=
  match parse_timestamp_ms s with
  | Some t => Ok t
  | None => Raise (AttributeError "'NoneType' object has no attribute 'timestamp'")
  end.

(** [er_update_time + self.UPDATE_TIME_PADDING * 60*1000], where
    [er_update_time] is [timestamp * 1000]: a float product and a float
    sum. *)
Definition stale_threshold (timestamp : float) : float :=
  (timestamp * float_of_Z 1000
   + float_of_Z (UPDATE_TIME_PADDING * 60 * 1000))%float.

(** The staleness test of a known event: [esri_update_time >
    er_update_time + UPDATE_TIME_PADDING * 60 * 1000]. *)
Definition is_stale_skip (event : er_event) : res bool :=
  match existing_events !! py_str (ev_serial_number event) with
  | Some esri_event =>
      let esri_update_time := esri_event.2 in
      try! timestamp :=
        match parse_timestamp (ev_updated_at event) with
        | Some t => Ok t
        | None =>
            Raise (AttributeError "'NoneType' object has no attribute 'timestamp'")
        end in
      match py_num esri_update_time with
      | Some t => Ok (int_gt_float t (stale_threshold timestamp))
      | None => Raise (TypeError "'>' not supported between these instances")
      end
  | None => Ok false
  end.

(** One iteration of [for event in er_events]. *)
Definition process_event (st : sync_state) (event : er_event) : res sync_state :=
  let count := S (event_count st) in
  let skipped :=
    SyncState (features_to_add st) (features_to_update st) (fields_to_add st)
      (er_field_types st) (er_event_type_names st) (er_event_files st) count in
  let key := py_str (ev_serial_number event) in
  try! stale := is_stale_skip event in
  if stale then Ok skipped
  else if negb include_incidents && py_truthy (ev_is_collection event)
  then Ok skipped
  else
    try! report_time := timestamp_ms (ev_time event) in
    let attrs : gmap string pyval :=
      <["ER_REPORT_TIME" := PInt report_time]>
        (<["ER_REPORT_NUMBER" := PStr key]> ∅) in
    let '(geom, attrs) :=
      match ev_location event with
      | Some loc =>
          (Some (Point (loc_longitude loc) (loc_latitude loc) 4326),
           <["LONGITUDE" := PStr (py_str (loc_longitude loc))]>
             (<["LATITUDE" := PStr (py_str (loc_latitude loc))]> attrs))
      | None => (None, attrs)
      end in
    let attrs :=
      match ev_reported_by event with
      | Some reporter =>
          <["REPORTED_BY" := PStr (py_str (default (PStr "") reporter))]> attrs
      | None => attrs
      end in
    try! (type_names, field_types) :=
      match er_field_types st !! ev_event_type event with
      | Some _ => Ok (er_event_type_names st, er_field_types st)
      | None =>
          try! (type_name, field_defs) :=
            _get_er_field_definitions (ev_event_type event) in
          Ok (<[ev_event_type event := type_name]> (er_event_type_names st),
              <[ev_event_type event := field_defs]> (er_field_types st))
      end in
    try! type_name :=
      match type_names !! ev_event_type event with
      | Some n => Ok n
      | None => Raise (KeyError (ev_event_type event))
      end in
    try! field_defs :=
      match field_types !! ev_event_type event with
      | Some d => Ok d
      | None => Raise (KeyError (ev_event_type event))
      end in
    let report_type := _clean_field_value type_name in
    let attrs := <["ER_REPORT_TYPE" := report_type]> attrs in
    let attrs :=
      match ev_title event with
      | PNone => <["ER_REPORT_TITLE" := _clean_field_value report_type]> attrs
      | t => <["ER_REPORT_TITLE" := PStr (_clean_field_value (py_str t))]> attrs
      end in
    let '(attrs, fta, _) :=
      translate_details layer_fields field_defs (ev_event_details event)
        attrs (fields_to_add st) in
    try! attrs :=
      if include_incidents then
        match ev_is_contained_in event with
        | Some parents =>
            Ok match first_parent parents with
               | Some serial => <["PARENT_INCIDENT" := serial]> attrs
               | None => attrs
               end
        | None => Raise (TypeError "'NoneType' object is not iterable")
        end
      else Ok attrs in
    let '(to_add, to_update) :=
      match existing_events !! key with
      | Some esri_event =>
          (features_to_add st,
           features_to_update st
             ++ [Feature (<["OBJECTID" := esri_event.1]> attrs) geom])
      | None =>
          (features_to_add st ++ [Feature attrs geom],
           features_to_update st)
      end in
    let event_files :=
      match ev_files event with
      | [] => er_event_files st
      | fs => dict_set key fs (er_event_files st)
      end in
    Ok (SyncState to_add to_update fta field_types type_names event_files count).

(** The whole loop: the first exception ends it. *)
Fixpoint process_events (st : sync_state) (er_events : list er_event)
    : res sync_state :=
  match er_events with
  | [] => Ok st
  | event :: rest =>
      try! st' := process_event st event in
      process_events st' rest
  end.

End EventLoop.

(** ** The feature layer and the tracking service as oracles *)

(** A feature returned by [layer.query]: its [attributes]. *)
Definition row : Type := gmap string pyval.

(** A field descriptor [{'name': .., 'type': .., 'alias': ..}]. *)
Record field_spec : Type := FieldSpec {
  fs_name : string;
  fs_alias : option string;
  fs_type : string
}.

(** [edit_features(adds = chunk)] or [edit_features(updates = chunk)]. *)
Inductive edit_call : Type :=
| EditAdds (chunk : list feature)
| EditUpdates (chunk : list feature).

(** One entry of ['addResults'] or ['updateResults']; [success] is
    [result['success'] == True]. *)
Record edit_result : Type := EditResult { success : bool }.

Record edit_response : Type := EditResponse {
  addResults : list edit_result;
  updateResults : list edit_result
}.

(** Every call made on the layer, with what it answered. *)
Inductive log_entry : Type :=
| LogQuery (where_ : string) (reply : res (list row))
| LogAddToDefinition (fields : list field_spec) (reply : res bool)
| LogEdit (call : edit_call) (reply : res edit_response).

Record subject : Type := Subject {
  subj_id : pyval;
  subj_name : pyval;
  subj_tracks_available : pyval;
  subj_last_position_date : option string
}.

Record observation : Type := Observation {
  obs_id : pyval;
  obs_recorded_at : string;
  obs_location : option er_location
}.

(** The index the [_get_existing_esri_*] helpers build from a query result:
    [existing_ids[str(attributes[key_attr])] = [OBJECTID, EditDate]]. *)
Definition row_get (r : row) (k : string) : res pyval :=
  match r !! k with
  | Some v => Ok v
  | None => Raise (KeyError k)
  end.

Fixpoint index_rows (key_attr : string) (existing : list row)
    (existing_ids : gmap string (pyval * pyval))
    : res (gmap string (pyval * pyval)) :=
  match existing with
  | [] => Ok existing_ids
  | event :: rest =>
      try! objectid := row_get event "OBJECTID" in
      try! editdate := row_get event "EditDate" in
      try! key := row_get event key_attr in
      index_rows key_attr rest (<[py_str key := (objectid, editdate)]> existing_ids)
  end.

Definition count_successes (results : list edit_result) (n : nat) : nat :=
  foldl (fun n result => if success result then S n else n) n results.

Section Layer.

(** The state of everything outside the process. *)
Variable world : Type.

Variable layer_properties_fields : world -> list string.
Variable layer_query : string -> world -> res (list row) * world.
Variable layer_add_to_definition :
  list field_spec -> world -> res bool * world.
Variable layer_edit_features : edit_call -> world -> res edit_response * world.
Variable das_get_subjects : world -> res (list subject) * world.
Variable das_get_subject_observations :
  pyval -> Z -> world -> res (list observation) * world.

(** [d.strftime("%Y-%m-%d %H:%M:%S")] of a time given in milliseconds. *)
Variable strftime : Z -> string.
Variable parse_timestamp_ms : string -> option Z.
(** [datetime.now(tz=timezone.utc)], in milliseconds. *)
Variable now : Z.

(** Computations that call the services: they thread the world and the log
    of layer calls, and may raise. *)
Definition M (A : Type) : Type :=
  world * list log_entry -> res A * (world * list log_entry).

Definition m_ret {A} (a : A) : M A := fun s => (Ok a, s).

Definition m_bind {A B} (c : M A) (k : A -> M B) : M B :=
  fun s =>
    match c s with
    | (Ok a, s') => k a s'
    | (Raise e, s') => (Raise e, s')
    end.

Definition m_lift {A} (r : res A) : M A := fun s => (r, s).

Notation "'do!' x ':=' c 'in' k" := (m_bind c (fun x => k))
  (at level 10, x pattern, c at level 100, k at level 200).

Fixpoint m_foldl {A B} (f : A -> B -> M A) (a : A) (l : list B) : M A :=
  match l with
  | [] => m_ret a
  | b :: rest => do! a' := f a b in m_foldl f a' rest
  end.

Definition query (where_ : string) : M (list row) :=
  fun '(w, log) =>
    let '(reply, w') := layer_query where_ w in
    (reply, (w', log ++ [LogQuery where_ reply])).

Definition add_to_definition (fields : list field_spec) : M bool :=
  fun '(w, log) =>
    let '(reply, w') := layer_add_to_definition fields w in
    (reply, (w', log ++ [LogAddToDefinition fields reply])).

Definition edit_features (call : edit_call) : M edit_response :=
  fun '(w, log) =>
    let '(reply, w') := layer_edit_features call w in
    (reply, (w', log ++ [LogEdit call reply])).

Definition properties_fields : M (list string) :=
  fun '(w, log) => (Ok (layer_properties_fields w), (w, log)).

Definition get_subjects : M (list subject) :=
  fun '(w, log) =>
    let '(reply, w') := das_get_subjects w in (reply, (w', log)).

Definition get_subject_observations (subject_id : pyval) (start : Z)
    : M (list observation) :=
  fun '(w, log) =>
    let '(reply, w') := das_get_subject_observations subject_id start w in
    (reply, (w', log)).

(** *** [_ensure_attributes_in_layer] *)
Definition _ensure_attributes_in_layer (fields : list field_spec) : M unit :=
  do! layer_fields := properties_fields in
  let new_fields :=
    filter (fun field => negb (_field_already_exists (fs_name field) layer_fields []) = true)
           fields in
  match new_fields with
  | [] => m_ret tt
  | _ => do! _ := add_to_definition new_fields in m_ret tt
  end.

(** *** [_get_existing_esri_points] *)
Definition _get_existing_esri_points (oldest_date : Z) (er_subject_id : pyval)
    : M (gmap string (pyval * pyval)) :=
  let query_ := "EditDate > '" +:+ strftime oldest_date +:+ "'" in
  let query_ :=
    match er_subject_id with
    | PNone => query_
    | _ => query_ +:+ " and ER_SUBJECT_ID = '" +:+ py_str er_subject_id +:+ "'"
    end in
  do! existing := query query_ in
  m_lift (index_rows "ER_OBSERVATION_ID" existing ∅).

(** *** [_get_existing_esri_events] *)
Definition invalid_field_message : string :=
  "'Invalid field: ER_REPORT_NUMBER' parameter is invalid".

(** The [where] clause [_get_existing_esri_events] builds. *)
Definition events_where (oldest_date : option Z) : string :=
  let query_ := "ER_REPORT_NUMBER<>''" in
  match oldest_date with
  | Some d => query_ +:+ " and EditDate > '" +:+ strftime d +:+ "'"
  | None => query_
  end.

Definition _get_existing_esri_events (oldest_date : option Z)
    : M (gmap string (pyval * pyval)) :=
  fun s =>
    match query (events_where oldest_date) s with
    | (Ok existing, s') => (index_rows "ER_REPORT_NUMBER" existing ∅, s')
    | (Raise e, s') =>
        if str_contains invalid_field_message (exn_str e)
        then (Ok ∅, s')
        else (Raise e, s')
    end.

(** *** Batch mutator: [_add_features], [_update_features],
    [_upsert_features] *)
Definition _add_features (add_features : list feature) (chunk_size : Z)
    : M nat :=
  do! chunks := m_lift (_chunk add_features chunk_size) in
  m_foldl
    (fun added chunk =>
       do! results := edit_features (EditAdds chunk) in
       m_ret (count_successes (addResults results) added))
    0%nat chunks.

Definition _update_features (update_features : list feature) (chunk_size : Z)
    : M nat :=
  do! chunks := m_lift (_chunk update_features chunk_size) in
  m_foldl
    (fun updated chunk =>
       do! results := edit_features (EditUpdates chunk) in
       m_ret (count_successes (updateResults results) updated))
    0%nat chunks.

Definition _upsert_features (add_features update_features : list feature)
    (chunk_size : Z) : M (nat * nat) :=
  do! added := _add_features add_features chunk_size in
  do! updated := _update_features update_features chunk_size in
  m_ret (added, updated).

(** *** [upsert_track_points_from_er] *)
Definition track_point_base_attributes : list field_spec :=
  [ FieldSpec "ER_OBSERVATION_ID" (Some "Observation ID") "esriFieldTypeString";
    FieldSpec "SUBJECT_NAME" (Some "Subject Name") "esriFieldTypeString";
    FieldSpec "OBSERVATION_TIME" (Some "Observation Time") "esriFieldTypeDate";
    FieldSpec "ER_SUBJECT_ID" (Some "Subject ID") "esriFieldTypeString";
    FieldSpec "LATITUDE" (Some "Latitude") "esriFieldTypeDouble";
    FieldSpec "LONGITUDE" (Some "Longitude") "esriFieldTypeDouble" ].

Definition point_feature (subj : subject) (point : observation) : res feature :=
  try! observation_time := timestamp_ms parse_timestamp_ms (obs_recorded_at point) in
  let attrs : gmap string pyval :=
    <["OBSERVATION_TIME" := PInt observation_time]>
      (<["SUBJECT_NAME" := subj_name subj]>
      (<["ER_SUBJECT_ID" := subj_id subj]>
      (<["ER_OBSERVATION_ID" := obs_id point]> ∅))) in
  match obs_location point with
  | Some loc =>
      Ok (Feature
            (<["LONGITUDE" := PStr (py_str (loc_longitude loc))]>
               (<["LATITUDE" := PStr (py_str (loc_latitude loc))]> attrs))
            (Some (Point (loc_longitude loc) (loc_latitude loc) 4326)))
  | None => Ok (Feature attrs None)
  end.

(** The loop [for point in er_observations]. *)
Fixpoint points_to_add (subj : subject)
    (existing_points : gmap string (pyval * pyval))
    (er_observations : list observation) (features_to_add : list feature)
    : res (list feature) :=
  match er_observations with
  | [] => Ok features_to_add
  | point :: rest =>
      match existing_points !! py_str (obs_id point) with
      | Some _ => points_to_add subj existing_points rest features_to_add
      | None =>
          try! feature := point_feature subj point in
          points_to_add subj existing_points rest
            (features_to_add ++ [feature])
      end
  end.

(** One iteration of [for subject in subjects]. *)
Definition sync_subject_points (oldest_date : Z) (subj : subject) : M unit :=
  if negb (py_truthy (subj_tracks_available subj)) then m_ret tt
  else
    match subj_last_position_date subj with
    | None => m_ret tt
    | Some last_position_date =>
        if String.eqb last_position_date "" then m_ret tt
        else
          match parse_timestamp_ms last_position_date with
          | None =>
              m_lift (Raise (TypeError "'<' not supported between instances of 'NoneType' and 'datetime.datetime'"))
          | Some last_position_datetime =>
              if (last_position_datetime <? oldest_date)%Z then m_ret tt
              else
                do! er_observations :=
                  get_subject_observations (subj_id subj) oldest_date in
                do! existing_points :=
                  _get_existing_esri_points oldest_date (subj_id subj) in
                do! features_to_add :=
                  m_lift (points_to_add subj existing_points er_observations []) in
                match features_to_add with
                | [] => m_ret tt
                | _ =>
                    do! _ := _upsert_features features_to_add [] 50 in
                    m_ret tt
                end
          end
    end.

Definition upsert_track_points_from_er (oldest_date : option Z) : M unit :=
  do! _ := _ensure_attributes_in_layer track_point_base_attributes in
  let oldest_date :=
    default (now - 30 * 24 * 60 * 60 * 1000)%Z oldest_date in
  do! subjects := get_subjects in
  m_foldl (fun _ subj => sync_subject_points oldest_date subj) tt subjects.

End Layer.

(** ** Predicates used in the statements *)

(** No hyphen occurs in [s]. *)
Fixpoint hyphen_free (s : string) : bool :=
  match s with
  | EmptyString => true
  | String c r => negb (Ascii.eqb c "-"%char) && hyphen_free r
  end.

(** The elements a raw value stands for: a list's own, or the scalar alone. *)
Definition raw_elements (raw : field_value) : list pyval :=
  match raw with
  | FList l => l
  | FScalar x => [x]
  end.

(** An element after substitution through the definition's value map, when
    it has one; an element the map does not know is left as it is. *)
Definition substituted (fdef : field_def) (x : pyval) : pyval :=
  match fd_value_map fdef with
  | Some value_map => default x (value_map !! py_key x)
  | None => x
  end.

(** The schema of the example: a field whose value map is
    [{"a": "Alpha", "b": "Beta"}]. *)
Definition alpha_beta_def : field_def :=
  FieldDef (Some "string") None
    (Some (<[KStr "a" := PStr "Alpha"]> (<[KStr "b" := PStr "Beta"]> ∅))).

(** The schema of the event's type can be had: it is cached, or the
    tracking service resolves it. *)
Definition schema_resolves
    (_get_er_field_definitions : string -> res (pyval * gmap string field_def))
    (st : sync_state) (event : er_event) : Prop :=
  match er_field_types st !! ev_event_type event with
  | Some _ => is_Some (er_event_type_names st !! ev_event_type event)
  | None => exists r, _get_er_field_definitions (ev_event_type event) = Ok r
  end.

(** The collection gate lets the event through. *)
Definition passes_collection_gate (include_incidents : bool) (event : er_event)
    : Prop :=
  negb include_incidents && py_truthy (ev_is_collection event) = false.

(** The pending list holds no name twice and no name the layer declares. *)
Definition pending_ok (layer_fields : list string)
    (pending : list pending_field) : Prop :=
  NoDup (map pending_name pending)
  /\ forall name, name ∈ map pending_name pending -> name ∉ layer_fields.

(** A layer call that is not an update mutation. *)
Definition no_update_call (entry : log_entry) : Prop :=
  match entry with
  | LogEdit (EditUpdates _) _ => False
  | _ => True
  end.

(** Whatever the world and the log before it, the computation [c] only
    appends to the log, and only entries that satisfy [P]. *)
Definition appends_only {world A : Type} (P : log_entry -> Prop)
    (c : M world A) : Prop :=
  forall w log, exists ext, (c (w, log)).2.2 = log ++ ext /\ Forall P ext.

(** The observations of [er_observations] that the index does not know. *)
Definition unknown_points (existing_points : gmap string (pyval * pyval))
    (er_observations : list observation) : list observation :=
  filter (fun point => existing_points !! py_str (obs_id point) = None)
         er_observations.

(** [point_feature] over a list, stopping at the first exception. *)
Fixpoint point_features (parse_timestamp_ms : string -> option Z)
    (subj : subject) (points : list observation) : res (list feature) :=
  match points with
  | [] => Ok []
  | point :: rest =>
      try! feature := point_feature parse_timestamp_ms subj point in
      try! features := point_features parse_timestamp_ms subj rest in
      Ok (feature :: features)
  end.

(** The layer of the batch example: it answers every call and rejects
    exactly the features that carry no geometry. *)
Definition strict_layer (call : edit_call) (w : unit)
    : res edit_response * unit :=
  let results := map (fun f => EditResult (bool_decide (is_Some (geometry f)))) in
  match call with
  | EditAdds chunk => (Ok (EditResponse (results chunk) []), w)
  | EditUpdates chunk => (Ok (EditResponse [] (results chunk)), w)
  end.

Definition located (serial : Z) : feature :=
  Feature (<["ER_REPORT_NUMBER" := PStr (py_str (PInt serial))]> ∅)
          (Some (Point (PInt 36) (PInt (-1)) 4326)).

Definition unlocated (serial : Z) : feature :=
  Feature (<["ER_REPORT_NUMBER" := PStr (py_str (PInt serial))]> ∅) None.

(** Two definitions whose declared types differ by a hyphen only. *)
Definition hyphen_type_def : field_def := FieldDef (Some "multi-select") None None.
Definition underscore_type_def : field_def := FieldDef (Some "multi_select") None None.

Definition number_def : field_def := FieldDef (Some "number") None None.
Definition string_def : field_def := FieldDef (Some "string") None None.

(** ** A worked example: sightings with a species list and a count *)

Definition example_parse (s : string) : option Z :=
  if String.eqb s "2021-01-01T00:00:00+00:00" then Some 1609459200000%Z
  else if String.eqb s "2021-01-02T00:00:00+00:00" then Some 1609545600000%Z
  else None.

(** [timestamp()] of the same dates, and of an update time with a fraction
    of a second: the double nearest to 1095513148.12. *)
Definition example_timestamp (s : string) : option float :=
  if String.eqb s "2021-01-01T00:00:00+00:00" then Some 1609459200%float
  else if String.eqb s "2021-01-02T00:00:00+00:00" then Some 1609545600%float
  else if String.eqb s "2004-09-18T13:12:28.12Z"
  then Some 0x1.0530d0f07ae14p+30%float
  else None.

Definition example_schema (event_type : string)
    : res (pyval * gmap string field_def) :=
  Ok (PStr "Wildlife Sighting",
      <["species" := alpha_beta_def]> (<["count" := number_def]> ∅)).

(** An event updated and reported at midnight, 1 January 2021 (UTC). *)
Definition example_event (serial : Z) (is_collection : bool) : er_event :=
  ErEvent (PInt serial) "2021-01-01T00:00:00+00:00" "2021-01-01T00:00:00+00:00"
    (PBool is_collection) None None "wildlife_sighting_rep" PNone
    [("species", FList [PStr "a"; PStr "b"]); ("count", FScalar (PInt 3))]
    (Some []) [].

(** Event 42 is feature 7, last edited exactly one padding (24 hours) after
    the event's update time. *)
Definition tie_index : gmap string (pyval * pyval) :=
  <["42" := (PInt 7, PInt 1609545600000)]> ∅.

(** Event 42 is feature 7, last edited one second later than that. *)
Definition newer_index : gmap string (pyval * pyval) :=
  <["42" := (PInt 7, PInt 1609545601000)]> ∅.

(** An event updated at 13:12:28.12 on 18 September 2004 (UTC), that is at
    1095513148120 ms, and the index in which it is feature 7, last edited
    exactly one padding later. *)
Definition fractional_event : er_event :=
  ErEvent (PInt 42) "2004-09-18T13:12:28.12Z" "2004-09-18T13:12:28.12Z"
    (PBool false) None None "wildlife_sighting_rep" PNone [] (Some []) [].

Definition fractional_tie_index : gmap string (pyval * pyval) :=
  <["42" := (PInt 7, PInt 1095599548120)]> ∅.

(** A multi-valued field over the numeric codes [1], [2], ... whose value
    map, as every JSON object, has string keys. *)
Definition threat_def : field_def :=
  FieldDef (Some "array") (Some "Threat level")
    (Some (<[KStr "1" := PStr "Low"]> (<[KStr "2" := PStr "High"]> ∅))).

Definition threat_defs : gmap string field_def := <["threat" := threat_def]> ∅.

Definition threat_details : list (string * field_value) :=
  [("threat", FList [PInt 1])].

(** ** Predicates of the further properties *)

(** A layer call that adds features, and one that updates features. *)
Definition is_add_call (entry : log_entry) : Prop :=
  match entry with
  | LogEdit (EditAdds _) _ => True
  | _ => False
  end.

Definition is_update_call (entry : log_entry) : Prop :=
  match entry with
  | LogEdit (EditUpdates _) _ => True
  | _ => False
  end.

(** The layer answered the call: it did not raise. *)
Definition reply_ok (entry : log_entry) : Prop :=
  match entry with
  | LogQuery _ (Ok _) | LogAddToDefinition _ (Ok _) | LogEdit _ (Ok _) => True
  | _ => False
  end.

(** The number of per-feature results that report success. *)
Definition successes (results : list edit_result) : nat :=
  length (filter (fun r => success r = true) results).

(** The log of add calls (of update calls) for [chunks], answered in order
    by [replies]. *)
Definition add_log (chunks : list (list feature))
    (replies : list edit_response) : list log_entry :=
  zip_with (fun chunk reply => LogEdit (EditAdds chunk) (Ok reply)) chunks replies.

Definition update_log (chunks : list (list feature))
    (replies : list edit_response) : list log_entry :=
  zip_with (fun chunk reply => LogEdit (EditUpdates chunk) (Ok reply)) chunks replies.

(** The layer answers every edit call, with whatever per-feature results. *)
Definition answers_edits {world : Type}
    (layer_edit_features : edit_call -> world -> res edit_response * world)
    : Prop :=
  forall call w, exists reply w', layer_edit_features call w = (Ok reply, w').

(** Whatever the world and the log, [c] only appends to the log, every call
    it logs but the last was answered, and so was the last when [c]
    returns. *)
Definition stops_at_raise {world A : Type} (c : M world A) : Prop :=
  forall w log,
    exists ext,
      (c (w, log)).2.2 = log ++ ext
      /\ match (c (w, log)).1 with
         | Ok _ => Forall reply_ok ext
         | Raise _ => Forall reply_ok (removelast ext)
         end.

(** The index entry a queried feature stands for: its key attribute as a
    string, with its [OBJECTID] and [EditDate]; none when one of the three
    attributes is missing. *)
Definition row_entry (key_attr : string) (r : row)
    : option (string * (pyval * pyval)) :=
  match r !! "OBJECTID", r !! "EditDate", r !! key_attr with
  | Some objectid, Some editdate, Some key => Some (py_str key, (objectid, editdate))
  | _, _, _ => None
  end.

Definition row_key (key_attr : string) (r : row) : option string :=
  fst <$> row_entry key_attr r.

(** A feature with these three attributes. *)
Definition example_row (report_number objectid editdate : pyval) : row :=
  <["ER_REPORT_NUMBER" := report_number]>
    (<["OBJECTID" := objectid]> (<["EditDate" := editdate]> ∅)).

(** The character [c] occurs in [s]. *)
Fixpoint str_has (c : ascii) (s : string) : bool :=
  match s with
  | EmptyString => false
  | String c' r => Ascii.eqb c' c || str_has c r
  end.

(** The fields of [details] that the schema defines. *)
Definition known_details (field_defs : gmap string field_def)
    (details : list (string * field_value)) : list (string * field_value) :=
  filter (fun entry => is_Some (field_defs !! entry.1)) details.

(** The [where] clause [_get_existing_esri_points] builds. *)
Definition points_where (strftime : Z -> string) (oldest_date : Z)
    (er_subject_id : pyval) : string :=
  let query_ := "EditDate > '" +:+ strftime oldest_date +:+ "'" in
  match er_subject_id with
  | PNone => query_
  | _ => query_ +:+ " and ER_SUBJECT_ID = '" +:+ py_str er_subject_id +:+ "'"
  end.

(** The subject passes the three tests that precede any call:
    [tracks_available] is truthy, and [last_position_date] is present, not
    empty, parses, and is not older than [oldest_date]. *)
Definition subject_is_synced (parse_timestamp_ms : string -> option Z)
    (oldest_date : Z) (subj : subject) : Prop :=
  py_truthy (subj_tracks_available subj) = true
  /\ exists last_position_date t,
       subj_last_position_date subj = Some last_position_date
       /\ last_position_date <> ""
       /\ parse_timestamp_ms last_position_date = Some t
       /\ (oldest_date <= t)%Z.

(** A tracking service and a layer for the observation examples: subject
    [s1] has the observations [o1] and [o2]; the layer holds [o1] only, or
    both. *)
Definition example_subject : subject :=
  Subject (PStr "s1") (PStr "Kito") (PBool true) (Some "2021-01-02T00:00:00+00:00").

Definition example_observations : list observation :=
  [Observation (PStr "o1") "2021-01-01T00:00:00+00:00" None;
   Observation (PStr "o2") "2021-01-02T00:00:00+00:00"
     (Some (ErLocation (PInt (-1)) (PInt 36)))].

Definition example_point_row (observation_id : string) : row :=
  <["ER_OBSERVATION_ID" := PStr observation_id]>
    (<["OBJECTID" := PInt 1]> (<["EditDate" := PInt 1609545600000]> ∅)).

Definition example_das_observations (subject_id : pyval) (start : Z) (w : unit)
    : res (list observation) * unit :=
  (Ok example_observations, w).

Definition example_full_query (where_ : string) (w : unit)
    : res (list row) * unit :=
  (Ok [example_point_row "o1"; example_point_row "o2"], w).

Definition example_strftime (t : Z) : string := "2020-12-03 00:00:00".

Definition example_partial_query (where_ : string) (w : unit)
    : res (list row) * unit :=
  (Ok [example_point_row "o1"], w).

Definition example_das_unparsed (subject_id : pyval) (start : Z) (w : unit)
    : res (list observation) * unit :=
  (Ok (example_observations ++ [Observation (PStr "o3") "not a date" None]), w).

(** ** The schema resolver: [__get_value_map_from_prop_def] and
    [_get_er_field_definitions] *)

(** An entry of a definition's ['items']: a string, or an object with its
    optional ['key'] and ['titleMap'] (a list of [{'value': .., 'name': ..}],
    given as pairs). *)
Inductive schema_item : Type :=
| ItemStr (s : string)
| ItemDict (key : option pyval) (titleMap : option (list (pyval * pyval))).

(** An entry of [schema['definition']]: a string, or an object with its
    optional ['items']. *)
Inductive schema_def : Type :=
| DefStr (s : string)
| DefDict (items : option (list schema_item)).

(** A property of [schema['schema']['properties']].  ['enumNames'] is a JSON
    object, so its keys are strings. *)
Record schema_prop : Type := SchemaProp {
  sp_type : option string;
  sp_title : option string;
  sp_key : option pyval;
  sp_enumNames : option (gmap string pyval);
  sp_value_map : option (gmap pykey pyval)
}.

(** The schema document [get_event_schema] returns: [schema['schema']['title']],
    [schema['schema']['properties']] in order, and [schema.get('definition')]. *)
Record er_schema : Type := ErSchema {
  sch_title : pyval;
  sch_properties : list (string * schema_prop);
  sch_definition : option (list schema_def)
}.

#[global] Instance KStr_inj : Inj (=) (=) KStr.
Proof. intros x y H. now injection H. Defined.

(** [for map_item in item['titleMap']: value_map[map_item['value']] =
    map_item['name']] *)
Definition title_map_to_value_map (titleMap : list (pyval * pyval))
    : gmap pykey pyval :=
  foldl (fun value_map map_item => <[py_key map_item.1 := map_item.2]> value_map)
        ∅ titleMap.

(** The inner loop over one definition's items: the value map of the first
    item whose ['key'] equals [key] and that has a ['titleMap'], if any.  On
    a string item, ['key' in item] is a substring test and [item['key']]
    raises. *)
Fixpoint value_map_in_items (items : list schema_item) (key : pyval)
    : res (option (gmap pykey pyval)) :=
  match items with
  | [] => Ok None
  | ItemStr s :: rest =>
      if str_contains "key" s
      then Raise (TypeError "string indices must be integers")
      else value_map_in_items rest key
  | ItemDict item_key titleMap :: rest =>
      match item_key, titleMap with
      | Some k, Some title_map =>
          if decide (py_key k = py_key key)
          then Ok (Some (title_map_to_value_map title_map))
          else value_map_in_items rest key
      | _, _ => value_map_in_items rest key
      end
  end.

(** The outer loop over the definitions. *)
Fixpoint value_map_in_defs (schema_defs : list schema_def) (key : pyval)
    : res (option (gmap pykey pyval)) :=
  match schema_defs with
  | [] => Ok None
  | DefStr _ :: _ =>
      Raise (AttributeError "'str' object has no attribute 'get'")
  | DefDict items :: rest =>
      try! found := value_map_in_items (default [] items) key in
      match found with
      | Some value_map => Ok (Some value_map)
      | None => value_map_in_defs rest key
      end
  end.

Definition __get_value_map_from_prop_def (schema_defs : list schema_def)
    (key : pyval) : res (gmap pykey pyval) :=
  try! found := value_map_in_defs schema_defs key in
  Ok (default ∅ found).

(** The ['value_map'] a property ends with: from the definition when the
    property has a ['key'], else its ['enumNames'] when it has some, else
    whatever it already held. *)
Definition prop_value_map (definition : option (list schema_def))
    (prop : schema_prop) : res (option (gmap pykey pyval)) :=
  match sp_key prop with
  | Some key =>
      try! schema_defs :=
        match definition with
        | Some d => Ok d
        | None => Raise (KeyError "definition")
        end in
      try! value_map := __get_value_map_from_prop_def schema_defs key in
      Ok (Some value_map)
  | None =>
      match sp_enumNames prop with
      | Some enumNames => Ok (Some (kmap KStr enumNames))
      | None => Ok (sp_value_map prop)
      end
  end.

(** The loop [for prop_name in props]. *)
Fixpoint field_defs_of_props (definition : option (list schema_def))
    (props : list (string * schema_prop)) (field_defs : gmap string field_def)
    : res (gmap string field_def) :=
  match props with
  | [] => Ok field_defs
  | (prop_name, prop) :: rest =>
      try! value_map := prop_value_map definition prop in
      field_defs_of_props definition rest
        (<[prop_name := FieldDef (sp_type prop) (sp_title prop) value_map]>
           field_defs)
  end.

Definition _get_er_field_definitions
    (get_event_schema : string -> res er_schema) (event_type : string)
    : res (pyval * gmap string field_def) :=
  try! schema := get_event_schema event_type in
  try! field_defs :=
    field_defs_of_props (sch_definition schema) (sch_properties schema) ∅ in
  Ok (sch_title schema, field_defs).

(** A schema whose definition list starts with a bare field name, as the
    form definitions of event types commonly do, and one of whose properties
    takes its choices from the definition. *)
Definition example_keyed_schema : er_schema :=
  ErSchema (PStr "Wildlife Sighting")
    [("species", SchemaProp (Some "string") (Some "Species") (Some (PStr "species"))
                   None None)]
    (Some [DefStr "count";
           DefDict (Some [ItemDict (Some (PStr "species"))
                            (Some [(PStr "a", PStr "Alpha")])])]).

(** A schema with a numeric rating named through ['enumNames']. *)
Definition example_enum_schema : er_schema :=
  ErSchema (PStr "Rating")
    [("rating", SchemaProp (Some "number") (Some "Rating") None
                  (Some (<["1" := PStr "Low"]> (<["2" := PStr "High"]> ∅))) None);
     ("notes", SchemaProp (Some "string") None None None None)]
    None.
(** ** Field provisioning and the pass of [upsert_events_from_er] *)

(** The descriptors [_add_fields_to_layer] builds: the cleaned name, the
    type and, every pending field having three elements, the alias. *)
Definition new_field_specs (fields : list pending_field) : list field_spec :=
  map (fun field =>
         FieldSpec (_clean_field_name field.1.1)
                   (Some (_clean_field_alias field.2)) field.1.2)
      fields.

Definition events_base_attributes (include_incidents : bool) : list field_spec :=
  [ FieldSpec "ER_REPORT_NUMBER" (Some "ER Report Number") "esriFieldTypeInteger";
    FieldSpec "ER_REPORT_TIME" (Some "ER Report Time") "esriFieldTypeDate";
    FieldSpec "ER_REPORT_TITLE" (Some "ER Report Title") "esriFieldTypeString";
    FieldSpec "ER_REPORT_TYPE" (Some "ER Report Type") "esriFieldTypeString";
    FieldSpec "REPORTED_BY" (Some "Reported By") "esriFieldTypeString";
    FieldSpec "LATITUDE" (Some "Latitude") "esriFieldTypeDouble";
    FieldSpec "LONGITUDE" (Some "Longitude") "esriFieldTypeDouble" ]
  ++ (if include_incidents
      then [FieldSpec "PARENT_INCIDENT" (Some "Parent Incident") "esriFieldTypeString"]
      else []).

(** A layer call that edits features. *)
Definition is_edit_call (entry : log_entry) : Prop :=
  match entry with
  | LogEdit _ _ => True
  | _ => False
  end.

Definition not_edit_call (entry : log_entry) : Prop :=
  match entry with
  | LogEdit _ _ => False
  | _ => True
  end.

Section EventsPass.

Variable world : Type.
Variable layer_properties_fields : world -> list string.
Variable layer_query : string -> world -> res (list row) * world.
Variable layer_add_to_definition :
  list field_spec -> world -> res bool * world.
Variable layer_edit_features : edit_call -> world -> res edit_response * world.

(** [das_client.get_events(include_notes = True, include_related_events =
    include_incidents, include_files = True, include_updates = False,
    oldest_update_date = oldest_date)], with the events it yields as a
    list. *)
Variable das_get_events : bool -> Z -> world -> res (list er_event) * world.

Variable strftime : Z -> string.
Variable parse_timestamp_ms : string -> option Z.
Variable parse_timestamp : string -> option float.

(** [self._get_er_field_definitions], as the tracking service answers it
    during the pass. *)
Variable resolve_field_definitions :
  string -> res (pyval * gmap string field_def).

Variable now : Z.

Local Notation "'do!' x ':=' c 'in' k" := (m_bind world c (fun x => k))
  (at level 10, x pattern, c at level 100, k at level 200).

Definition get_events (include_incidents : bool) (oldest_date : Z)
    : M world (list er_event) :=
  fun '(w, log) =>
    let '(reply, w') := das_get_events include_incidents oldest_date w in
    (reply, (w', log)).

(** *** [_add_fields_to_layer]; the rendering of [result] in the message of
    the exception is left out. *)
Definition _add_fields_to_layer (fields : list pending_field) : M world unit :=
  do! result :=
    add_to_definition world layer_add_to_definition (new_field_specs fields) in
  if result then m_ret world tt
  else m_lift world (Raise (Exn "Exception" "Error when creating fields: ")).

(** *** [upsert_events_from_er], before its loop: the base attributes, the
    events and the index of existing features (lines 465 to 495); the layer's
    fields are those the loop reads. *)
Definition prepare_events_pass (oldest_date : option Z)
    (include_incidents : bool)
    : M world (list er_event * gmap string (pyval * pyval) * list string) :=
  do! _ := _ensure_attributes_in_layer world layer_properties_fields
             layer_add_to_definition (events_base_attributes include_incidents) in
  let oldest_date := default (now - 30 * 24 * 60 * 60 * 1000)%Z oldest_date in
  do! er_events := get_events include_incidents oldest_date in
  do! existing_events :=
    _get_existing_esri_events world layer_query strftime (Some oldest_date) in
  do! layer_fields := properties_fields world layer_properties_fields in
  m_ret world (er_events, existing_events, layer_fields).

(** *** [upsert_events_from_er], after its loop and before the attachments
    (lines 585 to 596). *)
Definition submit_events_pass (st : sync_state) : M world unit :=
  do! _ :=
    match fields_to_add st with
    | [] => m_ret world tt
    | fields => _add_fields_to_layer fields
    end in
  match features_to_add st, features_to_update st with
  | [], [] => m_ret world tt
  | adds, updates =>
      do! _ := _upsert_features world layer_edit_features adds updates 50 in
      m_ret world tt
  end.

(** *** [upsert_events_from_er] up to the attachment phase (lines 465 to
    596); it returns the variables of the loop, of which the attachment phase
    reads [er_event_files]. *)
Definition upsert_events_features (oldest_date : option Z)
    (include_incidents : bool) : M world sync_state :=
  do! prepared := prepare_events_pass oldest_date include_incidents in
  let '(er_events, existing_events, layer_fields) := prepared in
  do! st :=
    m_lift world
      (process_events parse_timestamp_ms parse_timestamp resolve_field_definitions
         include_incidents layer_fields existing_events initial_state er_events) in
  do! _ := submit_events_pass st in
  m_ret world st.

End EventsPass.
(** A pass over one event whose report time cannot be parsed, on a layer
    that declares no field and refuses new ones. *)
Definition example_unparsed_event : er_event :=
  ErEvent (PInt 44) "2021-01-01T00:00:00+00:00" "the day before"
    (PBool false) None None "wildlife_sighting_rep" PNone [] (Some []) [].

Definition example_das_events (include_related_events : bool)
    (oldest_update_date : Z) (w : unit) : res (list er_event) * unit :=
  (Ok [example_event 43 false; example_unparsed_event], w).

Definition example_empty_query (where_ : string) (w : unit)
    : res (list row) * unit :=
  (Ok [], w).

Definition refusing_layer (fields : list field_spec) (w : unit)
    : res bool * unit :=
  (Ok false, w).

Definition example_pending_state : sync_state :=
  SyncState [located 1] [] [("count_number", "esriFieldTypeDouble", "count")]
    ∅ ∅ [] 1.

(** ** [_replace_attachments] *)

(** An entry of [attachments.get_list]: its ['id'] and ['name']. *)
Record attachment : Type := Attachment {
  att_id : pyval;
  att_name : pyval
}.

(** Every call of the attachment phase, with what it answered: the
    attachment calls on the layer, the download from the tracking service and
    the write of the downloaded content to the temporary file. *)
Inductive att_entry : Type :=
| AttGetList (oid : pyval) (reply : res (list attachment))
| AttDelete (oid attachment_id : pyval) (reply : res unit)
| AttGetFile (url : pyval) (reply : res string)
| AttWrite (path content : string) (reply : res unit)
| AttAdd (oid : pyval) (path : string) (reply : res unit).

Section Attachments.

Variable world : Type.
Variable layer_query : string -> world -> res (list row) * world.
Variable strftime : Z -> string.
Variable att_get_list : pyval -> world -> res (list attachment) * world.
Variable att_delete : pyval -> pyval -> world -> res unit * world.
Variable att_add : pyval -> string -> world -> res unit * world.
(** [das_client.get_file(url).content] *)
Variable das_get_file : pyval -> world -> res string * world.
(** [open(path, 'wb').write(content)] *)
Variable fs_write : string -> string -> world -> res unit * world.
(** [tmpdir.name] *)
Variable tmpdir_name : string.

(** The attachment phase threads the world together with the log of its own
    calls; the log of layer calls is threaded as before. *)
Definition att_world : Type := world * list att_entry.

Definition MA (A : Type) : Type := M att_world A.

Local Notation "'do!' x ':=' c 'in' k" := (m_bind att_world c (fun x => k))
  (at level 10, x pattern, c at level 100, k at level 200).

Definition att_layer_query (where_ : string) (aw : att_world)
    : res (list row) * att_world :=
  let '(reply, w') := layer_query where_ aw.1 in (reply, (w', aw.2)).

Definition attachments_get_list (oid : pyval) : MA (list attachment) :=
  fun '((w, calls), log) =>
    let '(reply, w') := att_get_list oid w in
    (reply, ((w', calls ++ [AttGetList oid reply]), log)).

Definition attachments_delete (oid attachment_id : pyval) : MA unit :=
  fun '((w, calls), log) =>
    let '(reply, w') := att_delete oid attachment_id w in
    (reply, ((w', calls ++ [AttDelete oid attachment_id reply]), log)).

Definition attachments_add (oid : pyval) (path : string) : MA unit :=
  fun '((w, calls), log) =>
    let '(reply, w') := att_add oid path w in
    (reply, ((w', calls ++ [AttAdd oid path reply]), log)).

Definition get_file (url : pyval) : MA string :=
  fun '((w, calls), log) =>
    let '(reply, w') := das_get_file url w in
    (reply, ((w', calls ++ [AttGetFile url reply]), log)).

Definition write_file (path content : string) : MA unit :=
  fun '((w, calls), log) =>
    let '(reply, w') := fs_write path content w in
    (reply, ((w', calls ++ [AttWrite path content reply]), log)).

(** [tmpdir.name + "/" + file['filename']] *)
Definition tmp_path (file : er_file) : res string :=
  match file_filename file with
  | PStr filename => Ok (tmpdir_name +:+ "/" +:+ filename)
  | _ => Raise (TypeError "can only concatenate str to str")
  end.

(** The body of [for file in event_files[event]]. *)
Definition attach_file (esri_object_id : pyval) (file : er_file) : MA unit :=
  do! tmppath := m_lift att_world (tmp_path file) in
  do! content := get_file (file_url file) in
  do! _ := write_file tmppath content in
  attachments_add esri_object_id tmppath.

(** The body of [for event in event_files.keys()]. *)
Definition replace_event_attachments
    (existing_events : gmap string (pyval * pyval))
    (event : string) (files : list er_file) : MA unit :=
  do! esri_object_id :=
    m_lift att_world
      match existing_events !! event with
      | Some esri_event => Ok esri_event.1
      | None => Raise (KeyError event)
      end in
  do! existing_attachments := attachments_get_list esri_object_id in
  do! _ :=
    m_foldl att_world
      (fun _ existing_file =>
         attachments_delete esri_object_id (att_id existing_file))
      tt existing_attachments in
  m_foldl att_world (fun _ file => attach_file esri_object_id file) tt files.

(** [event_files] in the order of its keys. *)
Definition _replace_attachments (oldest_date : option Z)
    (event_files : list (string * list er_file)) : MA unit :=
  do! existing_events :=
    _get_existing_esri_events att_world att_layer_query strftime oldest_date in
  m_foldl att_world
    (fun _ entry => replace_event_attachments existing_events entry.1 entry.2)
    tt event_files.

End Attachments.

(** The calls that delete the listed attachments of a feature, answered. *)
Definition delete_calls (oid : pyval) (attachments : list attachment)
    : list att_entry :=
  map (fun a => AttDelete oid (att_id a) (Ok tt)) attachments.

(** The calls that download, write and attach one file, answered. *)
Definition attach_calls (tmpdir_name : string) (oid : pyval)
    (file : er_file) (content : string) : list att_entry :=
  let path := tmpdir_name +:+ "/" +:+ py_str (file_filename file) in
  [AttGetFile (file_url file) (Ok content);
   AttWrite path content (Ok tt);
   AttAdd oid path (Ok tt)].

(** The file name is a string. *)
Definition named_file (file : er_file) : Prop :=
  exists filename, file_filename file = PStr filename.

(** A layer whose one feature holds a list of attachments: listing returns
    them, deleting removes the one with the given id, adding appends one
    named by the path. *)
Definition store_get_list (oid : pyval) (w : list attachment)
    : res (list attachment) * list attachment :=
  (Ok w, w).

Definition store_delete (oid attachment_id : pyval) (w : list attachment)
    : res unit * list attachment :=
  (Ok tt, filter (fun a => att_id a <> attachment_id) w).

Definition store_add (oid : pyval) (path : string) (w : list attachment)
    : res unit * list attachment :=
  (Ok tt, w ++ [Attachment (PStr path) (PStr path)]).

Definition store_get_file (url : pyval) (w : list attachment)
    : res string * list attachment :=
  (Ok "content", w).

Definition store_failing_get_file (url : pyval) (w : list attachment)
    : res string * list attachment :=
  (Raise (Exn "HTTPError" "404 Not Found"), w).

Definition store_write (path content : string) (w : list attachment)
    : res unit * list attachment :=
  (Ok tt, w).

Definition store_query (where_ : string) (w : list attachment)
    : res (list row) * list attachment :=
  (Ok [example_row (PInt 42) (PInt 7) (PInt 1609545600000)], w).

Definition two_attachments : list attachment :=
  [Attachment (PInt 1) (PStr "old1.jpg"); Attachment (PInt 2) (PStr "old2.jpg")].

Definition one_new_file : list er_file :=
  [ErFile (PStr "https://er.example/files/9") (PStr "new.jpg")].

(** ** dascsvloader: [DasCSVLoader] *)

Definition REQ_COLS : list string :=
  ["source_provider"; "manufacturer_id"; "recorded_at"; "lat"; "lon"].

Definition OPTIONAL_COLS : list string :=
  ["subject_name"; "subject_type"; "subject_subtype"; "model_name"; "source_type"].

(** A [datetime]: its wall-clock value and its [tzinfo], an offset. *)
Record py_datetime : Type := PyDatetime {
  dt_wall : Z;
  dt_tzinfo : option Z
}.

Definition DataFormatException (msg : string) : exn :=
  Exn "DataFormatException" msg.

Section CsvLoader.

(** The floats [float(s)] returns, and [float] itself: [None] when it
    raises [ValueError]. *)
Variable coordinate : Type.
Variable py_float : string -> option coordinate.

(** [dateparser.parse(s)]. *)
Variable dateparser_parse : string -> option py_datetime.

(** The point [_process_row] returns: ["recorded_at"], ["location"],
    ["additional"], and the optional columns it copies beside them. *)
Record csv_point : Type := CsvPoint {
  cp_recorded_at : py_datetime;
  cp_lat : coordinate;
  cp_lon : coordinate;
  cp_additional : gmap string string;
  cp_optional : gmap string string
}.

Definition csv_get (row : gmap string string) (col : string) : res string :=
  match row !! col with
  | Some v => Ok v
  | None => Raise (KeyError col)
  end.

Definition to_float (s : string) : res coordinate :=
  match py_float s with
  | Some x => Ok x
  | None => Raise (ValueError ("could not convert string to float: '" +:+ s +:+ "'"))
  end.

(** *** [_process_row]; a row is the [dict] that [csv.DictReader] yields for
    a line with as many fields as the header. *)
Definition _process_row (row : gmap string string) : res csv_point :=
  try! raw_recorded_at := csv_get row "recorded_at" in
  try! recorded_at :=
    match dateparser_parse raw_recorded_at with
    | Some d => Ok d
    | None => Raise (AttributeError "'NoneType' object has no attribute 'tzinfo'")
    end in
  let recorded_at :=
    match dt_tzinfo recorded_at with
    | None => PyDatetime (dt_wall recorded_at) (Some 0%Z)
    | Some _ => recorded_at
    end in
  try! raw_lat := csv_get row "lat" in
  try! lat := to_float raw_lat in
  try! raw_lon := csv_get row "lon" in
  try! lon := to_float raw_lon in
  let optional :=
    foldl (fun point col =>
             match row !! col with
             | Some v => <[col := v]> point
             | None => point
             end)
          (∅ : gmap string string) OPTIONAL_COLS in
  let additional :=
    filter (fun entry : string * string =>
              (entry.1 ∉ REQ_COLS) /\ (entry.1 ∉ OPTIONAL_COLS))
           row in
  Ok (CsvPoint recorded_at lat lon additional optional).

(** The points the generator yields from the rows, in order, and the
    exception that ends it, if any. *)
Fixpoint yield_points (rows : list (gmap string string))
    : list csv_point * option exn :=
  match rows with
  | [] => ([], None)
  | row :: rest =>
      match _process_row row with
      | Ok point =>
          let '(points, raised) := yield_points rest in (point :: points, raised)
      | Raise e => ([], Some e)
      end
  end.

(** *** [parse_observation_csv], from [reader.fieldnames] and the rows of
    the reader. *)
Definition parse_observation_csv (fieldnames : option (list string))
    (rows : list (gmap string string)) : list csv_point * option exn :=
  match fieldnames with
  | None => ([], Some (TypeError "argument of type 'NoneType' is not iterable"))
  | Some names =>
      let is_error :=
        foldl (fun is_error col =>
                 if bool_decide (col ∈ names) then is_error else true)
              false REQ_COLS in
      if is_error then ([], Some (DataFormatException "Invalid columns."))
      else yield_points rows
  end.

End CsvLoader.

(** An observation file with a naive timestamp, an optional column and a
    column of its own. *)
Definition example_csv_row (recorded_at lat : string) : gmap string string :=
  <["source_provider" := "gps-provider"]>
    (<["manufacturer_id" := "collar-7"]>
    (<["recorded_at" := recorded_at]>
    (<["lat" := lat]>
    (<["lon" := "36.8"]>
    (<["subject_name" := "Kito"]>
    (<["battery" := "87"]> ∅)))))).

Definition example_csv_date (s : string) : option py_datetime :=
  if String.eqb s "2021-01-01 00:00:00" then Some (PyDatetime 1609459200000 None)
  else None.

Definition example_csv_float (s : string) : option string :=
  if String.eqb s "north" then None else Some s.

(** ** Tracks: [_get_existing_esri_tracks] and [upsert_tracks_from_er] *)

(** A feature of [get_subject_tracks(..)['features']]: its
    [geometry['coordinates']], or [None] when the geometry or the coordinates
    are missing or [None]. *)
Record er_track : Type := ErTrack {
  tr_coordinates : option (list (list pyval))
}.

(** The polyline built for a track. *)
Record polyline : Type := Polyline {
  pl_attributes : gmap string pyval;
  pl_paths : list (list (list pyval));
  pl_wkid : Z
}.

(** [existing_ids[event.attributes['ER_ID']] = event.attributes['OBJECTID']] *)
Fixpoint index_tracks (existing : list row) (existing_ids : gmap pykey pyval)
    : res (gmap pykey pyval) :=
  match existing with
  | [] => Ok existing_ids
  | event :: rest =>
      try! objectid := row_get event "OBJECTID" in
      try! er_id := row_get event "ER_ID" in
      index_tracks rest (<[py_key er_id := objectid]> existing_ids)
  end.

Definition tracks_base_attributes : list field_spec :=
  [ FieldSpec "ER_ID" (Some "ER ID") "esriFieldTypeString";
    FieldSpec "SUBJECT_NAME" (Some "Subject Name") "esriFieldTypeString" ].

(** The loop [for feature in results['features']]. *)
Fixpoint track_polylines (existing_tracks : gmap pykey pyval) (subj : subject)
    (features : list er_track) (acc : list polyline * list polyline)
    : list polyline * list polyline :=
  match features with
  | [] => acc
  | feature :: rest =>
      match tr_coordinates feature with
      | None => track_polylines existing_tracks subj rest acc
      | Some coordinates =>
          let attrs : gmap string pyval :=
            <["SUBJECT_NAME" := subj_name subj]>
              (<["ER_ID" := subj_id subj]> ∅) in
          match existing_tracks !! KStr (py_str (subj_id subj)) with
          | Some objectid =>
              track_polylines existing_tracks subj rest
                (acc.1,
                 acc.2 ++ [Polyline (<["OBJECTID" := objectid]> attrs)
                             [coordinates] 4326])
          | None =>
              track_polylines existing_tracks subj rest
                (acc.1 ++ [Polyline attrs [coordinates] 4326], acc.2)
          end
      end
  end.

Section Tracks.

Variable world : Type.
Variable layer_properties_fields : world -> list string.
Variable layer_query : string -> world -> res (list row) * world.
Variable layer_add_to_definition :
  list field_spec -> world -> res bool * world.
Variable das_get_subjects : world -> res (list subject) * world.
(** [das_client.get_subject_tracks(subject_id, start)['features']] *)
Variable das_get_subject_tracks :
  pyval -> Z -> world -> res (list er_track) * world.
(** [datetime.now(tz=timezone.utc)], in milliseconds. *)
Variable clock : world -> Z * world.
Variable parse_timestamp_ms : string -> option Z.

Local Notation "'do!' x ':=' c 'in' k" := (m_bind world c (fun x => k))
  (at level 10, x pattern, c at level 100, k at level 200).

Definition datetime_now : M world Z :=
  fun '(w, log) => let '(t, w') := clock w in (Ok t, (w', log)).

Definition get_subject_tracks (subject_id : pyval) (start : Z)
    : M world (list er_track) :=
  fun '(w, log) =>
    let '(reply, w') := das_get_subject_tracks subject_id start w in
    (reply, (w', log)).

(** *** [_get_existing_esri_tracks] *)
Definition _get_existing_esri_tracks : M world (gmap pykey pyval) :=
  do! existing := query world layer_query "'ER_ID'<>''" in
  m_lift world (index_tracks existing ∅).

(** The test that skips a subject whose track exists and whose last position
    is older than the padding: [True] to skip. *)
Definition track_is_current (existing_tracks : gmap pykey pyval)
    (subj : subject) (last_position_date : string) : M world bool :=
  match existing_tracks !! py_key (subj_id subj) with
  | Some _ =>
      do! now := datetime_now in
      let cutoff := (now - UPDATE_TIME_PADDING * 60 * 1000)%Z in
      match parse_timestamp_ms last_position_date with
      | Some t => m_ret world (t <? cutoff)%Z
      | None =>
          m_lift world
            (Raise (TypeError "'<' not supported between instances of 'NoneType' and 'datetime.datetime'"))
      end
  | None => m_ret world false
  end.

(** One iteration of [for subject in subjects]. *)
Definition track_step (since : Z) (existing_tracks : gmap pykey pyval)
    (acc : list polyline * list polyline) (subj : subject)
    : M world (list polyline * list polyline) :=
  match subj_last_position_date subj with
  | None => m_ret world acc
  | Some last_position_date =>
      do! skip := track_is_current existing_tracks subj last_position_date in
      if skip then m_ret world acc
      else
        do! features := get_subject_tracks (subj_id subj) since in
        m_ret world (track_polylines existing_tracks subj features acc)
  end.

(** *** [upsert_tracks_from_er] up to its call of [_upsert_features] (lines
    385 to 437): the polylines to add and to update. *)
Definition tracks_to_upsert (since : option Z)
    : M world (list polyline * list polyline) :=
  do! _ := _ensure_attributes_in_layer world layer_properties_fields
             layer_add_to_definition tracks_base_attributes in
  do! subjects := get_subjects world das_get_subjects in
  do! existing_tracks := _get_existing_esri_tracks in
  do! since :=
    match since with
    | Some t => m_ret world t
    | None =>
        do! now := datetime_now in
        m_ret world (now - 30 * 24 * 60 * 60 * 1000)%Z
    end in
  m_foldl world (track_step since existing_tracks) ([], []) subjects.

End Tracks.

(** Whatever the world and the log, a value that [c] returns satisfies [Q]. *)
Definition returns_only {world A : Type} (c : M world A) (Q : A -> Prop)
    : Prop :=
  forall s a s', c s = (Ok a, s') -> Q a.

(** A polyline to add carries no [OBJECTID]; a polyline to update carries
    the [OBJECTID] that the index of existing tracks holds under the string
    form of its [ER_ID]. *)
Definition tracks_classified (existing_tracks : gmap pykey pyval)
    (lists : list polyline * list polyline) : Prop :=
  Forall (fun p => pl_attributes p !! "OBJECTID" = None
                   /\ exists er_id,
                        pl_attributes p !! "ER_ID" = Some er_id
                        /\ existing_tracks !! KStr (py_str er_id) = None)
         lists.1
  /\ Forall (fun p => exists er_id objectid,
                        pl_attributes p !! "ER_ID" = Some er_id
                        /\ existing_tracks !! KStr (py_str er_id) = Some objectid
                        /\ pl_attributes p !! "OBJECTID" = Some objectid)
            lists.2.

(** A layer and a tracking service for the track examples: the layer holds
    the track of subject [s1] under [OBJECTID] 5; the service knows [s1] and
    [s2], each with one track of two positions and one without geometry; the
    clock reads midnight, 3 January 2021 (UTC). *)
Definition example_track_row : row :=
  <["ER_ID" := PStr "s1"]> (<["OBJECTID" := PInt 5]> ∅).

Definition example_tracks_query (where_ : string) (w : unit)
    : res (list row) * unit :=
  (Ok [example_track_row], w).

Definition example_track_fields (w : unit) : list string :=
  ["OBJECTID"; "ER_ID"; "SUBJECT_NAME"].

Definition example_add_to_definition (fields : list field_spec) (w : unit)
    : res bool * unit :=
  (Ok true, w).

Definition example_track_subjects (w : unit) : res (list subject) * unit :=
  (Ok [example_subject;
       Subject (PStr "s2") (PStr "Zuri") (PBool true)
         (Some "2021-01-01T00:00:00+00:00")], w).

Definition example_das_tracks (subject_id : pyval) (start : Z) (w : unit)
    : res (list er_track) * unit :=
  (Ok [ErTrack (Some [[PInt 36; PInt (-1)]; [PInt 37; PInt (-2)]]);
       ErTrack None], w).

Definition example_clock (w : unit) : Z * unit := (1609632000000%Z, w).

(** The string that the loop over [details] leaves under the attribute
    [name]: the one of the last field whose composite name is [name], if
    the schema defines such a field. *)
Fixpoint last_written (field_defs : gmap string field_def)
    (details : list (string * field_value)) (name : string) : option pyval :=
  match details with
  | [] => None
  | (field, raw) :: rest =>
      match last_written field_defs rest name with
      | Some v => Some v
      | None =>
          match field_defs !! field with
          | Some fdef =>
              if decide (composite_field_name field fdef = name)
              then Some (PStr (str_join ","
                                 (map py_str (translated_elements fdef raw))))
              else None
          | None => None
          end
      end
  end.

(** No field of [details] that the schema defines has the composite name
    [name]. *)
Definition no_field_named (field_defs : gmap string field_def)
    (name : string) (details : list (string * field_value)) : Prop :=
  Forall (fun entry =>
            forall fdef, field_defs !! entry.1 = Some fdef ->
                         composite_field_name entry.1 fdef <> name)
         details.

(** Two fields whose names differ by a hyphen and an underscore. *)
Definition hyphen_defs : gmap string field_def :=
  <["a-b" := string_def]> (<["a_b" := string_def]> ∅).

Definition hyphen_details : list (string * field_value) :=
  [("a-b", FList [PStr "x"; PStr "y"]); ("a_b", FScalar (PStr "z"))].

(** The field definitions of the example's schema. *)
Definition example_fields : gmap string field_def :=
  <["species" := alpha_beta_def]> (<["count" := number_def]> ∅).

(** ** [upsert_events_from_er], with its attachment phase *)

Section EventsFullPass.

Variable world : Type.
Variable layer_properties_fields : world -> list string.
Variable layer_query : string -> world -> res (list row) * world.
Variable layer_add_to_definition :
  list field_spec -> world -> res bool * world.
Variable layer_edit_features :
  edit_call -> world -> res edit_response * world.
Variable das_get_events : bool -> Z -> world -> res (list er_event) * world.
Variable strftime : Z -> string.
Variable parse_timestamp_ms : string -> option Z.
Variable parse_timestamp : string -> option float.
Variable resolve_field_definitions :
  string -> res (pyval * gmap string field_def).
Variable now : Z.
Variable att_get_list : pyval -> world -> res (list attachment) * world.
Variable att_delete : pyval -> pyval -> world -> res unit * world.
Variable att_add : pyval -> string -> world -> res unit * world.
Variable das_get_file : pyval -> world -> res string * world.
Variable fs_write : string -> string -> world -> res unit * world.
Variable tmpdir_name : string.

(** A call of the services made before the attachment phase: it leaves the
    record of the attachment calls as it is. *)
Definition before_attachments {X R : Type} (f : X -> world -> R * world)
    (x : X) (aw : att_world world) : R * att_world world :=
  let '(reply, w') := f x aw.1 in (reply, (w', aw.2)).

(** *** [upsert_events_from_er] (lines 445 to 602) *)
Definition upsert_events_from_er (oldest_date : option Z)
    (include_attachments include_incidents : bool)
    : M (att_world world) unit :=
  m_bind (att_world world)
    (upsert_events_features (att_world world)
       (fun aw => layer_properties_fields aw.1)
       (att_layer_query world layer_query)
       (before_attachments layer_add_to_definition)
       (before_attachments layer_edit_features)
       (fun include_related_events =>
          before_attachments (das_get_events include_related_events))
       strftime parse_timestamp_ms parse_timestamp resolve_field_definitions
       now oldest_date include_incidents)
    (fun st =>
       let oldest_date := default (now - 30 * 24 * 60 * 60 * 1000)%Z oldest_date in
       if include_attachments then
         match er_event_files st with
         | [] => m_ret (att_world world) tt
         | event_files =>
             _replace_attachments world layer_query strftime att_get_list
               att_delete att_add das_get_file fs_write tmpdir_name
               (Some oldest_date) event_files
         end
       else m_ret (att_world world) tt).

End EventsFullPass.

(** A pass over event 42, which has one file, on a layer that holds it as
    feature 7 with two attachments. *)
Definition example_event_with_file : er_event :=
  ErEvent (PInt 42) "2021-01-02T00:00:00+00:00" "2021-01-01T00:00:00+00:00"
    (PBool false) None None "wildlife_sighting_rep" PNone [] (Some [])
    one_new_file.

Definition store_get_events (include_related_events : bool)
    (oldest_update_date : Z) (w : list attachment)
    : res (list er_event) * list attachment :=
  (Ok [example_event_with_file], w).

Definition store_add_to_definition (fields : list field_spec)
    (w : list attachment) : res bool * list attachment :=
  (Ok true, w).

Definition store_edit_features (call : edit_call) (w : list attachment)
    : res edit_response * list attachment :=
  (Ok match call with
      | EditAdds chunk => EditResponse (map (fun _ => EditResult true) chunk) []
      | EditUpdates chunk => EditResponse [] (map (fun _ => EditResult true) chunk)
      end, w).

(** Whatever the state before it, the computation [c] leaves the record of
    the attachment calls as it is. *)
Definition keeps_attachment_calls {world A : Type}
    (c : M (att_world world) A) : Prop :=
  forall s, (c s).2.1.2 = s.1.2.

(** * Properties *)

(** ** Helpers *)

Example chunk_7_by_2 :
  _chunk [1; 2; 3; 4; 5; 6; 7] 2 = Ok [[1; 2]; [3; 4]; [5; 6]; [7]].
Proof. reflexivity. Qed.

Example clean_name_ex : _clean_field_name "a-b-c_number" = "a_b_c_number".
Proof. reflexivity. Qed.

Example py_str_ex : py_str (PInt (-42)) = "-42" /\ py_str (PInt 0) = "0".
Proof. split; reflexivity. Qed.

(** The index loop over a list object is a [map]. *)
Lemma update_each_from (f : pyval -> pyval) (suf pre : list pyval) :
  foldl (fun acc i =>
           match acc !! i with
           | Some x => <[i := f x]> acc
           | None => acc
           end)
        (map f pre ++ suf) (seq (length pre) (length suf))
  = map f pre ++ map f suf.
Proof.
  revert pre. induction suf as [|x suf IH]; intros pre; simpl.
  - reflexivity.
  - rewrite list_lookup_middle by (now rewrite length_map).
    replace (length pre) with (length (map f pre) + 0)%nat at 1
      by (rewrite length_map; lia).
    rewrite insert_app_r. simpl.
    specialize (IH (pre ++ [x])).
    rewrite map_app, length_app in IH. simpl in IH.
    rewrite <- !app_assoc in IH. simpl in IH.
    replace (S (length pre)) with (length pre + 1)%nat by lia.
    exact IH.
Qed.

Lemma update_each_map (f : pyval -> pyval) (l : list pyval) :
  update_each f l = map f l.
Proof. exact (update_each_from f l []). Qed.

Lemma str_replace_char_app a b s1 s2 :
  str_replace_char a b (s1 +:+ s2)
  = str_replace_char a b s1 +:+ str_replace_char a b s2.
Proof. induction s1 as [|c s1 IH]; simpl; [reflexivity | now rewrite IH]. Qed.

(** ** [_chunk] *)

Lemma range_chunks_concat {A} (lst : list A) (n : nat) :
  (0 < n)%nat ->
  forall fuel i,
    (length lst - i <= fuel)%nat ->
    concat (map (fun i => slice lst i (i + n)) (range_from fuel i (length lst) n))
    = drop i lst.
Proof.
  intros Hn. induction fuel as [|fuel IH]; intros i Hfuel; simpl.
  - rewrite drop_ge by lia. reflexivity.
  - destruct (i <? length lst)%nat eqn:Hlt.
    + simpl. rewrite IH by lia.
      unfold slice. replace (i + n - i)%nat with n by lia.
      rewrite <- (drop_drop lst n i). apply take_drop.
    + apply Nat.ltb_ge in Hlt. rewrite drop_ge by lia. reflexivity.
Qed.

(** C9: for every list and every chunk size [n >= 1], [_chunk] yields chunks
    whose concatenation, in order, is the original list. *)
Theorem chunk_concat {A} (lst : list A) (chunk_size : Z) :
  (1 <= chunk_size)%Z ->
  exists chunks, _chunk lst chunk_size = Ok chunks /\ concat chunks = lst.
Proof.
  intros Hn. unfold _chunk.
  destruct (chunk_size =? 0)%Z eqn:H0; [lia|].
  destruct (chunk_size <? 0)%Z eqn:Hneg; [lia|].
  eexists. split; [reflexivity|].
  now rewrite range_chunks_concat by lia.
Qed.

Lemma chunk_concat_witness :
  (1 <= 3)%Z /\
  exists chunks, _chunk [10; 20; 30; 40; 50]%nat 3 = Ok chunks
                 /\ concat chunks = [10; 20; 30; 40; 50]%nat.
Proof. split; [lia | apply (chunk_concat [10; 20; 30; 40; 50]%nat 3); lia]. Defined.

(** ** Field translation *)

Lemma translated_elements_spec (fdef : field_def) (raw : field_value) :
  translated_elements fdef raw
  = map (fun x => PStr (py_str (substituted fdef x))) (raw_elements raw).
Proof.
  unfold translated_elements, substituted, raw_elements, _clean_field_value, dict_get.
  destruct (fd_value_map fdef) as [vm|].
  - rewrite !update_each_map, map_map. reflexivity.
  - rewrite update_each_map. reflexivity.
Qed.

Lemma translate_details_lookup (layer_fields : list string)
    (field_defs : gmap string field_def)
    (details : list (string * field_value)) :
  forall attrs pending name,
    (translate_details layer_fields field_defs details attrs pending).1.1 !! name
    = match last_written field_defs details name with
      | Some v => Some v
      | None => attrs !! name
      end.
Proof.
  induction details as [|[field raw] rest IH]; intros attrs pending name; simpl;
    [reflexivity|].
  destruct (field_defs !! field) as [fdef|].
  - match goal with
    | |- context [translate_details _ _ rest ?a ?p] =>
        specialize (IH a p name);
        destruct (translate_details layer_fields field_defs rest a p)
          as [[attrs' fta'] rest']
    end.
    simpl in *. rewrite IH.
    destruct (last_written field_defs rest name); [reflexivity|].
    case_decide as Hname.
    + subst name. apply lookup_insert_eq.
    + now apply lookup_insert_ne.
  - specialize (IH attrs pending name).
    destruct (translate_details layer_fields field_defs rest attrs pending)
      as [[attrs' fta'] rest'].
    simpl in *. rewrite IH.
    now destruct (last_written field_defs rest name).
Qed.

Lemma last_written_app (field_defs : gmap string field_def)
    (pre post : list (string * field_value)) (name : string) :
  last_written field_defs (pre ++ post) name
  = match last_written field_defs post name with
    | Some v => Some v
    | None => last_written field_defs pre name
    end.
Proof.
  induction pre as [|[field raw] pre IH]; simpl.
  - now destruct (last_written field_defs post name).
  - rewrite IH. now destruct (last_written field_defs post name).
Qed.

Lemma last_written_none (field_defs : gmap string field_def)
    (details : list (string * field_value)) (name : string) :
  no_field_named field_defs name details ->
  last_written field_defs details name = None.
Proof.
  induction 1 as [|[field raw] rest Hentry Hrest IH]; simpl; [reflexivity|].
  rewrite IH. simpl in Hentry.
  destruct (field_defs !! field) as [fdef|]; [|reflexivity].
  case_decide as Hname; [|reflexivity].
  now destruct (Hentry fdef eq_refl).
Qed.

(** C5 (amended): whatever the record and wherever the field stands in it,
    a field that the schema defines is translated element by element
    (value-map substitution where the map knows the element, then [str]) and
    joined with a comma into one string, and the attribute map holds that
    string under the field's composite name, provided no later field of the
    record has the same composite name; a scalar is treated as the
    one-element list holding it; [["a","b"]] under
    [{"a": "Alpha", "b": "Beta"}] gives ["Alpha,Beta"]. *)
Theorem list_field_translation (layer_fields : list string)
    (field_defs : gmap string field_def)
    (pre post : list (string * field_value))
    (field : string) (fdef : field_def)
    (raw : field_value) (attrs : gmap string pyval)
    (fields_to_add : list pending_field) :
  field_defs !! field = Some fdef ->
  no_field_named field_defs (composite_field_name field fdef) post ->
  (translate_details layer_fields field_defs (pre ++ (field, raw) :: post)
     attrs fields_to_add).1.1
    !! composite_field_name field fdef
  = Some (PStr (str_join ","
                 (map (fun x => py_str (substituted fdef x)) (raw_elements raw))))
  /\ (forall x,
        (translate_details layer_fields field_defs
           (pre ++ (field, FScalar x) :: post) attrs fields_to_add).1.1
        = (translate_details layer_fields field_defs
             (pre ++ (field, FList [x]) :: post) attrs fields_to_add).1.1)
  /\ str_join ","
       (map (fun x => py_str (substituted alpha_beta_def x))
            (raw_elements (FList [PStr "a"; PStr "b"])))
     = "Alpha,Beta".
Proof.
  intros Hdef Hpost. split; [|split; [|reflexivity]].
  - rewrite translate_details_lookup, last_written_app. simpl.
    rewrite (last_written_none _ _ _ Hpost), Hdef.
    rewrite decide_True by reflexivity.
    now rewrite translated_elements_spec, map_map.
  - intros x. apply map_eq. intros name.
    rewrite !translate_details_lookup, !last_written_app. simpl.
    rewrite Hdef. rewrite !translated_elements_spec. reflexivity.
Qed.

Lemma list_field_translation_witness :
  (translate_details [] example_fields
     ([("unknown", FScalar PNone)]
        ++ ("species", FList [PStr "a"; PStr "b"])
        :: [("count", FScalar (PInt 3))])
     ∅ []).1.1 !! "species_string"
  = Some (PStr "Alpha,Beta").
Proof.
  refine (proj1 (list_field_translation [] example_fields
                   [("unknown", FScalar PNone)] [("count", FScalar (PInt 3))]
                   "species" alpha_beta_def (FList [PStr "a"; PStr "b"]) ∅ []
                   _ _)).
  - reflexivity.
  - repeat constructor; simpl; intros fdef Hdef; vm_compute in Hdef;
      injection Hdef as <-; vm_compute; discriminate.
Defined.

(** C5 as stated fails when a later field of the record has the same
    composite name: the fields [a-b] and [a_b], both strings, share the
    attribute [a_b_string], and the record's attribute map holds the scalar
    ["z"] there, not the list's ["x,y"], which is in no attribute. *)
Lemma colliding_list_field_overwritten :
  hyphen_defs !! "a-b" = Some string_def
  /\ composite_field_name "a-b" string_def = "a_b_string"
  /\ str_join ","
       (map (fun x => py_str (substituted string_def x))
            (raw_elements (FList [PStr "x"; PStr "y"])))
     = "x,y"
  /\ (translate_details [] hyphen_defs hyphen_details ∅ []).1.1
     = <["a_b_string" := PStr "z"]> ∅.
Proof. repeat split; vm_compute; reflexivity. Qed.

Lemma str_append_inj_l (p a b : string) : p +:+ a = p +:+ b -> a = b.
Proof. induction p as [|c p IH]; simpl; intros H; [exact H | injection H as H; auto]. Qed.

Lemma clean_hyphen_free (s : string) :
  hyphen_free s = true -> _clean_field_name s = s.
Proof.
  unfold _clean_field_name. induction s as [|c s IH]; simpl; intros H.
  - reflexivity.
  - apply andb_prop in H as [Hc Hs]. rewrite IH by exact Hs.
    destruct (Ascii.eqb c "-") eqn:E; [discriminate | reflexivity].
Qed.

Lemma composite_field_name_split (field : string) (fdef : field_def) :
  composite_field_name field fdef
  = _clean_field_name field +:+ "_" +:+ _clean_field_name (field_type fdef).
Proof.
  unfold composite_field_name, _clean_field_name.
  rewrite !str_replace_char_app. reflexivity.
Qed.

(** C8 (amended): the composite name is the sanitized raw name, an
    underscore and the sanitized declared type, so two fields with one base
    name get distinct composite names whenever their declared types still
    differ once sanitized, as all hyphen-free types do; attributes stored
    under distinct names do not overwrite each other; the target type is the
    double type for [number] and the string type otherwise. *)
Theorem composite_field_name_distinct (field : string) (d1 d2 : field_def)
    (attrs : gmap string pyval) (v1 v2 : pyval) :
  _clean_field_name (field_type d1) <> _clean_field_name (field_type d2) ->
  composite_field_name field d1
    = _clean_field_name field +:+ "_" +:+ _clean_field_name (field_type d1)
  /\ composite_field_name field d1 <> composite_field_name field d2
  /\ (hyphen_free (field_type d1) = true ->
      _clean_field_name (field_type d1) = field_type d1)
  /\ (<[composite_field_name field d2 := v2]>
        (<[composite_field_name field d1 := v1]> attrs))
       !! composite_field_name field d1 = Some v1
  /\ esri_field_type d1
     = (if String.eqb (field_type d1) "number" then "esriFieldTypeDouble"
        else "esriFieldTypeString").
Proof.
  intros Hne.
  assert (Hdiff : composite_field_name field d1 <> composite_field_name field d2).
  { rewrite !composite_field_name_split. intros Heq.
    apply str_append_inj_l in Heq. apply (str_append_inj_l "_") in Heq.
    contradiction. }
  split; [apply composite_field_name_split|].
  split; [exact Hdiff|].
  split; [apply clean_hyphen_free|].
  split.
  - rewrite lookup_insert_ne by congruence. apply lookup_insert_eq.
  - unfold esri_field_type, ER_TO_ESRI_FIELD_TYPE.
    destruct (String.eqb (field_type d1) "number") eqn:En.
    + apply String.eqb_eq in En. rewrite En. reflexivity.
    + apply String.eqb_neq in En.
      rewrite lookup_insert. case_decide as Hs; [reflexivity|].
      rewrite lookup_insert_ne by congruence.
      rewrite lookup_insert. case_decide as Hd; reflexivity.
Qed.

Lemma composite_field_name_distinct_witness :
  composite_field_name "count" number_def = "count_number"
  /\ composite_field_name "count" number_def
     <> composite_field_name "count" string_def.
Proof.
  pose proof (composite_field_name_distinct "count" number_def string_def ∅
                (PStr "3") (PStr "three")) as H.
  assert (Hne : _clean_field_name (field_type number_def)
                <> _clean_field_name (field_type string_def)) by discriminate.
  destruct (H Hne) as (Hname & Hdiff & _).
  split; [exact Hname | exact Hdiff].
Defined.

(** C8 as stated fails: two fields with one base name and the different
    declared types [multi-select] and [multi_select] get the same composite
    name, which is not the sanitized raw name followed by the declared
    type. *)
Lemma composite_field_name_collision :
  field_type hyphen_type_def <> field_type underscore_type_def
  /\ composite_field_name "kind" hyphen_type_def
     = composite_field_name "kind" underscore_type_def
  /\ composite_field_name "kind" hyphen_type_def
     <> _clean_field_name "kind" +:+ "_" +:+ field_type hyphen_type_def.
Proof. split; [discriminate | split; [reflexivity | discriminate]]. Qed.

(** ** The existing-feature index *)

(** C6: when the query for existing events raises an error whose text says
    that the lookup field [ER_REPORT_NUMBER] is invalid, the index builder
    returns the empty index; any other error of the query is raised to the
    caller unchanged. *)
Theorem existing_events_query_error (world : Type)
    (layer_query : string -> world -> res (list row) * world)
    (strftime : Z -> string) (oldest_date : option Z)
    (w w' : world) (log : list log_entry) (e : exn) :
  layer_query (events_where strftime oldest_date) w = (Raise e, w') ->
  _get_existing_esri_events world layer_query strftime oldest_date (w, log)
  = (if str_contains invalid_field_message (exn_str e) then Ok ∅ else Raise e,
     (w', log ++ [LogQuery (events_where strftime oldest_date) (Raise e)])).
Proof.
  intros Hq. unfold _get_existing_esri_events, query. rewrite Hq.
  destruct (str_contains invalid_field_message (exn_str e)); reflexivity.
Qed.

Lemma existing_events_query_error_witness :
  _get_existing_esri_events unit
    (fun _ w => (Raise (Exn "Exception"
       "Cannot perform query. 'Invalid field: ER_REPORT_NUMBER' parameter is invalid"), w))
    (fun _ => "2021-01-01 00:00:00") None (tt, [])
  = (Ok ∅,
     (tt, [LogQuery "ER_REPORT_NUMBER<>''"
             (Raise (Exn "Exception"
       "Cannot perform query. 'Invalid field: ER_REPORT_NUMBER' parameter is invalid"))]))
  /\
  _get_existing_esri_events unit
    (fun _ w => (Raise (Exn "Exception" "Token Required"), w))
    (fun _ => "2021-01-01 00:00:00") None (tt, [])
  = (Raise (Exn "Exception" "Token Required"),
     (tt, [LogQuery "ER_REPORT_NUMBER<>''"
             (Raise (Exn "Exception" "Token Required"))])).
Proof.
  split.
  - exact (existing_events_query_error unit
             (fun _ w => (Raise (Exn "Exception"
       "Cannot perform query. 'Invalid field: ER_REPORT_NUMBER' parameter is invalid"), w))
             (fun _ => "2021-01-01 00:00:00") None tt tt []
             (Exn "Exception"
       "Cannot perform query. 'Invalid field: ER_REPORT_NUMBER' parameter is invalid")
             eq_refl).
  - exact (existing_events_query_error unit
             (fun _ w => (Raise (Exn "Exception" "Token Required"), w))
             (fun _ => "2021-01-01 00:00:00") None tt tt []
             (Exn "Exception" "Token Required") eq_refl).
Defined.

(** ** Pending fields *)

Lemma existsb_eqb_false (field : string) (l : list string) :
  existsb (fun x => String.eqb x field) l = false -> field ∉ l.
Proof.
  induction l as [|x l IH]; simpl; intros H.
  - apply not_elem_of_nil.
  - apply orb_false_elim in H as [Hx Hl].
    apply String.eqb_neq in Hx.
    rewrite elem_of_cons. intros [->|Hin]; [congruence | now apply IH].
Qed.

Lemma field_already_exists_false (field : string) (layer_fields : list string)
    (pending : list pending_field) :
  _field_already_exists field layer_fields pending = false ->
  (field ∉ layer_fields) /\ (field ∉ map pending_name pending).
Proof.
  unfold _field_already_exists. intros H.
  apply orb_false_elim in H as [Hl Hp]. split.
  - now apply existsb_eqb_false.
  - apply existsb_eqb_false.
    clear -Hp. induction pending as [|p pending IH]; simpl in *; [reflexivity|].
    apply orb_false_elim in Hp as [H1 H2]. now rewrite H1, IH.
Qed.

Lemma pending_ok_snoc (layer_fields : list string)
    (pending : list pending_field) (new_field : pending_field) :
  pending_ok layer_fields pending ->
  _field_already_exists (pending_name new_field) layer_fields pending = false ->
  pending_ok layer_fields (pending ++ [new_field]).
Proof.
  intros [Hnd Hlayer] Hex.
  apply field_already_exists_false in Hex as [Hnl Hnp].
  unfold pending_ok. rewrite map_app. simpl. split.
  - apply NoDup_app. split; [exact Hnd|]. split.
    + intros x Hx Hx'. apply list_elem_of_singleton in Hx'. subst x. contradiction.
    + apply NoDup_singleton.
  - intros name Hin. apply elem_of_app in Hin as [Hin|Hin].
    + now apply Hlayer.
    + apply list_elem_of_singleton in Hin. now subst name.
Qed.

(** The field loop keeps the pending list well formed. *)
Lemma translate_details_pending_ok (layer_fields : list string)
    (field_defs : gmap string field_def)
    (details : list (string * field_value)) :
  forall (attrs : gmap string pyval) (pending : list pending_field),
    pending_ok layer_fields pending ->
    pending_ok layer_fields
      (translate_details layer_fields field_defs details attrs pending).1.2.
Proof.
  induction details as [|[field raw] rest IH]; intros attrs pending Hok; simpl.
  - exact Hok.
  - destruct (field_defs !! field) as [fdef|].
    + match goal with
      | |- context [translate_details _ _ rest ?a ?p] =>
          specialize (IH a p);
          destruct (translate_details layer_fields field_defs rest a p)
            as [[attrs' fta'] rest']
      end.
      simpl in *. apply IH.
      destruct (_field_already_exists (composite_field_name field fdef)
                  layer_fields pending) eqn:Hex; [exact Hok|].
      now apply pending_ok_snoc.
    + specialize (IH attrs pending Hok).
      destruct (translate_details layer_fields field_defs rest attrs pending)
        as [[attrs' fta'] rest'].
      exact IH.
Qed.

(** ** Comparing an [int] with a [float] *)

Lemma int_gt_float_spec (n : Z) (f : float) (q : Q) :
  float_value f = Some q ->
  int_gt_float n f = true <-> (q < inject_Z n)%Q.
Proof.
  unfold float_value, int_gt_float.
  destruct (Prim2SF f) as [negative|negative| |negative m e]; intros H;
    try discriminate; injection H as <-.
  - unfold Qlt. simpl. rewrite Z.ltb_lt. lia.
  - rewrite Qred_correct. destruct (0 <=? e)%Z eqn:He.
    + unfold Qlt. simpl. rewrite Z.ltb_lt. lia.
    + apply Z.leb_gt in He. unfold Qlt. simpl.
      rewrite Z2Pos.id by (apply Z.pow_pos_nonneg; lia).
      rewrite Z.ltb_lt. lia.
Qed.

(** ** The reconciliation loop *)

Section EventLoopFacts.

Variable parse_timestamp_ms : string -> option Z.
Variable parse_timestamp : string -> option float.
Variable _get_er_field_definitions :
  string -> res (pyval * gmap string field_def).
Variable include_incidents : bool.
Variable layer_fields : list string.
Variable existing_events : gmap string (pyval * pyval).

Local Abbreviation stale := (is_stale_skip parse_timestamp existing_events).
Local Abbreviation step :=
  (process_event parse_timestamp_ms parse_timestamp _get_er_field_definitions
     include_incidents layer_fields existing_events).
Local Abbreviation run :=
  (process_events parse_timestamp_ms parse_timestamp _get_er_field_definitions
     include_incidents layer_fields existing_events).

Lemma is_stale_skip_unknown (event : er_event) :
  existing_events !! py_str (ev_serial_number event) = None ->
  stale event = Ok false.
Proof. intros H. unfold is_stale_skip. now rewrite H. Qed.

Lemma is_stale_skip_known (event : er_event) (esri_event : pyval * pyval)
    (t_esri : Z) (timestamp : float) :
  existing_events !! py_str (ev_serial_number event) = Some esri_event ->
  py_num esri_event.2 = Some t_esri ->
  parse_timestamp (ev_updated_at event) = Some timestamp ->
  stale event = Ok (int_gt_float t_esri (stale_threshold timestamp)).
Proof.
  intros Hk Hn Hp. unfold is_stale_skip.
  rewrite Hk, Hp. simpl. rewrite Hn. reflexivity.
Qed.

(** What an iteration that skips nothing and raises nothing appends. *)
Lemma process_event_not_skipped (st : sync_state) (event : er_event)
    (report_time : Z) :
  stale event = Ok false ->
  passes_collection_gate include_incidents event ->
  parse_timestamp_ms (ev_time event) = Some report_time ->
  schema_resolves _get_er_field_definitions st event ->
  (include_incidents = true -> is_Some (ev_is_contained_in event)) ->
  exists attrs geom fta ftypes tnames efiles,
    step st event
    = Ok (SyncState
            (match existing_events !! py_str (ev_serial_number event) with
             | Some _ => features_to_add st
             | None => features_to_add st ++ [Feature attrs geom]
             end)
            (match existing_events !! py_str (ev_serial_number event) with
             | Some esri_event =>
                 features_to_update st
                   ++ [Feature (<["OBJECTID" := esri_event.1]> attrs) geom]
             | None => features_to_update st
             end)
            fta ftypes tnames efiles (S (event_count st))).
Proof.
  intros Hstale Hgate Htime Hschema Hparents.
  unfold process_event. rewrite Hstale. simpl.
  unfold passes_collection_gate in Hgate. rewrite Hgate.
  unfold timestamp_ms. rewrite Htime. simpl.
  destruct (ev_location event) as [loc|];
    destruct (ev_reported_by event) as [reporter|].
  all: unfold schema_resolves in Hschema.
  all: destruct (er_field_types st !! ev_event_type event) as [defs|] eqn:Hft.
  all: try (destruct Hschema as [n Hn]; simpl; rewrite Hn, Hft; simpl).
  all: try (destruct Hschema as [[n defs] Hr]; rewrite Hr; simpl;
            rewrite !lookup_insert_eq; simpl).
  all: match goal with
       | |- context [translate_details ?a ?b ?c ?d ?e] =>
           destruct (translate_details a b c d e) as [[attrs fta] details']
       end.
  all: destruct include_incidents;
    [ destruct (Hparents eq_refl) as [parents Hp]; rewrite Hp | ]; simpl.
  all: destruct (existing_events !! py_str (ev_serial_number event));
    do 6 eexists; reflexivity.
Qed.

(** C1 (amended): a record whose key is in the index is skipped, leaving
    both feature lists and the pending fields as they were, whenever the
    existing feature's last edit is strictly greater than the threshold the
    code computes, the float [timestamp() * 1000] plus the padding of
    24 * 60 minutes in milliseconds; when the last edit equals that float,
    or is below it, the staleness test does not skip the record. *)
Theorem stale_event_skipped (st : sync_state) (event : er_event)
    (esri_event : pyval * pyval) (t_esri : Z) (timestamp : float)
    (threshold : Q) :
  existing_events !! py_str (ev_serial_number event) = Some esri_event ->
  py_num esri_event.2 = Some t_esri ->
  parse_timestamp (ev_updated_at event) = Some timestamp ->
  float_value (timestamp * float_of_Z 1000
               + float_of_Z (UPDATE_TIME_PADDING * 60 * 1000))%float
  = Some threshold ->
  ((threshold < inject_Z t_esri)%Q ->
     step st event
     = Ok (SyncState (features_to_add st) (features_to_update st)
             (fields_to_add st) (er_field_types st) (er_event_type_names st)
             (er_event_files st) (S (event_count st))))
  /\ ((inject_Z t_esri <= threshold)%Q ->
      stale event = Ok false).
Proof.
  intros Hk Hn Hp Hvalue.
  pose proof (is_stale_skip_known event esri_event t_esri timestamp Hk Hn Hp)
    as Hs.
  pose proof (int_gt_float_spec t_esri (stale_threshold timestamp) threshold
                Hvalue) as Hcmp.
  split; intros Horder.
  - apply Hcmp in Horder. unfold process_event. rewrite Hs, Horder.
    reflexivity.
  - rewrite Hs. f_equal.
    destruct (int_gt_float t_esri (stale_threshold timestamp)); [|reflexivity].
    exfalso. apply (Qlt_not_le threshold (inject_Z t_esri)); [|exact Horder].
    now apply Hcmp.
Qed.

(** C3 (amended): an event that passes the collection gate, is not skipped
    as stale when its key is known, and whose processing does not raise
    (its time parses, its type's schema resolves, and its containment links
    are present when incidents are included) is appended to the add list
    alone when its key is absent from the index, and to the update list
    alone, with [OBJECTID] set to the indexed feature id, when it is
    present. *)
Theorem insert_or_update (st : sync_state) (event : er_event)
    (report_time : Z) :
  passes_collection_gate include_incidents event ->
  (is_Some (existing_events !! py_str (ev_serial_number event)) ->
   stale event = Ok false) ->
  parse_timestamp_ms (ev_time event) = Some report_time ->
  schema_resolves _get_er_field_definitions st event ->
  (include_incidents = true -> is_Some (ev_is_contained_in event)) ->
  exists st' f,
    step st event = Ok st'
    /\ match existing_events !! py_str (ev_serial_number event) with
       | None =>
           features_to_add st' = features_to_add st ++ [f]
           /\ features_to_update st' = features_to_update st
       | Some esri_event =>
           features_to_update st' = features_to_update st ++ [f]
           /\ features_to_add st' = features_to_add st
           /\ attributes f !! "OBJECTID" = Some esri_event.1
       end.
Proof.
  intros Hgate Hknown Htime Hschema Hparents.
  assert (Hstale : stale event = Ok false).
  { destruct (existing_events !! py_str (ev_serial_number event)) eqn:Hk.
    - apply Hknown. eauto.
    - now apply is_stale_skip_unknown. }
  destruct (process_event_not_skipped st event report_time
              Hstale Hgate Htime Hschema Hparents)
    as (attrs & geom & fta & ftypes & tnames & efiles & Hstep).
  rewrite Hstep.
  destruct (existing_events !! py_str (ev_serial_number event)) as [esri_event|].
  - eexists _, _. split; [reflexivity|]. simpl.
    split; [reflexivity|]. split; [reflexivity|]. apply lookup_insert_eq.
  - eexists _, _. split; [reflexivity|]. simpl.
    split; reflexivity.
Qed.

Lemma process_event_pending_ok (st st' : sync_state) (event : er_event) :
  pending_ok layer_fields (fields_to_add st) ->
  step st event = Ok st' ->
  pending_ok layer_fields (fields_to_add st').
Proof.
  intros Hok Hstep. unfold process_event, res_bind in Hstep.
  repeat (case_match; simplify_eq/=); try assumption.
  all: match goal with
       | H : translate_details ?l ?d ?ds ?a ?p = (_, ?f, _) |- pending_ok _ ?f =>
           pose proof (translate_details_pending_ok l d ds a p Hok) as Hp;
           rewrite H in Hp; exact Hp
       end.
Qed.

Lemma process_events_pending_ok (er_events : list er_event) :
  forall st st',
    pending_ok layer_fields (fields_to_add st) ->
    run st er_events = Ok st' ->
    pending_ok layer_fields (fields_to_add st').
Proof.
  induction er_events as [|event rest IH]; intros st st' Hok Hrun; simpl in Hrun.
  - now simplify_eq.
  - destruct (step st event) as [st1|e] eqn:Hstep; simpl in Hrun; [|discriminate].
    eapply IH; [|exact Hrun].
    eapply process_event_pending_ok; eauto.
Qed.

(** C7: whatever events one pass has processed, the pending field list
    holds no name twice and no name that the layer already declares. *)
Theorem pending_fields_queued_once (er_events : list er_event)
    (st : sync_state) :
  run initial_state er_events = Ok st ->
  NoDup (map pending_name (fields_to_add st))
  /\ forall name,
       name ∈ map pending_name (fields_to_add st) -> name ∉ layer_fields.
Proof.
  intros Hrun.
  apply (process_events_pending_ok er_events initial_state st); [|exact Hrun].
  split; [apply NoDup_nil_2 | intros name Hin; inversion Hin].
Qed.

End EventLoopFacts.

(** *** The example pass *)

Lemma stale_event_skipped_witness :
  process_event example_parse example_timestamp example_schema true []
    newer_index initial_state (example_event 42 false)
  = Ok (SyncState [] [] [] ∅ ∅ [] 1).
Proof.
  refine (proj1 (stale_event_skipped example_parse example_timestamp
                   example_schema true [] newer_index initial_state
                   (example_event 42 false) (PInt 7, PInt 1609545601000)
                   1609545601000 1609459200%float (inject_Z 1609545600000)
                   _ _ _ _) _); reflexivity.
Defined.

(** C1 as stated fails at the tie: event 42 is known, its feature was last
    edited exactly one padding after the event's update, and the event is not
    skipped but sent as an update of feature 7. *)
Lemma tie_is_updated :
  tie_index !! py_str (ev_serial_number (example_event 42 false))
    = Some (PInt 7, PInt 1609545600000)
  /\ example_parse (ev_updated_at (example_event 42 false)) = Some 1609459200000%Z
  /\ example_timestamp (ev_updated_at (example_event 42 false))
     = Some 1609459200%float
  /\ (1609545600000 = 1609459200000 + UPDATE_TIME_PADDING * 60 * 1000)%Z
  /\ exists st',
       process_event example_parse example_timestamp example_schema true []
         tie_index initial_state (example_event 42 false) = Ok st'
       /\ map (fun f => attributes f !! "OBJECTID") (features_to_update st')
          = [Some (PInt 7)]
       /\ features_to_add st' = [].
Proof.
  split; [reflexivity|]. split; [reflexivity|]. split; [reflexivity|].
  split; [reflexivity|].
  eexists. split; [vm_compute; reflexivity|]. split; reflexivity.
Qed.

(** The threshold is a float: for an update time of 13:12:28.12 the product
    [timestamp() * 1000] is rounded to just below 1095513148120, so a feature
    last edited exactly one padding after the update time is above the
    threshold, and the event is skipped. *)
Example rounded_tie_is_skipped :
  fractional_tie_index !! py_str (ev_serial_number fractional_event)
    = Some (PInt 7, PInt 1095599548120)
  /\ (1095599548120 = 1095513148120 + UPDATE_TIME_PADDING * 60 * 1000)%Z
  /\ (exists threshold,
        float_value (stale_threshold 0x1.0530d0f07ae14p+30) = Some threshold
        /\ (threshold < inject_Z 1095599548120)%Q
        /\ (inject_Z 1095599548119 < threshold)%Q)
  /\ process_event example_parse example_timestamp example_schema true []
       fractional_tie_index initial_state fractional_event
     = Ok (SyncState [] [] [] ∅ ∅ [] 1).
Proof.
  split; [reflexivity|]. split; [reflexivity|].
  split; [|vm_compute; reflexivity].
  eexists. split; [reflexivity|]. split; reflexivity.
Qed.

Lemma insert_or_update_witness :
  exists st' f,
    process_event example_parse example_timestamp example_schema true [] tie_index
      initial_state (example_event 43 false) = Ok st'
    /\ features_to_add st' = [] ++ [f]
    /\ features_to_update st' = [].
Proof.
  apply (insert_or_update example_parse example_timestamp example_schema true [] tie_index
           initial_state (example_event 43 false) 1609459200000).
  - reflexivity.
  - intros [x Hx]. discriminate Hx.
  - reflexivity.
  - exists (PStr "Wildlife Sighting",
            <["species" := alpha_beta_def]> (<["count" := number_def]> ∅)).
    reflexivity.
  - intros _. exists []. reflexivity.
Defined.

(** C3 as stated fails: with incidents excluded, a collection whose key is
    absent from the index is dropped, not inserted. *)
Lemma collection_not_inserted :
  tie_index !! py_str (ev_serial_number (example_event 43 true)) = None
  /\ process_event example_parse example_timestamp example_schema false [] tie_index
       initial_state (example_event 43 true)
     = Ok (SyncState [] [] [] ∅ ∅ [] 1).
Proof. split; reflexivity. Qed.

Lemma pending_fields_queued_once_witness :
  exists st,
    process_events example_parse example_timestamp example_schema true ["species_string"] tie_index
      initial_state [example_event 43 false; example_event 44 false] = Ok st
    /\ map pending_name (fields_to_add st) = ["count_number"]
    /\ NoDup (map pending_name (fields_to_add st))
    /\ forall name,
         name ∈ map pending_name (fields_to_add st) ->
         name ∉ ["species_string"].
Proof.
  eexists. split; [vm_compute; reflexivity|]. split; [reflexivity|].
  apply (pending_fields_queued_once example_parse example_timestamp example_schema true
           ["species_string"] tie_index
           [example_event 43 false; example_event 44 false]).
  vm_compute. reflexivity.
Defined.

(** ** Translating a record twice *)


(** A record whose values are all scalars is left as it was. *)
Lemma translate_details_scalars (layer_fields : list string)
    (field_defs : gmap string field_def)
    (details : list (string * field_value)) :
  Forall (fun entry => exists x, entry.2 = FScalar x) details ->
  forall attrs pending,
    (translate_details layer_fields field_defs details attrs pending).2 = details.
Proof.
  induction 1 as [|[field raw] rest [x Hx] Hrest IH]; intros attrs pending; simpl.
  - reflexivity.
  - simpl in Hx. subst raw.
    destruct (field_defs !! field) as [fdef|].
    + match goal with
      | |- context [translate_details _ _ rest ?a ?p] =>
          specialize (IH a p);
          destruct (translate_details layer_fields field_defs rest a p)
            as [[attrs' fta'] rest']
      end.
      simpl in *. now rewrite IH.
    + specialize (IH attrs pending).
      destruct (translate_details layer_fields field_defs rest attrs pending)
        as [[attrs' fta'] rest'].
      simpl in *. now rewrite IH.
Qed.

Lemma translate_details_record (layer_fields : list string)
    (field_defs : gmap string field_def)
    (details : list (string * field_value)) :
  forall attrs pending,
    (translate_details layer_fields field_defs details attrs pending).2
    = map (fun entry =>
             (entry.1,
              match field_defs !! entry.1 with
              | Some fdef => value_after fdef entry.2
              | None => entry.2
              end)) details.
Proof.
  induction details as [|[field raw] rest IH]; intros attrs pending; simpl;
    [reflexivity|].
  destruct (field_defs !! field) as [fdef|].
  - match goal with
    | |- context [translate_details _ _ rest ?a ?p] =>
        specialize (IH a p);
        destruct (translate_details layer_fields field_defs rest a p)
          as [[attrs' fta'] rest']
    end.
    simpl in *. now rewrite IH.
  - specialize (IH attrs pending).
    destruct (translate_details layer_fields field_defs rest attrs pending)
      as [[attrs' fta'] rest'].
    simpl in *. now rewrite IH.
Qed.

Lemma value_after_stable (fdef : field_def) (raw : field_value) :
  (exists x, raw = FScalar x) \/ fd_value_map fdef = None ->
  translated_elements fdef (value_after fdef raw) = translated_elements fdef raw.
Proof.
  intros [[x ->]|Hmap]; [reflexivity|].
  destruct raw as [x|l]; [reflexivity|]. simpl.
  rewrite !translated_elements_spec. unfold substituted. rewrite Hmap. simpl.
  rewrite map_map. reflexivity.
Qed.

Lemma last_written_rewritten (field_defs : gmap string field_def)
    (details : list (string * field_value)) (name : string) :
  Forall (fun entry =>
            forall fdef, field_defs !! entry.1 = Some fdef ->
                         (exists x, entry.2 = FScalar x)
                         \/ fd_value_map fdef = None) details ->
  last_written field_defs
    (map (fun entry =>
            (entry.1,
             match field_defs !! entry.1 with
             | Some fdef => value_after fdef entry.2
             | None => entry.2
             end)) details) name
  = last_written field_defs details name.
Proof.
  induction 1 as [|[field raw] rest Hentry Hrest IH]; simpl; [reflexivity|].
  rewrite IH. destruct (last_written field_defs rest name); [reflexivity|].
  simpl in Hentry.
  destruct (field_defs !! field) as [fdef|] eqn:Hdef; [|reflexivity].
  case_decide; [|reflexivity].
  now rewrite (value_after_stable fdef raw (Hentry fdef eq_refl)).
Qed.

(** The record object itself is rewritten only in its list values.  When
    every field that the schema defines holds a scalar or has no value map,
    a second translation of the same object yields the same attribute map
    again. *)
Lemma same_object_translates_alike (layer_fields1 layer_fields2 : list string)
    (pending1 pending2 : list pending_field)
    (field_defs : gmap string field_def)
    (details : list (string * field_value)) (attrs : gmap string pyval) :
  Forall (fun entry =>
            forall fdef, field_defs !! entry.1 = Some fdef ->
                         (exists x, entry.2 = FScalar x)
                         \/ fd_value_map fdef = None) details ->
  (translate_details layer_fields2 field_defs
     (translate_details layer_fields1 field_defs details attrs pending1).2
     attrs pending2).1.1
  = (translate_details layer_fields1 field_defs details attrs pending1).1.1.
Proof.
  intros Hstable. apply map_eq. intros name.
  rewrite !translate_details_lookup, translate_details_record.
  now rewrite last_written_rewritten.
Qed.

(** The loop rewrites a list value of the record in place.  The code
    translates an event once, in the pass that fetched it; were the same
    object translated again, an element rewritten to a string that is a key
    of the field's value map would be mapped a second time: the code [1] is
    not a key of the map and is written as "1", and "1" is a key and would
    become "Low". *)
Example rewritten_list_translates_differently :
  (translate_details [] threat_defs threat_details ∅ []).1.1 !! "threat_array"
    = Some (PStr "1")
  /\ (translate_details [] threat_defs threat_details ∅ []).2
     = [("threat", FList [PStr "1"])]
  /\ (translate_details [] threat_defs
        (translate_details [] threat_defs threat_details ∅ []).2 ∅ []).1.1
       !! "threat_array"
     = Some (PStr "Low").
Proof. split; [|split]; reflexivity. Qed.

(** ** The batch mutator *)

Lemma count_successes_spec (results : list edit_result) :
  forall n,
    count_successes results n
    = (n + length (filter (fun r => success r = true) results))%nat.
Proof.
  unfold count_successes.
  induction results as [|r results IH]; intros n; simpl.
  - lia.
  - rewrite IH, filter_cons.
    destruct (success r); case_decide; simplify_eq; simpl; lia.
Qed.

Lemma successes_and_failures (results : list edit_result) :
  (length (filter (fun r => success r = true) results)
   + length (filter (fun r => success r <> true) results))%nat
  = length results.
Proof.
  induction results as [|r results IH]; simpl; [reflexivity|].
  rewrite !filter_cons.
  destruct (success r); repeat case_decide; simplify_eq; simpl; lia.
Qed.

(** C4: seven features added in chunks of two are submitted in exactly four
    calls, of 2, 2, 2 and 1 features in order, whatever the per-feature
    results of the earlier calls; the returned count is the number of
    successful results, which is seven less the failed ones when the layer
    returns one result per feature. *)
Theorem add_features_seven_by_two (world : Type)
    (layer_edit_features : edit_call -> world -> res edit_response * world)
    (f1 f2 f3 f4 f5 f6 f7 : feature) (w : world) (log : list log_entry) :
  (forall call w0, exists r w1, layer_edit_features call w0 = (Ok r, w1)) ->
  exists r1 r2 r3 r4 w',
    let results :=
      addResults r1 ++ addResults r2 ++ addResults r3 ++ addResults r4 in
    _add_features world layer_edit_features [f1; f2; f3; f4; f5; f6; f7] 2 (w, log)
    = (Ok (length (filter (fun r => success r = true) results)),
       (w', log ++ [LogEdit (EditAdds [f1; f2]) (Ok r1);
                    LogEdit (EditAdds [f3; f4]) (Ok r2);
                    LogEdit (EditAdds [f5; f6]) (Ok r3);
                    LogEdit (EditAdds [f7]) (Ok r4)]))
    /\ (length (addResults r1) = 2%nat -> length (addResults r2) = 2%nat ->
        length (addResults r3) = 2%nat -> length (addResults r4) = 1%nat ->
        length (filter (fun r => success r = true) results)
        = (7 - length (filter (fun r => success r <> true) results))%nat).
Proof.
  intros Hanswers.
  assert (Hchunks : _chunk [f1; f2; f3; f4; f5; f6; f7] 2
                    = Ok [[f1; f2]; [f3; f4]; [f5; f6]; [f7]]) by reflexivity.
  unfold _add_features, m_lift. unfold m_bind at 1. rewrite Hchunks.
  cbn [m_foldl]. unfold m_bind, edit_features, m_ret. cbn.
  destruct (Hanswers (EditAdds [f1; f2]) w) as (r1 & w1 & H1). rewrite H1. cbn.
  destruct (Hanswers (EditAdds [f3; f4]) w1) as (r2 & w2 & H2). rewrite H2. cbn.
  destruct (Hanswers (EditAdds [f5; f6]) w2) as (r3 & w3 & H3). rewrite H3. cbn.
  destruct (Hanswers (EditAdds [f7]) w3) as (r4 & w4 & H4). rewrite H4. cbn.
  exists r1, r2, r3, r4, w4. cbn. split.
  - rewrite !count_successes_spec, !filter_app, !length_app.
    rewrite <- !app_assoc. cbn. do 2 f_equal. lia.
  - intros L1 L2 L3 L4.
    pose proof (successes_and_failures
                  (addResults r1 ++ addResults r2 ++ addResults r3 ++ addResults r4))
      as Hsum.
    rewrite !length_app, L1, L2, L3, L4 in Hsum. lia.
Qed.

Lemma add_features_seven_by_two_witness :
  exists r1 r2 r3 r4 w',
    let results :=
      addResults r1 ++ addResults r2 ++ addResults r3 ++ addResults r4 in
    _add_features unit strict_layer
      [located 1; located 2; located 3; located 4;
       unlocated 5; located 6; located 7] 2 (tt, [])
    = (Ok (length (filter (fun r => success r = true) results)),
       (w', [] ++ [LogEdit (EditAdds [located 1; located 2]) (Ok r1);
                   LogEdit (EditAdds [located 3; located 4]) (Ok r2);
                   LogEdit (EditAdds [unlocated 5; located 6]) (Ok r3);
                   LogEdit (EditAdds [located 7]) (Ok r4)]))
    /\ (length (addResults r1) = 2%nat -> length (addResults r2) = 2%nat ->
        length (addResults r3) = 2%nat -> length (addResults r4) = 1%nat ->
        length (filter (fun r => success r = true) results)
        = (7 - length (filter (fun r => success r <> true) results))%nat).
Proof.
  apply (add_features_seven_by_two unit strict_layer
           (located 1) (located 2) (located 3) (located 4)
           (unlocated 5) (located 6) (located 7) tt []).
  intros [chunk|chunk] []; eexists _, _; reflexivity.
Defined.

Example add_features_one_failure :
  (_add_features unit strict_layer
     [located 1; located 2; located 3; located 4;
      unlocated 5; located 6; located 7] 2 (tt, [])).1
  = Ok 6%nat.
Proof. vm_compute. reflexivity. Qed.

(** ** Observation points *)

Lemma points_to_add_spec (parse_timestamp_ms : string -> option Z)
    (subj : subject) (existing_points : gmap string (pyval * pyval))
    (er_observations : list observation) :
  forall features_to_add,
    points_to_add parse_timestamp_ms subj existing_points er_observations
      features_to_add
    = (try! features :=
         point_features parse_timestamp_ms subj
           (unknown_points existing_points er_observations) in
       Ok (features_to_add ++ features)).
Proof.
  unfold unknown_points.
  induction er_observations as [|point rest IH]; intros acc; simpl.
  - now rewrite app_nil_r.
  - rewrite filter_cons.
    destruct (existing_points !! py_str (obs_id point)) as [known|] eqn:Hk.
    + rewrite decide_False by discriminate. apply IH.
    + rewrite decide_True by reflexivity. simpl.
      destruct (point_feature parse_timestamp_ms subj point) as [f|e]; simpl;
        [|reflexivity].
      rewrite IH.
      destruct (point_features parse_timestamp_ms subj _) as [fs|e]; simpl;
        [|reflexivity].
      now rewrite <- app_assoc.
Qed.

Section LayerFacts.

Variable world : Type.
Variable layer_properties_fields : world -> list string.
Variable layer_query : string -> world -> res (list row) * world.
Variable layer_add_to_definition :
  list field_spec -> world -> res bool * world.
Variable layer_edit_features : edit_call -> world -> res edit_response * world.
Variable das_get_subjects : world -> res (list subject) * world.
Variable das_get_subject_observations :
  pyval -> Z -> world -> res (list observation) * world.
Variable strftime : Z -> string.
Variable parse_timestamp_ms : string -> option Z.
Variable now : Z.

Variable P : log_entry -> Prop.

Lemma appends_ret {A} (a : A) : appends_only P (m_ret world a).
Proof. intros w log. exists []. split; [now rewrite app_nil_r | constructor]. Qed.

Lemma appends_lift {A} (r : res A) : appends_only P (m_lift world r).
Proof. intros w log. exists []. split; [now rewrite app_nil_r | constructor]. Qed.

Lemma appends_bind {A B} (c : M world A) (k : A -> M world B) :
  appends_only P c ->
  (forall a, appends_only P (k a)) ->
  appends_only P (m_bind world c k).
Proof.
  intros Hc Hk w log. unfold m_bind.
  destruct (Hc w log) as (ext1 & Hext1 & HP1).
  destruct (c (w, log)) as [[a|e] [w1 log1]]; simpl in Hext1; subst log1.
  - destruct (Hk a w1 (log ++ ext1)) as (ext2 & Hext2 & HP2).
    exists (ext1 ++ ext2). rewrite Hext2, app_assoc.
    split; [reflexivity | now apply Forall_app].
  - exists ext1. split; [reflexivity | exact HP1].
Qed.

Lemma appends_foldl {A B} (f : A -> B -> M world A) (l : list B) :
  (forall a b, appends_only P (f a b)) ->
  forall a, appends_only P (m_foldl world f a l).
Proof.
  intros Hf. induction l as [|b l IH]; intros a; simpl.
  - apply appends_ret.
  - apply appends_bind; [apply Hf | exact IH].
Qed.

Lemma appends_properties_fields :
  appends_only P (properties_fields world layer_properties_fields).
Proof. intros w log. exists []. split; [now rewrite app_nil_r | constructor]. Qed.

Lemma appends_get_subjects :
  appends_only P (get_subjects world das_get_subjects).
Proof.
  intros w log. exists []. unfold get_subjects.
  destruct (das_get_subjects w) as [reply w'].
  split; [now rewrite app_nil_r | constructor].
Qed.

Lemma appends_get_subject_observations (subject_id : pyval) (start : Z) :
  appends_only P
    (get_subject_observations world das_get_subject_observations subject_id start).
Proof.
  intros w log. exists []. unfold get_subject_observations.
  destruct (das_get_subject_observations subject_id start w) as [reply w'].
  split; [now rewrite app_nil_r | constructor].
Qed.

Lemma appends_query (where_ : string) :
  (forall reply, P (LogQuery where_ reply)) ->
  appends_only P (query world layer_query where_).
Proof.
  intros HP w log. unfold query.
  destruct (layer_query where_ w) as [reply w'].
  eexists. split; [reflexivity | repeat constructor; apply HP].
Qed.

Lemma appends_add_to_definition (fields : list field_spec) :
  (forall reply, P (LogAddToDefinition fields reply)) ->
  appends_only P (add_to_definition world layer_add_to_definition fields).
Proof.
  intros HP w log. unfold add_to_definition.
  destruct (layer_add_to_definition fields w) as [reply w'].
  eexists. split; [reflexivity | repeat constructor; apply HP].
Qed.

Lemma appends_edit_features (call : edit_call) :
  (forall reply, P (LogEdit call reply)) ->
  appends_only P (edit_features world layer_edit_features call).
Proof.
  intros HP w log. unfold edit_features.
  destruct (layer_edit_features call w) as [reply w'].
  eexists. split; [reflexivity | repeat constructor; apply HP].
Qed.

End LayerFacts.

Section TrackPointFacts.

Variable world : Type.
Variable layer_properties_fields : world -> list string.
Variable layer_query : string -> world -> res (list row) * world.
Variable layer_add_to_definition :
  list field_spec -> world -> res bool * world.
Variable layer_edit_features : edit_call -> world -> res edit_response * world.
Variable das_get_subjects : world -> res (list subject) * world.
Variable das_get_subject_observations :
  pyval -> Z -> world -> res (list observation) * world.
Variable strftime : Z -> string.
Variable parse_timestamp_ms : string -> option Z.
Variable now : Z.

Lemma add_features_no_update (add_features : list feature) (chunk_size : Z) :
  appends_only no_update_call
    (_add_features world layer_edit_features add_features chunk_size).
Proof.
  unfold _add_features.
  apply appends_bind; [apply appends_lift|]. intros chunks.
  apply appends_foldl. intros added chunk.
  apply appends_bind; [|intros results; apply appends_ret].
  apply appends_edit_features. intros reply. exact I.
Qed.

(** An empty update list issues no call at all. *)
Lemma update_features_nil (chunk_size : Z) (s : world * list log_entry) :
  (_update_features world layer_edit_features [] chunk_size s).2 = s.
Proof.
  unfold _update_features, m_bind, m_lift, _chunk.
  destruct (chunk_size =? 0)%Z; [reflexivity|].
  destruct (chunk_size <? 0)%Z; reflexivity.
Qed.

Lemma upsert_features_no_update (add_features : list feature) (chunk_size : Z) :
  appends_only no_update_call
    (_upsert_features world layer_edit_features add_features [] chunk_size).
Proof.
  unfold _upsert_features.
  apply appends_bind; [apply add_features_no_update|]. intros added.
  apply appends_bind; [|intros updated; apply appends_ret].
  intros w log. exists []. rewrite update_features_nil, app_nil_r.
  split; [reflexivity | constructor].
Qed.

Lemma existing_points_no_update (oldest_date : Z) (er_subject_id : pyval) :
  appends_only no_update_call
    (_get_existing_esri_points world layer_query strftime oldest_date
       er_subject_id).
Proof.
  unfold _get_existing_esri_points.
  apply appends_bind; [|intros existing; apply appends_lift].
  apply appends_query. intros reply. exact I.
Qed.

Lemma ensure_attributes_no_update (fields : list field_spec) :
  appends_only no_update_call
    (_ensure_attributes_in_layer world layer_properties_fields
       layer_add_to_definition fields).
Proof.
  unfold _ensure_attributes_in_layer.
  apply appends_bind; [apply appends_properties_fields|]. intros layer_fields.
  destruct (filter _ fields) as [|field new_fields]; [apply appends_ret|].
  apply appends_bind; [|intros ok; apply appends_ret].
  apply appends_add_to_definition. intros reply. exact I.
Qed.

Lemma sync_subject_points_no_update (oldest_date : Z) (subj : subject) :
  appends_only no_update_call
    (sync_subject_points world layer_query layer_edit_features
       das_get_subject_observations strftime parse_timestamp_ms
       oldest_date subj).
Proof.
  unfold sync_subject_points.
  destruct (negb (py_truthy (subj_tracks_available subj))); [apply appends_ret|].
  destruct (subj_last_position_date subj) as [last_position_date|];
    [|apply appends_ret].
  destruct (String.eqb last_position_date ""); [apply appends_ret|].
  destruct (parse_timestamp_ms last_position_date) as [t|]; [|apply appends_lift].
  destruct (t <? oldest_date)%Z; [apply appends_ret|].
  apply appends_bind; [apply appends_get_subject_observations|].
  intros er_observations.
  apply appends_bind; [apply existing_points_no_update|].
  intros existing_points.
  apply appends_bind; [apply appends_lift|].
  intros [|feature features_to_add]; [apply appends_ret|].
  apply appends_bind; [apply upsert_features_no_update|].
  intros counts. apply appends_ret.
Qed.

(** C10: whatever the tracking service and the layer answer, the
    observation-point synchronization only appends calls that are not
    update mutations to the layer's call log; the features it builds for a
    subject are those of the observations whose id the index does not
    hold, in order, and they are passed as adds with an empty update
    list, for which no call is made. *)
Theorem track_points_never_update (oldest_date : option Z)
    (w : world) (log : list log_entry) :
  (exists ext,
     (upsert_track_points_from_er world layer_properties_fields layer_query
        layer_add_to_definition layer_edit_features das_get_subjects
        das_get_subject_observations strftime parse_timestamp_ms now
        oldest_date (w, log)).2.2 = log ++ ext
     /\ Forall no_update_call ext)
  /\ (forall subj existing_points er_observations,
        points_to_add parse_timestamp_ms subj existing_points er_observations []
        = point_features parse_timestamp_ms subj
            (unknown_points existing_points er_observations))
  /\ (forall chunk_size s,
        (_update_features world layer_edit_features [] chunk_size s).2 = s).
Proof.
  split; [|split].
  - revert w log.
    change (appends_only no_update_call
              (upsert_track_points_from_er world layer_properties_fields
                 layer_query layer_add_to_definition layer_edit_features
                 das_get_subjects das_get_subject_observations strftime
                 parse_timestamp_ms now oldest_date)).
    unfold upsert_track_points_from_er.
    apply appends_bind; [apply ensure_attributes_no_update|]. intros _.
    apply appends_bind; [apply appends_get_subjects|]. intros subjects.
    apply appends_foldl. intros _ subj. apply sync_subject_points_no_update.
  - intros subj existing_points er_observations.
    rewrite points_to_add_spec.
    destruct (point_features _ _ _); reflexivity.
  - apply update_features_nil.
Qed.

End TrackPointFacts.

(** * Further properties of the code *)

(** ** Chunk sizes *)

Lemma range_from_nonempty (fuel i stop step : nat) :
  range_from fuel i stop step <> [] -> (i < stop)%nat.
Proof.
  destruct fuel as [|fuel]; simpl; [congruence|].
  destruct (i <? stop)%nat eqn:Hlt; [|congruence].
  intros _. now apply Nat.ltb_lt.
Qed.

Lemma chunk_lengths_from {A} (lst : list A) (n : nat) :
  (0 < n)%nat ->
  forall fuel i,
    Forall (fun chunk => (1 <= length chunk <= n)%nat)
      (map (fun i => slice lst i (i + n)) (range_from fuel i (length lst) n))
    /\ forall k chunk,
         map (fun i => slice lst i (i + n)) (range_from fuel i (length lst) n)
           !! k = Some chunk ->
         (S k < length (map (fun i => slice lst i (i + n))
                          (range_from fuel i (length lst) n)))%nat ->
         length chunk = n.
Proof.
  intros Hn. induction fuel as [|fuel IH]; intros i; simpl.
  - split; [constructor | intros k chunk Hk; discriminate Hk].
  - destruct (i <? length lst)%nat eqn:Hlt; simpl.
    + apply Nat.ltb_lt in Hlt. destruct (IH (i + n)%nat) as [Hall Hfull].
      assert (Hlen : length (slice lst i (i + n))
                     = Nat.min n (length lst - i)).
      { unfold slice. rewrite length_take, length_drop. f_equal. lia. }
      split.
      * constructor; [rewrite Hlen; lia | exact Hall].
      * intros [|k] chunk Hk Hmore; simpl in Hk.
        -- injection Hk as <-. rewrite Hlen.
           assert (Hnext : (i + n < length lst)%nat).
           { apply (range_from_nonempty fuel _ _ n).
             intros Hnil. rewrite Hnil in Hmore. simpl in Hmore. lia. }
           lia.
        -- apply (Hfull k chunk Hk). lia.
    + split; [constructor | intros k chunk Hk; discriminate Hk].
Qed.

(** X1: for a chunk size of at least one, every chunk [_chunk] yields holds
    between one and [chunk_size] elements, and every chunk but the last holds
    exactly [chunk_size]. *)
Theorem chunk_sizes {A} (lst : list A) (chunk_size : Z) :
  (1 <= chunk_size)%Z ->
  exists chunks,
    _chunk lst chunk_size = Ok chunks
    /\ Forall (fun chunk => (1 <= length chunk <= Z.to_nat chunk_size)%nat) chunks
    /\ forall k chunk,
         chunks !! k = Some chunk ->
         (S k < length chunks)%nat ->
         length chunk = Z.to_nat chunk_size.
Proof.
  intros Hn. unfold _chunk.
  destruct (chunk_size =? 0)%Z eqn:H0; [lia|].
  destruct (chunk_size <? 0)%Z eqn:Hneg; [lia|].
  eexists. split; [reflexivity|].
  apply chunk_lengths_from. lia.
Qed.

Lemma chunk_sizes_witness :
  exists chunks,
    _chunk [1; 2; 3; 4; 5; 6; 7]%nat 3 = Ok chunks
    /\ Forall (fun chunk => (1 <= length chunk <= Z.to_nat 3)%nat) chunks
    /\ forall k chunk,
         chunks !! k = Some chunk ->
         (S k < length chunks)%nat ->
         length chunk = Z.to_nat 3.
Proof. apply (chunk_sizes [1; 2; 3; 4; 5; 6; 7]%nat 3). lia. Defined.

(** ** The batch mutator in general *)

Section BatchFacts.

Variable world : Type.
Variable layer_edit_features : edit_call -> world -> res edit_response * world.

(** X2: a chunk size of zero makes [_add_features] raise [ValueError] and
    a negative one makes it return 0; in both cases no call reaches the
    layer, whatever the features. *)
Theorem add_features_nonpositive_chunk (add_features : list feature)
    (chunk_size : Z) (s : world * list log_entry) :
  (chunk_size <= 0)%Z ->
  _add_features world layer_edit_features add_features chunk_size s
  = (if (chunk_size =? 0)%Z
     then Raise (ValueError "range() arg 3 must not be zero")
     else Ok 0%nat, s).
Proof.
  intros Hn. unfold _add_features, m_bind, m_lift, _chunk.
  destruct (chunk_size =? 0)%Z eqn:H0; [reflexivity|].
  destruct (chunk_size <? 0)%Z eqn:Hneg; [reflexivity|]. lia.
Qed.

Lemma successes_app (l k : list edit_result) :
  successes (l ++ k) = (successes l + successes k)%nat.
Proof. unfold successes. now rewrite filter_app, length_app. Qed.

Lemma add_chunks_answered (chunks : list (list feature)) :
  answers_edits layer_edit_features ->
  forall added w log,
    exists replies w',
      length replies = length chunks
      /\ m_foldl world
           (fun added chunk =>
              m_bind world (edit_features world layer_edit_features (EditAdds chunk))
                (fun results =>
                   m_ret world (count_successes (addResults results) added)))
           added chunks (w, log)
         = (Ok (added + successes (concat (addResults <$> replies)))%nat,
            (w', log ++ add_log chunks replies)).
Proof.
  intros Hans. induction chunks as [|chunk chunks IH]; intros added w log.
  - exists [], w. split; [reflexivity|]. simpl. unfold m_ret.
    rewrite app_nil_r. unfold successes. simpl. now rewrite Nat.add_0_r.
  - destruct (Hans (EditAdds chunk) w) as (reply & w1 & Hreply).
    destruct (IH (count_successes (addResults reply) added) w1
                (log ++ [LogEdit (EditAdds chunk) (Ok reply)]))
      as (replies & w' & Hlen & Hrun).
    exists (reply :: replies), w'. split; [simpl; now rewrite Hlen|].
    simpl. unfold m_bind at 1. unfold m_bind at 1.
    unfold edit_features at 1. rewrite Hreply. unfold m_ret at 1.
    rewrite Hrun. rewrite count_successes_spec, successes_app.
    unfold add_log. simpl. rewrite <- app_assoc. simpl.
    unfold successes. rewrite Nat.add_assoc. reflexivity.
Qed.

Lemma update_chunks_answered (chunks : list (list feature)) :
  answers_edits layer_edit_features ->
  forall updated w log,
    exists replies w',
      length replies = length chunks
      /\ m_foldl world
           (fun updated chunk =>
              m_bind world (edit_features world layer_edit_features (EditUpdates chunk))
                (fun results =>
                   m_ret world (count_successes (updateResults results) updated)))
           updated chunks (w, log)
         = (Ok (updated + successes (concat (updateResults <$> replies)))%nat,
            (w', log ++ update_log chunks replies)).
Proof.
  intros Hans. induction chunks as [|chunk chunks IH]; intros updated w log.
  - exists [], w. split; [reflexivity|]. simpl. unfold m_ret.
    rewrite app_nil_r. unfold successes. simpl. now rewrite Nat.add_0_r.
  - destruct (Hans (EditUpdates chunk) w) as (reply & w1 & Hreply).
    destruct (IH (count_successes (updateResults reply) updated) w1
                (log ++ [LogEdit (EditUpdates chunk) (Ok reply)]))
      as (replies & w' & Hlen & Hrun).
    exists (reply :: replies), w'. split; [simpl; now rewrite Hlen|].
    simpl. unfold m_bind at 1. unfold m_bind at 1.
    unfold edit_features at 1. rewrite Hreply. unfold m_ret at 1.
    rewrite Hrun. rewrite count_successes_spec, successes_app.
    unfold update_log. simpl. rewrite <- app_assoc. simpl.
    unfold successes. rewrite Nat.add_assoc. reflexivity.
Qed.

Lemma chunk_covers {A} (lst : list A) (chunk_size : Z) :
  (1 <= chunk_size)%Z ->
  exists chunks, _chunk lst chunk_size = Ok chunks /\ concat chunks = lst.
Proof.
  intros Hn. unfold _chunk.
  destruct (chunk_size =? 0)%Z eqn:H0; [lia|].
  destruct (chunk_size <? 0)%Z eqn:Hneg; [lia|].
  eexists. split; [reflexivity|].
  now rewrite range_chunks_concat by lia.
Qed.

(** X3: when the layer answers every edit call and the chunk size is at
    least one, [_upsert_features] submits one add call per chunk of the add
    list, in order, then one update call per chunk of the update list, in
    order, and returns the numbers of successful add and update results;
    the chunks cover both lists exactly. *)
Theorem upsert_features_answered (add_features update_features : list feature)
    (chunk_size : Z) (w : world) (log : list log_entry) :
  answers_edits layer_edit_features ->
  (1 <= chunk_size)%Z ->
  exists add_chunks update_chunks add_replies update_replies w',
    _chunk add_features chunk_size = Ok add_chunks
    /\ _chunk update_features chunk_size = Ok update_chunks
    /\ concat add_chunks = add_features
    /\ concat update_chunks = update_features
    /\ length add_replies = length add_chunks
    /\ length update_replies = length update_chunks
    /\ _upsert_features world layer_edit_features add_features update_features
         chunk_size (w, log)
       = (Ok (successes (concat (addResults <$> add_replies)),
              successes (concat (updateResults <$> update_replies))),
          (w', log ++ add_log add_chunks add_replies
                   ++ update_log update_chunks update_replies)).
Proof.
  intros Hans Hn.
  destruct (chunk_covers add_features chunk_size Hn) as (ca & Hca & Hcat_a).
  destruct (chunk_covers update_features chunk_size Hn) as (cu & Hcu & Hcat_u).
  destruct (add_chunks_answered ca Hans 0%nat w log) as (ra & w1 & Hla & Hra).
  destruct (update_chunks_answered cu Hans 0%nat w1 (log ++ add_log ca ra))
    as (ru & w2 & Hlu & Hru).
  exists ca, cu, ra, ru, w2. do 6 (split; [assumption|]).
  unfold _upsert_features, _add_features, _update_features.
  unfold m_bind at 1. unfold m_bind at 1. unfold m_lift at 1. rewrite Hca.
  rewrite Hra. simpl.
  unfold m_bind at 1. unfold m_bind at 1. unfold m_lift at 1. rewrite Hcu.
  rewrite Hru. simpl. unfold m_ret. now rewrite <- app_assoc.
Qed.

End BatchFacts.

Lemma add_features_nonpositive_chunk_witness :
  _add_features unit strict_layer [located 1; located 2] (-5) (tt, [])
  = (Ok 0%nat, (tt, []))
  /\ _add_features unit strict_layer [located 1; located 2] 0 (tt, [])
     = (Raise (ValueError "range() arg 3 must not be zero"), (tt, [])).
Proof.
  split.
  - apply (add_features_nonpositive_chunk unit strict_layer
             [located 1; located 2] (-5) (tt, [])). lia.
  - apply (add_features_nonpositive_chunk unit strict_layer
             [located 1; located 2] 0 (tt, [])). lia.
Defined.

Lemma strict_layer_answers : answers_edits strict_layer.
Proof. intros [chunk|chunk] []; eexists _, _; reflexivity. Defined.

Lemma upsert_features_answered_witness :
  exists add_chunks update_chunks add_replies update_replies w',
    _chunk [located 1; unlocated 2; located 3] 2 = Ok add_chunks
    /\ _chunk [located 4] 2 = Ok update_chunks
    /\ concat add_chunks = [located 1; unlocated 2; located 3]
    /\ concat update_chunks = [located 4]
    /\ length add_replies = length add_chunks
    /\ length update_replies = length update_chunks
    /\ _upsert_features unit strict_layer
         [located 1; unlocated 2; located 3] [located 4] 2 (tt, [])
       = (Ok (successes (concat (addResults <$> add_replies)),
              successes (concat (updateResults <$> update_replies))),
          (w', [] ++ add_log add_chunks add_replies
                  ++ update_log update_chunks update_replies)).
Proof.
  apply (upsert_features_answered unit strict_layer
           [located 1; unlocated 2; located 3] [located 4] 2 tt []).
  - exact strict_layer_answers.
  - lia.
Defined.

Section BatchOrder.

Variable world : Type.
Variable layer_edit_features : edit_call -> world -> res edit_response * world.

Lemma add_features_appends_adds (add_features : list feature) (chunk_size : Z) :
  appends_only is_add_call
    (_add_features world layer_edit_features add_features chunk_size).
Proof.
  unfold _add_features.
  apply appends_bind; [apply appends_lift|]. intros chunks.
  apply appends_foldl. intros added chunk.
  apply appends_bind; [|intros results; apply appends_ret].
  apply appends_edit_features. intros reply. exact I.
Qed.

Lemma update_features_appends_updates (update_features : list feature)
    (chunk_size : Z) :
  appends_only is_update_call
    (_update_features world layer_edit_features update_features chunk_size).
Proof.
  unfold _update_features.
  apply appends_bind; [apply appends_lift|]. intros chunks.
  apply appends_foldl. intros updated chunk.
  apply appends_bind; [|intros results; apply appends_ret].
  apply appends_edit_features. intros reply. exact I.
Qed.

Lemma upsert_features_call_order (add_features update_features : list feature)
    (chunk_size : Z) (w : world) (log : list log_entry) :
  exists add_calls update_calls,
    (_upsert_features world layer_edit_features add_features update_features
       chunk_size (w, log)).2.2
    = log ++ add_calls ++ update_calls
    /\ Forall is_add_call add_calls
    /\ Forall is_update_call update_calls.
Proof.
  unfold _upsert_features, m_bind.
  destruct (add_features_appends_adds add_features chunk_size w log)
    as (ext_a & Hext_a & Ha).
  destruct (_add_features world layer_edit_features add_features chunk_size
              (w, log)) as [[added|e] [w1 log1]]; simpl in Hext_a; subst log1.
  - destruct (update_features_appends_updates update_features chunk_size w1
                (log ++ ext_a)) as (ext_u & Hext_u & Hu).
    destruct (_update_features world layer_edit_features update_features
                chunk_size (w1, log ++ ext_a)) as [[updated|e] [w2 log2]];
      simpl in Hext_u; subst log2; exists ext_a, ext_u; simpl;
      rewrite <- app_assoc; auto.
  - exists ext_a, []. simpl. rewrite app_nil_r. auto.
Qed.

(** X4: whatever the layer answers, [_upsert_features] makes all its add
    calls before its first update call, and makes no other call. *)
Theorem upsert_features_adds_first (add_features update_features : list feature)
    (chunk_size : Z) (w : world) (log : list log_entry) :
  exists add_calls update_calls,
    (_upsert_features world layer_edit_features add_features update_features
       chunk_size (w, log)).2.2
    = log ++ add_calls ++ update_calls
    /\ Forall is_add_call add_calls
    /\ Forall is_update_call update_calls.
Proof.
  exact (upsert_features_call_order add_features update_features chunk_size
           w log).
Qed.

Lemma Forall_removelast {A} (P : A -> Prop) (l : list A) :
  Forall P l -> Forall P (removelast l).
Proof.
  induction 1 as [|x l Hx Hl IH]; simpl; [constructor|].
  destruct l; [constructor | constructor; assumption].
Qed.

Lemma stops_ret {A} (a : A) : stops_at_raise (m_ret world a).
Proof. intros w log. exists []. split; [now rewrite app_nil_r | constructor]. Qed.

Lemma stops_lift {A} (r : res A) : stops_at_raise (m_lift world r).
Proof.
  intros w log. exists []. split; [now rewrite app_nil_r|].
  destruct r; constructor.
Qed.

Lemma stops_bind {A B} (c : M world A) (k : A -> M world B) :
  stops_at_raise c ->
  (forall a, stops_at_raise (k a)) ->
  stops_at_raise (m_bind world c k).
Proof.
  intros Hc Hk w log. unfold m_bind.
  destruct (Hc w log) as (ext1 & Hext1 & H1).
  destruct (c (w, log)) as [[a|e] [w1 log1]]; simpl in Hext1, H1; subst log1.
  - destruct (Hk a w1 (log ++ ext1)) as (ext2 & Hext2 & H2).
    exists (ext1 ++ ext2). rewrite Hext2, app_assoc. split; [reflexivity|].
    destruct ((k a (w1, log ++ ext1)).1) as [b|e].
    + now apply Forall_app.
    + destruct ext2 as [|entry ext2].
      * rewrite app_nil_r. now apply Forall_removelast.
      * rewrite removelast_app by discriminate. now apply Forall_app.
  - exists ext1. split; [reflexivity | exact H1].
Qed.

Lemma stops_foldl {A B} (f : A -> B -> M world A) (l : list B) :
  (forall a b, stops_at_raise (f a b)) ->
  forall a, stops_at_raise (m_foldl world f a l).
Proof.
  intros Hf. induction l as [|b l IH]; intros a; simpl.
  - apply stops_ret.
  - apply stops_bind; [apply Hf | exact IH].
Qed.

Lemma stops_edit_features (call : edit_call) :
  stops_at_raise (edit_features world layer_edit_features call).
Proof.
  intros w log. unfold edit_features.
  destruct (layer_edit_features call w) as [[reply|e] w']; simpl;
    eexists; (split; [reflexivity|]); repeat constructor.
Qed.

(** X5: [_upsert_features] never submits anything after a call that
    raised: every call it makes but the last was answered, and so was the
    last when it returns its counts. *)
Theorem upsert_features_stops_at_raise
    (add_features update_features : list feature) (chunk_size : Z)
    (w : world) (log : list log_entry) :
  exists calls,
    (_upsert_features world layer_edit_features add_features update_features
       chunk_size (w, log)).2.2 = log ++ calls
    /\ match (_upsert_features world layer_edit_features add_features
                update_features chunk_size (w, log)).1 with
       | Ok _ => Forall reply_ok calls
       | Raise _ => Forall reply_ok (removelast calls)
       end.
Proof.
  revert w log.
  change (stops_at_raise
            (_upsert_features world layer_edit_features add_features
               update_features chunk_size)).
  unfold _upsert_features, _add_features, _update_features.
  apply stops_bind.
  - apply stops_bind; [apply stops_lift|]. intros chunks.
    apply stops_foldl. intros added chunk.
    apply stops_bind; [apply stops_edit_features | intros; apply stops_ret].
  - intros added. apply stops_bind; [|intros; apply stops_ret].
    apply stops_bind; [apply stops_lift|]. intros chunks.
    apply stops_foldl. intros updated chunk.
    apply stops_bind; [apply stops_edit_features | intros; apply stops_ret].
Qed.

End BatchOrder.

(** ** Base attributes of a layer *)

Lemma field_already_exists_spec (field : string) (layer_fields : list string)
    (pending : list pending_field) :
  _field_already_exists field layer_fields pending = true
  <-> (field ∈ layer_fields) \/ (field ∈ map pending_name pending).
Proof.
  split.
  - intros H. destruct (decide (field ∈ layer_fields)) as [|Hl]; [now left|].
    destruct (decide (field ∈ map pending_name pending)) as [|Hp]; [now right|].
    exfalso. unfold _field_already_exists in H.
    apply orb_true_iff in H as [H|H]; apply existsb_exists in H as (x & Hin & Heq);
      apply String.eqb_eq in Heq; subst field.
    + apply Hl. now apply list_elem_of_In.
    + apply Hp. apply list_elem_of_In, in_map. exact Hin.
  - intros H. destruct (_field_already_exists field layer_fields pending) eqn:E;
      [reflexivity|].
    apply field_already_exists_false in E as [Hl Hp]. tauto.
Qed.

(** X6: [_ensure_attributes_in_layer] makes no call when the layer declares
    every requested field; otherwise it makes exactly one definition call,
    for exactly the requested fields the layer lacks, in the order given,
    and returns normally whenever that call is answered, also when the
    answer reports a failure. *)
Theorem ensure_attributes_adds_missing (world : Type)
    (layer_properties_fields : world -> list string)
    (layer_add_to_definition : list field_spec -> world -> res bool * world)
    (fields : list field_spec) (w : world) (log : list log_entry) :
  _ensure_attributes_in_layer world layer_properties_fields
    layer_add_to_definition fields (w, log)
  = match filter (fun field => fs_name field ∉ layer_properties_fields w) fields with
    | [] => (Ok tt, (w, log))
    | missing =>
        (match (layer_add_to_definition missing w).1 with
         | Ok _ => Ok tt
         | Raise e => Raise e
         end,
         ((layer_add_to_definition missing w).2,
          log ++ [LogAddToDefinition missing (layer_add_to_definition missing w).1]))
    end.
Proof.
  unfold _ensure_attributes_in_layer, m_bind, properties_fields. simpl.
  rewrite (list_filter_iff _
             (fun field => fs_name field ∉ layer_properties_fields w)).
  - destruct (filter _ fields) as [|field missing]; [reflexivity|].
    unfold add_to_definition.
    destruct (layer_add_to_definition (field :: missing) w) as [[ok|e] w'];
      reflexivity.
  - intros field. rewrite negb_true_iff, <- not_true_iff_false.
    rewrite field_already_exists_spec. simpl.
    split; [tauto | intros H [Hin|Hin]; [tauto | inversion Hin]].
Qed.

(** ** The index of existing features *)

Lemma index_rows_spec (key_attr : string) (existing : list row) :
  forall (acc idx : gmap string (pyval * pyval)),
    index_rows key_attr existing acc = Ok idx ->
    forall k v,
      idx !! k = Some v
      <-> (exists pre r post,
             existing = pre ++ r :: post
             /\ row_entry key_attr r = Some (k, v)
             /\ Forall (fun r' => row_key key_attr r' <> Some k) post)
          \/ (acc !! k = Some v
              /\ Forall (fun r' => row_key key_attr r' <> Some k) existing).
Proof.
  induction existing as [|r rows IH]; intros acc idx Hidx k v.
  - simpl in Hidx. injection Hidx as <-. split.
    + intros H. right. split; [exact H | constructor].
    + intros [(pre & r & post & Heq & _)|[H _]]; [|exact H].
      now destruct pre.
  - simpl in Hidx. unfold row_get in Hidx.
    destruct (r !! "OBJECTID") as [o|] eqn:Ho; [|discriminate].
    destruct (r !! "EditDate") as [e|] eqn:He; [|discriminate].
    destruct (r !! key_attr) as [key|] eqn:Hk; [|discriminate].
    simpl in Hidx.
    assert (Hentry : row_entry key_attr r = Some (py_str key, (o, e))).
    { unfold row_entry. now rewrite Ho, He, Hk. }
    assert (Hkey : row_key key_attr r = Some (py_str key)).
    { unfold row_key. now rewrite Hentry. }
    rewrite (IH _ _ Hidx k v). split.
    + intros [(pre & r' & post & Heq & Hr' & Hpost)|[Hacc Hrows]].
      * left. exists (r :: pre), r', post. subst rows. auto.
      * destruct (decide (py_str key = k)) as [<-|Hne].
        -- rewrite lookup_insert_eq in Hacc. injection Hacc as <-.
           left. exists [], r, rows. auto.
        -- rewrite lookup_insert_ne in Hacc by exact Hne.
           right. split; [exact Hacc|]. constructor; [|exact Hrows].
           rewrite Hkey. congruence.
    + intros [(pre & r' & post & Heq & Hr' & Hpost)|[Hacc Hrows]].
      * destruct pre as [|r0 pre]; simpl in Heq; injection Heq as -> ->.
        -- rewrite Hentry in Hr'. injection Hr' as <- <-.
           right. split; [apply lookup_insert_eq | exact Hpost].
        -- left. exists pre, r', post. auto.
      * apply Forall_cons in Hrows as [Hr Hrows].
        right. split; [|exact Hrows].
        rewrite lookup_insert_ne; [exact Hacc|].
        rewrite Hkey in Hr. congruence.
Qed.

Lemma index_rows_total (key_attr : string) (existing : list row) :
  Forall (fun r => is_Some (row_entry key_attr r)) existing ->
  forall acc, exists idx, index_rows key_attr existing acc = Ok idx.
Proof.
  induction 1 as [|r rows [entry Hr] Hrows IH]; intros acc; simpl.
  - eauto.
  - unfold row_entry in Hr. unfold row_get.
    destruct (r !! "OBJECTID") as [o|]; [|discriminate].
    destruct (r !! "EditDate") as [e|]; [|discriminate].
    destruct (r !! key_attr) as [key|]; [|discriminate].
    simpl. apply IH.
Qed.

(** X7: when every queried feature carries [OBJECTID], [EditDate] and the
    key attribute, the index is built, and it maps a key to the
    [OBJECTID] and [EditDate] of the last queried feature whose key
    attribute, as a string, is that key; it holds no other key. *)
Theorem index_rows_last_wins (key_attr : string) (existing : list row) :
  Forall (fun r => is_Some (row_entry key_attr r)) existing ->
  exists idx,
    index_rows key_attr existing ∅ = Ok idx
    /\ forall k v,
         idx !! k = Some v
         <-> exists pre r post,
               existing = pre ++ r :: post
               /\ row_entry key_attr r = Some (k, v)
               /\ Forall (fun r' => row_key key_attr r' <> Some k) post.
Proof.
  intros Hall. destruct (index_rows_total key_attr existing Hall ∅) as [idx Hidx].
  exists idx. split; [exact Hidx|]. intros k v.
  rewrite (index_rows_spec key_attr existing ∅ idx Hidx k v).
  split; [|auto]. intros [H|[H _]]; [exact H|].
  rewrite lookup_empty in H. discriminate.
Qed.

Lemma index_rows_last_wins_witness :
  exists idx,
    index_rows "ER_REPORT_NUMBER"
      [example_row (PInt 42) (PInt 7) (PInt 1000);
       example_row (PStr "42") (PInt 9) (PInt 2000)] ∅ = Ok idx
    /\ forall k v,
         idx !! k = Some v
         <-> exists pre r post,
               [example_row (PInt 42) (PInt 7) (PInt 1000);
                example_row (PStr "42") (PInt 9) (PInt 2000)]
               = pre ++ r :: post
               /\ row_entry "ER_REPORT_NUMBER" r = Some (k, v)
               /\ Forall (fun r' => row_key "ER_REPORT_NUMBER" r' <> Some k) post.
Proof.
  apply (index_rows_last_wins "ER_REPORT_NUMBER"
           [example_row (PInt 42) (PInt 7) (PInt 1000);
            example_row (PStr "42") (PInt 9) (PInt 2000)]).
  repeat constructor; eexists; reflexivity.
Defined.

(** X8: when a queried feature lacks [OBJECTID], [EditDate] or the key
    attribute, building the index raises [KeyError] for one of these three
    names, whatever the other features hold. *)
Theorem index_rows_missing_attribute (key_attr : string) (existing : list row)
    (acc : gmap string (pyval * pyval)) :
  Exists (fun r => row_entry key_attr r = None) existing ->
  exists name,
    index_rows key_attr existing acc = Raise (KeyError name)
    /\ name ∈ ["OBJECTID"; "EditDate"; key_attr].
Proof.
  intros Hex. revert acc.
  induction existing as [|r rows IH]; intros acc; [inversion Hex|].
  simpl. unfold row_get.
  assert (Hrows : row_entry key_attr r <> None -> Exists (fun r => row_entry key_attr r = None) rows).
  { intros Hr. inversion Hex; subst; [contradiction | assumption]. }
  unfold row_entry in Hrows.
  destruct (r !! "OBJECTID") as [o|];
    [|exists "OBJECTID"; split; [reflexivity | set_solver]].
  destruct (r !! "EditDate") as [e|];
    [|exists "EditDate"; split; [reflexivity | set_solver]].
  destruct (r !! key_attr) as [key|];
    [|exists key_attr; split; [reflexivity | set_solver]].
  simpl. apply IH, Hrows. discriminate.
Qed.

Lemma index_rows_missing_attribute_witness :
  exists name,
    index_rows "ER_REPORT_NUMBER"
      [example_row (PInt 42) (PInt 7) (PInt 1000);
       <["ER_REPORT_NUMBER" := PInt 43]> ∅] ∅ = Raise (KeyError name)
    /\ name ∈ ["OBJECTID"; "EditDate"; "ER_REPORT_NUMBER"].
Proof.
  apply (index_rows_missing_attribute "ER_REPORT_NUMBER"
           [example_row (PInt 42) (PInt 7) (PInt 1000);
            <["ER_REPORT_NUMBER" := PInt 43]> ∅] ∅).
  apply Exists_cons_tl, Exists_cons_hd. reflexivity.
Defined.

(** ** Field translation in general *)

Lemma str_has_app (c : ascii) (s1 s2 : string) :
  str_has c (s1 +:+ s2) = str_has c s1 || str_has c s2.
Proof.
  induction s1 as [|c' s1 IH]; simpl; [reflexivity|].
  now rewrite IH, orb_assoc.
Qed.

Lemma composite_field_name_underscore (field : string) (fdef : field_def) :
  str_has "_" (composite_field_name field fdef) = true.
Proof.
  rewrite composite_field_name_split, !str_has_app. simpl.
  now rewrite orb_true_r.
Qed.

(** X9: a field of [event_details] that the event type's schema does not
    define has no effect on the translation: the attribute map and the
    pending field list are those obtained from the defined fields alone. *)
Theorem unknown_fields_dropped (layer_fields : list string)
    (field_defs : gmap string field_def)
    (details : list (string * field_value)) :
  forall (attrs : gmap string pyval) (pending : list pending_field),
    (translate_details layer_fields field_defs details attrs pending).1
    = (translate_details layer_fields field_defs
         (known_details field_defs details) attrs pending).1.
Proof.
  unfold known_details.
  induction details as [|[field raw] rest IH]; intros attrs pending;
    [reflexivity|].
  rewrite filter_cons.
  destruct (decide (is_Some (field_defs !! (field, raw).1))) as [[fdef Hdef]|Hno];
    simpl in *.
  - rewrite Hdef.
    match goal with
    | |- context [translate_details _ _ rest ?a ?p] =>
        specialize (IH a p);
        destruct (translate_details layer_fields field_defs rest a p)
          as [[attrs1 fta1] rest1];
        destruct (translate_details layer_fields field_defs
                    (filter _ rest) a p) as [[attrs2 fta2] rest2]
    end.
    simpl in *. exact IH.
  - destruct (field_defs !! field) as [fdef|]; [exfalso; eauto|].
    specialize (IH attrs pending).
    destruct (translate_details layer_fields field_defs rest attrs pending)
      as [[attrs1 fta1] rest1].
    exact IH.
Qed.

Lemma clean_field_name_hyphen_free (s : string) :
  hyphen_free (_clean_field_name s) = true.
Proof.
  unfold _clean_field_name. induction s as [|c s IH]; simpl; [reflexivity|].
  rewrite IH, andb_true_r.
  destruct (Ascii.eqb c "-") eqn:E; [reflexivity|]. now rewrite E.
Qed.

Lemma clean_field_name_idempotent (s : string) :
  _clean_field_name (_clean_field_name s) = _clean_field_name s.
Proof. apply clean_hyphen_free, clean_field_name_hyphen_free. Qed.

Lemma translate_details_pending_grows (layer_fields : list string)
    (field_defs : gmap string field_def)
    (details : list (string * field_value)) :
  forall attrs pending,
    exists new_fields,
      (translate_details layer_fields field_defs details attrs pending).1.2
      = pending ++ new_fields
      /\ Forall (fun f => _clean_field_name (pending_name f) = pending_name f)
                new_fields.
Proof.
  induction details as [|[field raw] rest IH]; intros attrs pending; simpl.
  - exists []. split; [now rewrite app_nil_r | constructor].
  - destruct (field_defs !! field) as [fdef|].
    + match goal with
      | |- context [translate_details _ _ rest ?a ?p] =>
          destruct (IH a p) as (new & Hnew & Hclean);
          destruct (translate_details layer_fields field_defs rest a p)
            as [[attrs' fta'] rest']
      end.
      simpl in *. subst fta'.
      destruct (_field_already_exists _ _ _); [eauto|].
      rewrite <- app_assoc. eexists. split; [reflexivity|].
      constructor; [|exact Hclean].
      unfold pending_name. simpl. apply clean_field_name_idempotent.
    + destruct (IH attrs pending) as (new & Hnew & Hclean).
      destruct (translate_details layer_fields field_defs rest attrs pending)
        as [[attrs' fta'] rest'].
      simpl in *. eauto.
Qed.

Lemma translate_details_attrs_kept (layer_fields : list string)
    (field_defs : gmap string field_def)
    (details : list (string * field_value)) :
  forall attrs pending name,
    is_Some (attrs !! name) ->
    is_Some ((translate_details layer_fields field_defs details attrs pending).1.1
               !! name).
Proof.
  induction details as [|[field raw] rest IH]; intros attrs pending name Hin;
    simpl; [exact Hin|].
  destruct (field_defs !! field) as [fdef|].
  - match goal with
    | |- context [translate_details _ _ rest ?a ?p] =>
        specialize (IH a p name);
        destruct (translate_details layer_fields field_defs rest a p)
          as [[attrs' fta'] rest']
    end.
    simpl in *. apply IH. rewrite lookup_insert. case_decide; eauto.
  - specialize (IH attrs pending name Hin).
    destruct (translate_details layer_fields field_defs rest attrs pending)
      as [[attrs' fta'] rest'].
    exact IH.
Qed.

Lemma translate_details_other_attrs (layer_fields : list string)
    (field_defs : gmap string field_def)
    (details : list (string * field_value)) (name : string) :
  str_has "_" name = false ->
  forall attrs pending,
    (translate_details layer_fields field_defs details attrs pending).1.1 !! name
    = attrs !! name.
Proof.
  intros Hname.
  induction details as [|[field raw] rest IH]; intros attrs pending; simpl;
    [reflexivity|].
  destruct (field_defs !! field) as [fdef|].
  - match goal with
    | |- context [translate_details _ _ rest ?a ?p] =>
        specialize (IH a p);
        destruct (translate_details layer_fields field_defs rest a p)
          as [[attrs' fta'] rest']
    end.
    simpl in *. rewrite IH. apply lookup_insert_ne.
    intros Heq. rewrite <- Heq, composite_field_name_underscore in Hname.
    discriminate.
  - specialize (IH attrs pending).
    destruct (translate_details layer_fields field_defs rest attrs pending)
      as [[attrs' fta'] rest'].
    exact IH.
Qed.

(** X10: every field of [event_details] that the schema defines gets its
    attribute, under its composite name, and that name is then declared by
    the layer or queued in the pending field list: no attribute is written
    for a field that will not exist when the features are submitted. *)
Theorem translated_fields_are_provisioned (layer_fields : list string)
    (field_defs : gmap string field_def)
    (details : list (string * field_value))
    (attrs : gmap string pyval) (pending : list pending_field)
    (field : string) (raw : field_value) (fdef : field_def) :
  (field, raw) ∈ details ->
  field_defs !! field = Some fdef ->
  is_Some ((translate_details layer_fields field_defs details attrs pending).1.1
             !! composite_field_name field fdef)
  /\ ((composite_field_name field fdef ∈ layer_fields)
      \/ (composite_field_name field fdef
          ∈ map pending_name
              (translate_details layer_fields field_defs details attrs pending).1.2)).
Proof.
  intros Hin Hdef. revert attrs pending.
  induction details as [|[field' raw'] rest IH]; intros attrs pending;
    [inversion Hin|].
  apply elem_of_cons in Hin as [Heq|Hin].
  - injection Heq as <- <-. simpl. rewrite Hdef.
    match goal with
    | |- context [translate_details _ _ rest ?a ?p] =>
        pose proof (translate_details_attrs_kept layer_fields field_defs rest
                      a p (composite_field_name field fdef)) as Hkept;
        destruct (translate_details_pending_grows layer_fields field_defs rest
                    a p) as (new & Hnew & _);
        destruct (translate_details layer_fields field_defs rest a p)
          as [[attrs' fta'] rest']
    end.
    simpl in *. split.
    + apply Hkept. rewrite lookup_insert_eq. eauto.
    + subst fta'.
      destruct (_field_already_exists (composite_field_name field fdef)
                  layer_fields pending) eqn:Hex.
      * apply field_already_exists_spec in Hex as [Hl|Hp]; [now left|].
        right. rewrite map_app. apply elem_of_app. now left.
      * right. rewrite !map_app. apply elem_of_app. left.
        apply elem_of_app. right. simpl. apply list_elem_of_singleton.
        reflexivity.
  - simpl. destruct (field_defs !! field') as [fdef'|].
    + match goal with
      | |- context [translate_details _ _ rest ?a ?p] =>
          specialize (IH Hin a p);
          destruct (translate_details layer_fields field_defs rest a p)
            as [[attrs' fta'] rest']
      end.
      exact IH.
    + specialize (IH Hin attrs pending).
      destruct (translate_details layer_fields field_defs rest attrs pending)
        as [[attrs' fta'] rest'].
      exact IH.
Qed.

Lemma translated_fields_are_provisioned_witness :
  is_Some ((translate_details ["species_string"]
              (<["species" := alpha_beta_def]> (<["count" := number_def]> ∅))
              (ev_event_details (example_event 43 false)) ∅ []).1.1
             !! composite_field_name "count" number_def)
  /\ ((composite_field_name "count" number_def ∈ ["species_string"])
      \/ (composite_field_name "count" number_def
          ∈ map pending_name
              (translate_details ["species_string"]
                 (<["species" := alpha_beta_def]> (<["count" := number_def]> ∅))
                 (ev_event_details (example_event 43 false)) ∅ []).1.2)).
Proof.
  apply (translated_fields_are_provisioned ["species_string"]
           (<["species" := alpha_beta_def]> (<["count" := number_def]> ∅))
           (ev_event_details (example_event 43 false)) ∅ []
           "count" (FScalar (PInt 3)) number_def).
  - simpl. apply list_elem_of_further, list_elem_of_here.
  - reflexivity.
Defined.

(** ** The reconciliation loop in general *)

Section EventLoopMore.

Variable parse_timestamp_ms : string -> option Z.
Variable parse_timestamp : string -> option float.
Variable _get_er_field_definitions :
  string -> res (pyval * gmap string field_def).
Variable include_incidents : bool.
Variable layer_fields : list string.
Variable existing_events : gmap string (pyval * pyval).

Local Abbreviation stale := (is_stale_skip parse_timestamp existing_events).
Local Abbreviation step :=
  (process_event parse_timestamp_ms parse_timestamp _get_er_field_definitions
     include_incidents layer_fields existing_events).
Local Abbreviation run :=
  (process_events parse_timestamp_ms parse_timestamp _get_er_field_definitions
     include_incidents layer_fields existing_events).

Ltac pending_suffix :=
  first
    [ exists []; split; [now rewrite app_nil_r | constructor]
    | match goal with
      | H : translate_details ?l ?d ?ds ?a ?p = (_, _, _) |- _ =>
          let new := fresh "new" in
          let Hnew := fresh "Hnew" in
          destruct (translate_details_pending_grows l d ds a p) as [new Hnew];
          rewrite H in Hnew; simpl in Hnew; exists new; exact Hnew
      end ].

Ltac no_objectid :=
  rewrite ?lookup_insert_ne by discriminate;
  match goal with
  | H : translate_details ?l ?d ?ds ?a ?p = (?t, _, _) |- ?t !! _ = None =>
      let Ho := fresh "Ho" in
      pose proof (translate_details_other_attrs l d ds "OBJECTID" eq_refl a p)
        as Ho;
      rewrite H in Ho; simpl in Ho; rewrite Ho;
      rewrite ?lookup_insert_ne by discriminate; apply lookup_empty
  end.

(** What one iteration that returns has done. *)
Lemma step_shape (st st' : sync_state) (event : er_event) :
  step st event = Ok st' ->
  event_count st' = S (event_count st)
  /\ (exists new_fields,
        fields_to_add st' = fields_to_add st ++ new_fields
        /\ Forall (fun f => _clean_field_name (pending_name f) = pending_name f)
                  new_fields)
  /\ ((features_to_add st' = features_to_add st
       /\ features_to_update st' = features_to_update st)
      \/ (existing_events !! py_str (ev_serial_number event) = None
          /\ exists f,
               features_to_add st' = features_to_add st ++ [f]
               /\ features_to_update st' = features_to_update st
               /\ attributes f !! "OBJECTID" = None)
      \/ (exists esri_event f,
            existing_events !! py_str (ev_serial_number event) = Some esri_event
            /\ features_to_update st' = features_to_update st ++ [f]
            /\ features_to_add st' = features_to_add st
            /\ attributes f !! "OBJECTID" = Some esri_event.1))
  /\ ((er_field_types st' = er_field_types st
       /\ er_event_type_names st' = er_event_type_names st)
      \/ (exists type_name field_defs,
            _get_er_field_definitions (ev_event_type event)
              = Ok (type_name, field_defs)
            /\ er_field_types st'
               = <[ev_event_type event := field_defs]> (er_field_types st)
            /\ er_event_type_names st'
               = <[ev_event_type event := type_name]> (er_event_type_names st))).
Proof.
  intros Hstep. unfold process_event, res_bind in Hstep.
  repeat (case_match; simplify_eq/=).
  all: split; [reflexivity|]; split; [pending_suffix|].
  all: split;
         [ first
             [ left; split; reflexivity
             | right; left; split; [reflexivity|]; eexists;
               split; [reflexivity|]; split; [reflexivity|]; simpl; no_objectid
             | right; right; eexists _, _; split; [reflexivity|];
               split; [reflexivity|]; split; [reflexivity|]; simpl;
               apply lookup_insert_eq ]
         | first
             [ left; split; reflexivity
             | right; eexists _, _; split; [reflexivity|];
               split; reflexivity ] ].
Qed.

(** X11: a pass that returns has counted every event, has only appended to
    the add list, the update list and the pending field list, and has
    appended at most one feature per event. *)
Theorem loop_appends (er_events : list er_event) :
  forall st st',
    run st er_events = Ok st' ->
    event_count st' = (event_count st + length er_events)%nat
    /\ exists added updated new_fields,
         features_to_add st' = features_to_add st ++ added
         /\ features_to_update st' = features_to_update st ++ updated
         /\ fields_to_add st' = fields_to_add st ++ new_fields
         /\ (length added + length updated <= length er_events)%nat.
Proof.
  induction er_events as [|event rest IH]; intros st st' Hrun; simpl in Hrun.
  - injection Hrun as <-. split; [simpl; lia|].
    exists [], [], []. rewrite !app_nil_r. simpl. auto.
  - destruct (step st event) as [st1|e] eqn:Hstep; simpl in Hrun; [|discriminate].
    destruct (IH st1 st' Hrun) as (Hcount & a & u & f & Ha & Hu & Hf & Hlen).
    destruct (step_shape st st1 event Hstep)
      as (Hc1 & (f1 & Hf1 & _) & Hfeatures & _).
    split; [simpl; lia|].
    rewrite Ha, Hu, Hf, Hf1.
    destruct Hfeatures as [[Ha1 Hu1]|[(_ & x & Ha1 & Hu1 & _)|(e & x & _ & Hu1 & Ha1 & _)]];
      rewrite Ha1, Hu1.
    + exists a, u, (f1 ++ f). rewrite <- !app_assoc. simpl.
      repeat split; auto; lia.
    + exists (x :: a), u, (f1 ++ f). rewrite <- !app_assoc. simpl.
      repeat split; auto; lia.
    + exists a, (x :: u), (f1 ++ f). rewrite <- !app_assoc. simpl.
      repeat split; auto; lia.
Qed.

Lemma objectid_invariant (er_events : list er_event) :
  forall st st',
    Forall (fun f => attributes f !! "OBJECTID" = None) (features_to_add st) ->
    Forall (fun f => exists key esri_event,
                       existing_events !! key = Some esri_event
                       /\ attributes f !! "OBJECTID" = Some esri_event.1)
           (features_to_update st) ->
    run st er_events = Ok st' ->
    Forall (fun f => attributes f !! "OBJECTID" = None) (features_to_add st')
    /\ Forall (fun f => exists key esri_event,
                          existing_events !! key = Some esri_event
                          /\ attributes f !! "OBJECTID" = Some esri_event.1)
              (features_to_update st').
Proof.
  induction er_events as [|event rest IH]; intros st st' Hadd Hupd Hrun;
    simpl in Hrun.
  - injection Hrun as <-. auto.
  - destruct (step st event) as [st1|e] eqn:Hstep; simpl in Hrun; [|discriminate].
    destruct (step_shape st st1 event Hstep) as (_ & _ & Hfeatures & _).
    apply (IH st1 st'); [| |exact Hrun].
    + destruct Hfeatures as [[Ha1 _]|[(_ & x & Ha1 & _ & Hx)|(e & x & _ & _ & Ha1 & _)]];
        rewrite Ha1; auto.
      apply Forall_app. split; [exact Hadd | repeat constructor; exact Hx].
    + destruct Hfeatures as [[_ Hu1]|[(_ & x & _ & Hu1 & _)|(e & x & He & Hu1 & _ & Hx)]];
        rewrite Hu1; auto.
      apply Forall_app. split; [exact Hupd | repeat constructor; eauto].
Qed.

(** X12: in a pass that returns, no feature of the add list carries an
    [OBJECTID] attribute, and every feature of the update list carries the
    [OBJECTID] that the index holds for some key. *)
Theorem objectid_only_on_updates (er_events : list er_event) (st : sync_state) :
  run initial_state er_events = Ok st ->
  Forall (fun f => attributes f !! "OBJECTID" = None) (features_to_add st)
  /\ Forall (fun f => exists key esri_event,
                        existing_events !! key = Some esri_event
                        /\ attributes f !! "OBJECTID" = Some esri_event.1)
            (features_to_update st).
Proof.
  intros Hrun.
  apply (objectid_invariant er_events initial_state st); [| |exact Hrun];
    constructor.
Qed.

Lemma schema_cache_invariant (er_events : list er_event) :
  forall st st',
    (forall ty,
       match er_field_types st !! ty, er_event_type_names st !! ty with
       | Some field_defs, Some type_name =>
           _get_er_field_definitions ty = Ok (type_name, field_defs)
       | None, None => True
       | _, _ => False
       end) ->
    run st er_events = Ok st' ->
    forall ty,
      match er_field_types st' !! ty, er_event_type_names st' !! ty with
      | Some field_defs, Some type_name =>
          _get_er_field_definitions ty = Ok (type_name, field_defs)
      | None, None => True
      | _, _ => False
      end.
Proof.
  induction er_events as [|event rest IH]; intros st st' Hinv Hrun;
    simpl in Hrun.
  - now injection Hrun as <-.
  - destruct (step st event) as [st1|e] eqn:Hstep; simpl in Hrun; [|discriminate].
    apply (IH st1 st'); [|exact Hrun].
    destruct (step_shape st st1 event Hstep) as (_ & _ & _ & Hcache).
    destruct Hcache as [[-> ->]|(name & defs & Hres & -> & ->)]; [exact Hinv|].
    intros ty. destruct (decide (ev_event_type event = ty)) as [<-|Hne].
    + now rewrite !lookup_insert_eq.
    + rewrite !lookup_insert_ne by exact Hne. apply Hinv.
Qed.

(** X13: in a pass that returns, the two schema caches hold the same event
    types, and for each the title and the field definitions that the schema
    resolver returns for it. *)
Theorem schema_cache_consistent (er_events : list er_event) (st : sync_state) :
  run initial_state er_events = Ok st ->
  forall ty,
    match er_field_types st !! ty, er_event_type_names st !! ty with
    | Some field_defs, Some type_name =>
        _get_er_field_definitions ty = Ok (type_name, field_defs)
    | None, None => True
    | _, _ => False
    end.
Proof.
  intros Hrun.
  apply (schema_cache_invariant er_events initial_state st); [|exact Hrun].
  intros ty. simpl. now rewrite !lookup_empty.
Qed.

(** With incidents excluded, an event that is a collection and is not
    skipped as stale is dropped: whether or not its key is in the index,
    nothing but the event count changes, and nothing of the event is
    parsed or resolved. *)
Theorem collection_gate_skips (st : sync_state) (event : er_event) :
  include_incidents = false ->
  py_truthy (ev_is_collection event) = true ->
  stale event = Ok false ->
  step st event
  = Ok (SyncState (features_to_add st) (features_to_update st)
          (fields_to_add st) (er_field_types st) (er_event_type_names st)
          (er_event_files st) (S (event_count st))).
Proof.
  intros Hinc Hcoll Hstale. unfold process_event.
  rewrite Hstale, Hinc, Hcoll. reflexivity.
Qed.

Lemma pending_names_clean_invariant (er_events : list er_event) :
  forall st st',
    Forall (fun f => _clean_field_name (pending_name f) = pending_name f)
           (fields_to_add st) ->
    run st er_events = Ok st' ->
    Forall (fun f => _clean_field_name (pending_name f) = pending_name f)
           (fields_to_add st').
Proof.
  induction er_events as [|event rest IH]; intros st st' Hinv Hrun;
    simpl in Hrun.
  - now injection Hrun as <-.
  - destruct (step st event) as [st1|e] eqn:Hstep; simpl in Hrun; [|discriminate].
    apply (IH st1 st'); [|exact Hrun].
    destruct (step_shape st st1 event Hstep) as (_ & (new & -> & Hnew) & _).
    apply Forall_app. auto.
Qed.

(** X14: the fields that a pass queues are submitted for provisioning under
    exactly the names they were queued and checked under: sanitizing the
    names again, as [_add_fields_to_layer] does, changes none of them. *)
Theorem pending_names_submitted_unchanged (er_events : list er_event)
    (st : sync_state) :
  run initial_state er_events = Ok st ->
  fs_name <$> new_field_specs (fields_to_add st)
  = pending_name <$> fields_to_add st.
Proof.
  intros Hrun.
  assert (Hclean :
    Forall (fun f => _clean_field_name (pending_name f) = pending_name f)
           (fields_to_add st)).
  { apply (pending_names_clean_invariant er_events initial_state st);
      [constructor | exact Hrun]. }
  unfold new_field_specs.
  induction Hclean as [|f fs Hf Hfs IH]; [reflexivity|].
  simpl. f_equal; [exact Hf | exact IH].
Qed.

End EventLoopMore.

Lemma loop_appends_witness :
  exists st',
    process_events example_parse example_timestamp example_schema true [] tie_index
      initial_state [example_event 42 false; example_event 43 false] = Ok st'
    /\ event_count st' = (event_count initial_state + 2)%nat
    /\ exists added updated new_fields,
         features_to_add st' = features_to_add initial_state ++ added
         /\ features_to_update st' = features_to_update initial_state ++ updated
         /\ fields_to_add st' = fields_to_add initial_state ++ new_fields
         /\ (length added + length updated <= 2)%nat.
Proof.
  eexists. split; [vm_compute; reflexivity|].
  apply (loop_appends example_parse example_timestamp example_schema true [] tie_index
           [example_event 42 false; example_event 43 false] initial_state).
  vm_compute. reflexivity.
Defined.

Lemma objectid_only_on_updates_witness :
  exists st,
    process_events example_parse example_timestamp example_schema true [] tie_index
      initial_state [example_event 42 false; example_event 43 false] = Ok st
    /\ Forall (fun f => attributes f !! "OBJECTID" = None) (features_to_add st)
    /\ Forall (fun f => exists key esri_event,
                          tie_index !! key = Some esri_event
                          /\ attributes f !! "OBJECTID" = Some esri_event.1)
              (features_to_update st).
Proof.
  eexists. split; [vm_compute; reflexivity|].
  apply (objectid_only_on_updates example_parse example_timestamp example_schema true [] tie_index
           [example_event 42 false; example_event 43 false]).
  vm_compute. reflexivity.
Defined.

Lemma schema_cache_consistent_witness :
  exists st,
    process_events example_parse example_timestamp example_schema true [] tie_index
      initial_state [example_event 42 false; example_event 43 false] = Ok st
    /\ forall ty,
         match er_field_types st !! ty, er_event_type_names st !! ty with
         | Some field_defs, Some type_name =>
             example_schema ty = Ok (type_name, field_defs)
         | None, None => True
         | _, _ => False
         end.
Proof.
  eexists. split; [vm_compute; reflexivity|].
  apply (schema_cache_consistent example_parse example_timestamp example_schema true [] tie_index
           [example_event 42 false; example_event 43 false]).
  vm_compute. reflexivity.
Defined.

Lemma collection_gate_skips_witness :
  process_event example_parse example_timestamp example_schema false [] tie_index
    initial_state (example_event 42 true)
  = Ok (SyncState [] [] [] ∅ ∅ [] 1).
Proof.
  apply (collection_gate_skips example_parse example_timestamp example_schema false [] tie_index
           initial_state (example_event 42 true)); reflexivity.
Defined.

Lemma pending_names_submitted_unchanged_witness :
  exists st,
    process_events example_parse example_timestamp example_schema true [] tie_index
      initial_state [example_event 42 false; example_event 43 false] = Ok st
    /\ fields_to_add st <> []
    /\ fs_name <$> new_field_specs (fields_to_add st)
       = pending_name <$> fields_to_add st.
Proof.
  eexists. split; [vm_compute; reflexivity|].
  split; [discriminate|].
  apply (pending_names_submitted_unchanged example_parse example_timestamp example_schema true []
           tie_index [example_event 42 false; example_event 43 false]).
  vm_compute. reflexivity.
Defined.

(** ** Observation points in general *)

Lemma point_feature_shape (parse_timestamp_ms : string -> option Z)
    (subj : subject) (point : observation) (f : feature) :
  point_feature parse_timestamp_ms subj point = Ok f ->
  attributes f !! "ER_OBSERVATION_ID" = Some (obs_id point)
  /\ attributes f !! "ER_SUBJECT_ID" = Some (subj_id subj)
  /\ (geometry f = None <-> obs_location point = None).
Proof.
  unfold point_feature, timestamp_ms.
  destruct (parse_timestamp_ms (obs_recorded_at point)) as [t|]; simpl;
    [|discriminate].
  destruct (obs_location point) as [loc|]; intros Hf; injection Hf as <-; simpl.
  - rewrite !lookup_insert_ne by discriminate.
    split; [reflexivity|]. split; [reflexivity|]. split; discriminate.
  - rewrite !lookup_insert_ne by discriminate.
    split; [reflexivity|]. split; [reflexivity|]. split; reflexivity.
Qed.

Lemma point_features_shape (parse_timestamp_ms : string -> option Z)
    (subj : subject) (points : list observation) :
  forall fs,
    point_features parse_timestamp_ms subj points = Ok fs ->
    Forall2 (fun f point =>
               attributes f !! "ER_OBSERVATION_ID" = Some (obs_id point)
               /\ attributes f !! "ER_SUBJECT_ID" = Some (subj_id subj)
               /\ (geometry f = None <-> obs_location point = None))
            fs points.
Proof.
  induction points as [|point rest IH]; intros fs Hfs; simpl in Hfs.
  - injection Hfs as <-. constructor.
  - destruct (point_feature parse_timestamp_ms subj point) as [f|e] eqn:Hf;
      simpl in Hfs; [|discriminate].
    destruct (point_features parse_timestamp_ms subj rest) as [fs'|e];
      simpl in Hfs; [|discriminate].
    injection Hfs as <-. constructor; [|now apply IH].
    exact (point_feature_shape parse_timestamp_ms subj point f Hf).
Qed.

(** X15: when the loop over a subject's observations returns, it has built
    one feature for each observation whose id, as a string, is not a key of
    the index, in the order of the observations and for no other
    observation; each feature carries the observation's id and the subject's
    id, and has a geometry exactly when the observation has a location. *)
Theorem one_feature_per_unknown_point (parse_timestamp_ms : string -> option Z)
    (subj : subject) (existing_points : gmap string (pyval * pyval))
    (er_observations : list observation) (features : list feature) :
  points_to_add parse_timestamp_ms subj existing_points er_observations []
    = Ok features ->
  Forall2 (fun f point =>
             attributes f !! "ER_OBSERVATION_ID" = Some (obs_id point)
             /\ attributes f !! "ER_SUBJECT_ID" = Some (subj_id subj)
             /\ (geometry f = None <-> obs_location point = None))
          features (unknown_points existing_points er_observations).
Proof.
  rewrite points_to_add_spec. intros H.
  apply (point_features_shape parse_timestamp_ms subj).
  destruct (point_features parse_timestamp_ms subj _) as [fs|e]; simpl in H;
    [|discriminate].
  now injection H as <-.
Qed.

Section TrackPointMore.

Variable world : Type.
Variable layer_query : string -> world -> res (list row) * world.
Variable layer_edit_features : edit_call -> world -> res edit_response * world.
Variable das_get_subject_observations :
  pyval -> Z -> world -> res (list observation) * world.
Variable strftime : Z -> string.
Variable parse_timestamp_ms : string -> option Z.

Local Abbreviation sync :=
  (sync_subject_points world layer_query layer_edit_features
     das_get_subject_observations strftime parse_timestamp_ms).

(** What the iteration for a synced subject does once the tracking service
    and the layer have answered. *)
Lemma sync_subject_points_answered (oldest_date : Z) (subj : subject)
    (w w1 w2 : world) (log : list log_entry)
    (er_observations : list observation) (existing : list row)
    (existing_points : gmap string (pyval * pyval)) :
  subject_is_synced parse_timestamp_ms oldest_date subj ->
  das_get_subject_observations (subj_id subj) oldest_date w
    = (Ok er_observations, w1) ->
  layer_query (points_where strftime oldest_date (subj_id subj)) w1
    = (Ok existing, w2) ->
  index_rows "ER_OBSERVATION_ID" existing ∅ = Ok existing_points ->
  let s2 := (w2, log ++ [LogQuery (points_where strftime oldest_date (subj_id subj))
                           (Ok existing)]) in
  sync oldest_date subj (w, log)
  = match points_to_add parse_timestamp_ms subj existing_points er_observations [] with
    | Raise e => (Raise e, s2)
    | Ok [] => (Ok tt, s2)
    | Ok features_to_add =>
        (match (_upsert_features world layer_edit_features features_to_add [] 50 s2).1 with
         | Ok _ => Ok tt
         | Raise e => Raise e
         end,
         (_upsert_features world layer_edit_features features_to_add [] 50 s2).2)
    end.
Proof.
  intros (Htracks & d & t & Hd & Hne & Ht & Hold) Hobs Hquery Hidx s2.
  unfold sync_subject_points. rewrite Htracks, Hd. simpl.
  apply String.eqb_neq in Hne. rewrite Hne, Ht.
  replace (t <? oldest_date)%Z with false by (symmetry; lia).
  unfold m_bind at 1. unfold get_subject_observations. rewrite Hobs.
  unfold m_bind at 1. unfold _get_existing_esri_points.
  unfold m_bind at 1. unfold query.
  change (("EditDate > '" +:+ strftime oldest_date +:+ "'"))
    with (points_where strftime oldest_date PNone).
  assert (Hwhere :
    match subj_id subj with
    | PNone => points_where strftime oldest_date PNone
    | _ => points_where strftime oldest_date PNone
             +:+ " and ER_SUBJECT_ID = '" +:+ py_str (subj_id subj) +:+ "'"
    end = points_where strftime oldest_date (subj_id subj)).
  { unfold points_where. destruct (subj_id subj); reflexivity. }
  rewrite Hwhere, Hquery. unfold m_lift at 1. rewrite Hidx.
  unfold m_bind at 1. unfold m_lift at 1.
  destruct (points_to_add parse_timestamp_ms subj existing_points
              er_observations []) as [[|f fs]|e]; try reflexivity.
  unfold m_bind at 1. fold s2.
  destruct (_upsert_features world layer_edit_features (f :: fs) [] 50 s2)
    as [[counts|e] s3]; reflexivity.
Qed.

(** X16: when every observation of a synced subject is already in the
    index that the layer's answer gives, the iteration for that subject
    makes the one query and no edit call: running the synchronization again
    adds nothing. *)
Theorem known_points_not_resent (oldest_date : Z) (subj : subject)
    (w w1 w2 : world) (log : list log_entry)
    (er_observations : list observation) (existing : list row)
    (existing_points : gmap string (pyval * pyval)) :
  subject_is_synced parse_timestamp_ms oldest_date subj ->
  das_get_subject_observations (subj_id subj) oldest_date w
    = (Ok er_observations, w1) ->
  layer_query (points_where strftime oldest_date (subj_id subj)) w1
    = (Ok existing, w2) ->
  index_rows "ER_OBSERVATION_ID" existing ∅ = Ok existing_points ->
  Forall (fun point => is_Some (existing_points !! py_str (obs_id point)))
         er_observations ->
  sync oldest_date subj (w, log)
  = (Ok tt,
     (w2, log ++ [LogQuery (points_where strftime oldest_date (subj_id subj))
                    (Ok existing)])).
Proof.
  intros Hsynced Hobs Hquery Hidx Hknown.
  rewrite (sync_subject_points_answered oldest_date subj w w1 w2 log
             er_observations existing existing_points Hsynced Hobs Hquery Hidx).
  rewrite points_to_add_spec.
  assert (Hnone : unknown_points existing_points er_observations = []).
  { unfold unknown_points. clear -Hknown.
    induction Hknown as [|point rest [v Hv] Hrest IH]; [reflexivity|].
    rewrite filter_cons, decide_False by (rewrite Hv; discriminate). exact IH. }
  rewrite Hnone. reflexivity.
Qed.

(** X17: when an observation of a synced subject that the index does not
    hold has a [recorded_at] that cannot be parsed, the iteration raises
    after the query and before any edit call: none of the subject's
    observations is added. *)
Theorem unparsed_point_adds_nothing (oldest_date : Z) (subj : subject)
    (w w1 w2 : world) (log : list log_entry)
    (er_observations : list observation) (existing : list row)
    (existing_points : gmap string (pyval * pyval)) :
  subject_is_synced parse_timestamp_ms oldest_date subj ->
  das_get_subject_observations (subj_id subj) oldest_date w
    = (Ok er_observations, w1) ->
  layer_query (points_where strftime oldest_date (subj_id subj)) w1
    = (Ok existing, w2) ->
  index_rows "ER_OBSERVATION_ID" existing ∅ = Ok existing_points ->
  Exists (fun point => parse_timestamp_ms (obs_recorded_at point) = None)
         (unknown_points existing_points er_observations) ->
  sync oldest_date subj (w, log)
  = (Raise (AttributeError "'NoneType' object has no attribute 'timestamp'"),
     (w2, log ++ [LogQuery (points_where strftime oldest_date (subj_id subj))
                    (Ok existing)])).
Proof.
  intros Hsynced Hobs Hquery Hidx Hbad.
  rewrite (sync_subject_points_answered oldest_date subj w w1 w2 log
             er_observations existing existing_points Hsynced Hobs Hquery Hidx).
  rewrite points_to_add_spec.
  assert (Hraise :
    point_features parse_timestamp_ms subj
      (unknown_points existing_points er_observations)
    = Raise (AttributeError "'NoneType' object has no attribute 'timestamp'")).
  { clear -Hbad.
    induction Hbad as [point rest Hpoint|point rest Hrest IH]; simpl.
    - unfold point_feature, timestamp_ms. now rewrite Hpoint.
    - rewrite IH. unfold point_feature, timestamp_ms.
      destruct (parse_timestamp_ms (obs_recorded_at point)); [|reflexivity].
      simpl. destruct (obs_location point); reflexivity. }
  rewrite Hraise. reflexivity.
Qed.

End TrackPointMore.

Lemma one_feature_per_unknown_point_witness :
  exists features,
    points_to_add example_parse example_subject
      (<["o1" := (PInt 1, PInt 1609545600000)]> ∅) example_observations []
    = Ok features
    /\ Forall2 (fun f point =>
                  attributes f !! "ER_OBSERVATION_ID" = Some (obs_id point)
                  /\ attributes f !! "ER_SUBJECT_ID" = Some (subj_id example_subject)
                  /\ (geometry f = None <-> obs_location point = None))
               features
               (unknown_points (<["o1" := (PInt 1, PInt 1609545600000)]> ∅)
                  example_observations).
Proof.
  eexists. split; [vm_compute; reflexivity|].
  apply (one_feature_per_unknown_point example_parse example_subject
           (<["o1" := (PInt 1, PInt 1609545600000)]> ∅) example_observations).
  vm_compute. reflexivity.
Defined.

Lemma example_subject_is_synced :
  subject_is_synced example_parse 1606953600000 example_subject.
Proof.
  split; [reflexivity|].
  exists "2021-01-02T00:00:00+00:00", 1609545600000%Z.
  split; [reflexivity|]. split; [discriminate|]. split; [reflexivity|].
  discriminate.
Defined.

Lemma known_points_not_resent_witness :
  sync_subject_points unit example_full_query strict_layer
    example_das_observations example_strftime example_parse
    1606953600000 example_subject (tt, [])
  = (Ok tt,
     (tt, [] ++ [LogQuery (points_where example_strftime 1606953600000
                             (subj_id example_subject))
                   (Ok [example_point_row "o1"; example_point_row "o2"])])).
Proof.
  eapply (known_points_not_resent unit example_full_query strict_layer
            example_das_observations example_strftime example_parse
            1606953600000 example_subject tt tt tt [] example_observations).
  - exact example_subject_is_synced.
  - reflexivity.
  - reflexivity.
  - vm_compute. reflexivity.
  - repeat constructor; eexists; vm_compute; reflexivity.
Defined.

Lemma unparsed_point_adds_nothing_witness :
  sync_subject_points unit example_partial_query strict_layer
    example_das_unparsed example_strftime example_parse
    1606953600000 example_subject (tt, [])
  = (Raise (AttributeError "'NoneType' object has no attribute 'timestamp'"),
     (tt, [] ++ [LogQuery (points_where example_strftime 1606953600000
                             (subj_id example_subject))
                   (Ok [example_point_row "o1"])])).
Proof.
  eapply (unparsed_point_adds_nothing unit example_partial_query strict_layer
            example_das_unparsed example_strftime example_parse
            1606953600000 example_subject tt tt tt []).
  - exact example_subject_is_synced.
  - reflexivity.
  - reflexivity.
  - vm_compute. reflexivity.
  - vm_compute. apply Exists_cons_tl, Exists_cons_hd. reflexivity.
Defined.

(** ** The schema resolver *)

Lemma field_defs_of_props_spec (definition : option (list schema_def))
    (props : list (string * schema_prop)) :
  forall (acc field_defs : gmap string field_def),
    field_defs_of_props definition props acc = Ok field_defs ->
    forall name fd,
      field_defs !! name = Some fd
      <-> (exists pre prop post value_map,
             props = pre ++ (name, prop) :: post
             /\ (name ∉ post.*1)
             /\ prop_value_map definition prop = Ok value_map
             /\ fd = FieldDef (sp_type prop) (sp_title prop) value_map)
          \/ (acc !! name = Some fd /\ (name ∉ props.*1)).
Proof.
  induction props as [|[prop_name prop] rest IH]; intros acc field_defs Hdefs name fd.
  - simpl in Hdefs. injection Hdefs as <-. split.
    + intros H. right. split; [exact H | apply not_elem_of_nil].
    + intros [(pre & p & post & vm & Heq & _)|[H _]]; [|exact H].
      now destruct pre.
  - simpl in Hdefs.
    destruct (prop_value_map definition prop) as [vm|e] eqn:Hvm; simpl in Hdefs;
      [|discriminate].
    rewrite (IH _ _ Hdefs name fd). split.
    + intros [(pre & p & post & vm' & Heq & Hpost & Hp & Hfd)|[Hacc Hrest]].
      * left. exists ((prop_name, prop) :: pre), p, post, vm'. subst rest. auto.
      * destruct (decide (prop_name = name)) as [<-|Hne].
        -- rewrite lookup_insert_eq in Hacc. injection Hacc as <-.
           left. exists [], prop, rest, vm. auto.
        -- rewrite lookup_insert_ne in Hacc by exact Hne.
           right. split; [exact Hacc|]. simpl.
           rewrite not_elem_of_cons. auto.
    + intros [(pre & p & post & vm' & Heq & Hpost & Hp & Hfd)|[Hacc Hrest]].
      * destruct pre as [|p0 pre]; simpl in Heq.
        -- injection Heq as -> -> ->.
           rewrite Hvm in Hp. injection Hp as <-. subst fd.
           right. split; [apply lookup_insert_eq | exact Hpost].
        -- injection Heq as _ ->.
           left. exists pre, p, post, vm'. auto.
      * simpl in Hrest. apply not_elem_of_cons in Hrest as [Hne Hrest].
        right. split; [|exact Hrest].
        rewrite lookup_insert_ne by congruence. exact Hacc.
Qed.

(** X18: when the resolver returns, it returns the schema's title, and a
    field definition for exactly the names of the schema's properties: the
    type, the title and the value map of the last property of that name. *)
Theorem resolved_field_definitions
    (get_event_schema : string -> res er_schema) (event_type : string)
    (schema : er_schema) (type_name : pyval)
    (field_defs : gmap string field_def) :
  get_event_schema event_type = Ok schema ->
  _get_er_field_definitions get_event_schema event_type
    = Ok (type_name, field_defs) ->
  type_name = sch_title schema
  /\ forall name fd,
       field_defs !! name = Some fd
       <-> exists pre prop post value_map,
             sch_properties schema = pre ++ (name, prop) :: post
             /\ (name ∉ post.*1)
             /\ prop_value_map (sch_definition schema) prop = Ok value_map
             /\ fd = FieldDef (sp_type prop) (sp_title prop) value_map.
Proof.
  intros Hschema Hres. unfold _get_er_field_definitions in Hres.
  rewrite Hschema in Hres. simpl in Hres.
  destruct (field_defs_of_props (sch_definition schema) (sch_properties schema) ∅)
    as [defs|e] eqn:Hdefs; simpl in Hres; [|discriminate].
  injection Hres as <- <-. split; [reflexivity|]. intros name fd.
  rewrite (field_defs_of_props_spec _ _ ∅ defs Hdefs name fd).
  split; [|auto]. intros [H|[H _]]; [exact H|].
  rewrite lookup_empty in H. discriminate.
Qed.

Lemma resolved_field_definitions_witness :
  exists type_name field_defs,
    _get_er_field_definitions (fun _ => Ok example_enum_schema) "rating_rep"
      = Ok (type_name, field_defs)
    /\ type_name = sch_title example_enum_schema
    /\ forall name fd,
         field_defs !! name = Some fd
         <-> exists pre prop post value_map,
               sch_properties example_enum_schema = pre ++ (name, prop) :: post
               /\ (name ∉ post.*1)
               /\ prop_value_map (sch_definition example_enum_schema) prop
                  = Ok value_map
               /\ fd = FieldDef (sp_type prop) (sp_title prop) value_map.
Proof.
  eexists _, _. split; [vm_compute; reflexivity|].
  apply (resolved_field_definitions (fun _ => Ok example_enum_schema)
           "rating_rep" example_enum_schema).
  - reflexivity.
  - vm_compute. reflexivity.
Defined.

(** X19: a property without ['key'] that has ['enumNames'] gets a value map
    whose keys are all strings: a string element is substituted by the name
    that ['enumNames'] gives it, and an element that is not a string (a
    number, a boolean, [None]) is never substituted. *)
Theorem enum_names_map_strings_only (definition : option (list schema_def))
    (prop : schema_prop) (enumNames : gmap string pyval) :
  sp_key prop = None ->
  sp_enumNames prop = Some enumNames ->
  exists value_map,
    prop_value_map definition prop = Ok (Some value_map)
    /\ (forall s,
          substituted (FieldDef (sp_type prop) (sp_title prop) (Some value_map))
            (PStr s)
          = default (PStr s) (enumNames !! s))
    /\ (forall x,
          (forall s, x <> PStr s) ->
          substituted (FieldDef (sp_type prop) (sp_title prop) (Some value_map)) x
          = x).
Proof.
  intros Hkey Henum. unfold prop_value_map. rewrite Hkey, Henum.
  eexists. split; [reflexivity|]. unfold substituted. simpl. split.
  - intros s. now rewrite (lookup_kmap KStr).
  - intros x Hx.
    assert (Hnone : (kmap KStr enumNames : gmap pykey pyval) !! py_key x = None).
    { apply lookup_kmap_None; [typeclasses eauto|]. intros s Hs.
      destruct x as [s'| |[]|]; simpl in Hs; try discriminate.
      exfalso. now apply (Hx s'). }
    now rewrite Hnone.
Qed.

Lemma enum_names_map_strings_only_witness :
  exists value_map,
    prop_value_map None
      (SchemaProp (Some "number") (Some "Rating") None
         (Some (<["1" := PStr "Low"]> (<["2" := PStr "High"]> ∅))) None)
    = Ok (Some value_map)
    /\ substituted (FieldDef (Some "number") (Some "Rating") (Some value_map))
         (PStr "1") = PStr "Low"
    /\ substituted (FieldDef (Some "number") (Some "Rating") (Some value_map))
         (PInt 1) = PInt 1.
Proof.
  destruct (enum_names_map_strings_only None
              (SchemaProp (Some "number") (Some "Rating") None
                 (Some (<["1" := PStr "Low"]> (<["2" := PStr "High"]> ∅))) None)
              (<["1" := PStr "Low"]> (<["2" := PStr "High"]> ∅))
              eq_refl eq_refl) as (vm & Hvm & Hstr & Hother).
  exists vm. split; [exact Hvm|]. split.
  - exact (Hstr "1").
  - apply Hother. discriminate.
Defined.

Lemma value_map_in_defs_app (pre post : list schema_def) (key : pyval) :
  value_map_in_defs (pre ++ post) key
  = match value_map_in_defs pre key with
    | Ok None => value_map_in_defs post key
    | found => found
    end.
Proof.
  induction pre as [|[s|items] pre IH]; simpl; [reflexivity | reflexivity |].
  destruct (value_map_in_items (default [] items) key) as [[vm|]|e]; simpl;
    [reflexivity | exact IH | reflexivity].
Qed.

(** X20: a bare string in the definition list, met before any item that
    matches the key and has a title map, makes the value-map lookup raise
    [AttributeError], whatever follows the string. *)
Theorem bare_string_definition_raises (pre post : list schema_def)
    (s : string) (key : pyval) :
  value_map_in_defs pre key = Ok None ->
  __get_value_map_from_prop_def (pre ++ DefStr s :: post) key
  = Raise (AttributeError "'str' object has no attribute 'get'").
Proof.
  intros Hpre. unfold __get_value_map_from_prop_def.
  now rewrite value_map_in_defs_app, Hpre.
Qed.

Lemma bare_string_definition_raises_witness :
  __get_value_map_from_prop_def
    ([DefDict (Some [ItemDict (Some (PStr "behavior")) (Some [])])]
       ++ DefStr "count"
       :: [DefDict (Some [ItemDict (Some (PStr "species"))
                            (Some [(PStr "a", PStr "Alpha")])])])
    (PStr "species")
  = Raise (AttributeError "'str' object has no attribute 'get'").
Proof.
  apply (bare_string_definition_raises
           [DefDict (Some [ItemDict (Some (PStr "behavior")) (Some [])])]
           [DefDict (Some [ItemDict (Some (PStr "species"))
                             (Some [(PStr "a", PStr "Alpha")])])]
           "count" (PStr "species")).
  reflexivity.
Defined.

(** Resolving an event type whose schema has a keyed property and such a
    definition list then raises too. *)
Example keyed_schema_raises :
  _get_er_field_definitions (fun _ => Ok example_keyed_schema) "wildlife_sighting_rep"
  = Raise (AttributeError "'str' object has no attribute 'get'").
Proof. reflexivity. Qed.
(** ** The pass of [upsert_events_from_er] *)

Section EventsPassFacts.

Variable world : Type.
Variable layer_properties_fields : world -> list string.
Variable layer_query : string -> world -> res (list row) * world.
Variable layer_add_to_definition :
  list field_spec -> world -> res bool * world.
Variable layer_edit_features : edit_call -> world -> res edit_response * world.
Variable das_get_events : bool -> Z -> world -> res (list er_event) * world.
Variable strftime : Z -> string.
Variable parse_timestamp_ms : string -> option Z.
Variable parse_timestamp : string -> option float.
Variable resolve_field_definitions :
  string -> res (pyval * gmap string field_def).
Variable now : Z.

Local Abbreviation prepare :=
  (prepare_events_pass world layer_properties_fields layer_query
     layer_add_to_definition das_get_events strftime now).
Local Abbreviation submit :=
  (submit_events_pass world layer_add_to_definition layer_edit_features).
Local Abbreviation pass :=
  (upsert_events_features world layer_properties_fields layer_query
     layer_add_to_definition layer_edit_features das_get_events strftime
     parse_timestamp_ms parse_timestamp resolve_field_definitions now).

Lemma existing_events_appends (P : log_entry -> Prop) (oldest_date : option Z) :
  (forall where_ reply, P (LogQuery where_ reply)) ->
  appends_only P (_get_existing_esri_events world layer_query strftime oldest_date).
Proof.
  intros HP w log. unfold _get_existing_esri_events, query.
  destruct (layer_query (events_where strftime oldest_date) w) as [[rows|e] w'];
    simpl; [|destruct (str_contains _ _); simpl];
    (eexists; split; [reflexivity | repeat constructor; apply HP]).
Qed.

Lemma ensure_attributes_appends (fields : list field_spec) :
  appends_only not_edit_call
    (_ensure_attributes_in_layer world layer_properties_fields
       layer_add_to_definition fields).
Proof.
  unfold _ensure_attributes_in_layer.
  apply appends_bind; [apply appends_properties_fields|]. intros layer_fields.
  destruct (filter _ fields) as [|field new_fields]; [apply appends_ret|].
  apply appends_bind; [|intros ok; apply appends_ret].
  apply appends_add_to_definition. intros reply. exact I.
Qed.

Lemma prepare_appends (oldest_date : option Z) (include_incidents : bool) :
  appends_only not_edit_call (prepare oldest_date include_incidents).
Proof.
  unfold prepare_events_pass.
  apply appends_bind; [apply ensure_attributes_appends|]. intros _.
  apply appends_bind.
  { intros w log. exists []. unfold get_events.
    destruct (das_get_events _ _ w) as [reply w'].
    split; [now rewrite app_nil_r | constructor]. }
  intros er_events.
  apply appends_bind; [apply existing_events_appends; intros; exact I|].
  intros existing_events.
  apply appends_bind; [apply appends_properties_fields|].
  intros layer_fields. apply appends_ret.
Qed.

Lemma add_fields_appends (fields : list pending_field) :
  appends_only not_edit_call
    (_add_fields_to_layer world layer_add_to_definition fields).
Proof.
  unfold _add_fields_to_layer.
  apply appends_bind; [apply appends_add_to_definition; intros; exact I|].
  intros [|]; [apply appends_ret | apply appends_lift].
Qed.

(** X21: when the loop over the events raises, the pass raises the same
    exception and leaves the world and the log as they were once the events
    and the index had been fetched: no pending field is provisioned and no
    feature is added or updated, whatever the events before the failing one
    were; the calls made until then are no edit calls. *)
Theorem translation_failure_submits_nothing (oldest_date : option Z)
    (include_incidents : bool) (s s1 : world * list log_entry)
    (er_events : list er_event)
    (existing_events : gmap string (pyval * pyval))
    (layer_fields : list string) (e : exn) :
  prepare oldest_date include_incidents s
    = (Ok (er_events, existing_events, layer_fields), s1) ->
  process_events parse_timestamp_ms parse_timestamp resolve_field_definitions
    include_incidents layer_fields existing_events initial_state er_events
  = Raise e ->
  pass oldest_date include_incidents s = (Raise e, s1)
  /\ exists calls, s1.2 = s.2 ++ calls /\ Forall not_edit_call calls.
Proof.
  intros Hprep Hloop. split.
  - unfold upsert_events_features. unfold m_bind at 1. rewrite Hprep.
    unfold m_bind at 1. unfold m_lift. now rewrite Hloop.
  - destruct s as [w log].
    destruct (prepare_appends oldest_date include_incidents w log)
      as (ext & Hext & HP).
    rewrite Hprep in Hext. eauto.
Qed.

(** X22: when fields are pending and the layer does not answer their
    provisioning with a success, the pass raises after that one call: no
    feature is added or updated. *)
Theorem failed_provisioning_prevents_edits (st : sync_state)
    (w w' : world) (log : list log_entry) (reply : res bool) :
  fields_to_add st <> [] ->
  layer_add_to_definition (new_field_specs (fields_to_add st)) w = (reply, w') ->
  reply <> Ok true ->
  exists e,
    submit st (w, log)
    = (Raise e,
       (w', log ++ [LogAddToDefinition (new_field_specs (fields_to_add st)) reply])).
Proof.
  intros Hpending Hreply Hfail. unfold submit_events_pass.
  destruct (fields_to_add st) as [|field fields] eqn:Hfields; [congruence|].
  unfold m_bind at 1. unfold _add_fields_to_layer, m_bind at 1.
  unfold add_to_definition. rewrite Hreply.
  destruct reply as [[|]|e]; [congruence | |]; eexists; reflexivity.
Qed.

Lemma submit_order (st : sync_state) (w : world) (log : list log_entry) :
  exists pre add_calls update_calls,
    (submit st (w, log)).2.2 = log ++ pre ++ add_calls ++ update_calls
    /\ Forall not_edit_call pre
    /\ Forall is_add_call add_calls
    /\ Forall is_update_call update_calls.
Proof.
  unfold submit_events_pass, m_bind.
  assert (Hfields : appends_only not_edit_call
            match fields_to_add st with
            | [] => m_ret world tt
            | _ :: _ => _add_fields_to_layer world layer_add_to_definition
                          (fields_to_add st)
            end).
  { destruct (fields_to_add st); [apply appends_ret | apply add_fields_appends]. }
  destruct (Hfields w log) as (pre & Hpre & HP).
  destruct (fields_to_add st) as [|field fields] eqn:Hf.
  - simpl in *.
    destruct (upsert_features_call_order world layer_edit_features
                (features_to_add st) (features_to_update st) 50 w log)
      as (adds & upds & Hlog & Ha & Hu).
    destruct (features_to_add st) as [|fa fas];
      [destruct (features_to_update st) as [|fu fus]|].
    + exists [], [], []. simpl. rewrite app_nil_r. auto.
    + exists [], adds, upds. simpl in *.
      destruct (_upsert_features _ _ _ _ _ _) as [[c|e] s']; simpl in *; auto.
    + exists [], adds, upds. simpl in *.
      destruct (_upsert_features _ _ _ _ _ _) as [[c|e] s']; simpl in *; auto.
  - destruct (_add_fields_to_layer world layer_add_to_definition
                (field :: fields) (w, log)) as [[[]|e] [w1 log1]];
      simpl in Hpre; subst log1.
    + destruct (upsert_features_call_order world layer_edit_features
                  (features_to_add st) (features_to_update st) 50 w1 (log ++ pre))
        as (adds & upds & Hlog & Ha & Hu).
      destruct (features_to_add st) as [|fa fas];
        [destruct (features_to_update st) as [|fu fus]|].
      * exists pre, [], []. simpl. rewrite app_nil_r. auto.
      * exists pre, adds, upds. simpl in *.
        destruct (_upsert_features _ _ _ _ _ _) as [[c|e] s']; simpl in *;
          rewrite Hlog, <- app_assoc; auto.
      * exists pre, adds, upds. simpl in *.
        destruct (_upsert_features _ _ _ _ _ _) as [[c|e] s']; simpl in *;
          rewrite Hlog, <- app_assoc; auto.
    + exists pre, [], []. simpl. rewrite app_nil_r. auto.
Qed.

(** Up to the attachment phase, the calls a pass makes on the layer come in
    this order: first the calls that are no feature edits, then the add
    calls, then the update calls. *)
Lemma events_features_call_order (oldest_date : option Z)
    (include_incidents : bool) (w : world) (log : list log_entry) :
  exists pre add_calls update_calls,
    (pass oldest_date include_incidents (w, log)).2.2
    = log ++ pre ++ add_calls ++ update_calls
    /\ Forall not_edit_call pre
    /\ Forall is_add_call add_calls
    /\ Forall is_update_call update_calls.
Proof.
  unfold upsert_events_features. unfold m_bind at 1.
  destruct (prepare_appends oldest_date include_incidents w log)
    as (ext & Hext & HP).
  destruct (prepare oldest_date include_incidents (w, log))
    as [[[[er_events existing_events] layer_fields]|e] [w1 log1]];
    simpl in Hext; subst log1.
  - unfold m_bind at 1. unfold m_lift.
    destruct (process_events _ _ _ _ _ _ _) as [st|e].
    + unfold m_bind at 1.
      destruct (submit_order st w1 (log ++ ext))
        as (pre & adds & upds & Hlog & Hpre & Ha & Hu).
      exists (ext ++ pre), adds, upds.
      destruct (submit st (w1, log ++ ext)) as [[[]|e] [w2 log2]];
        simpl in *; subst log2; rewrite <- !app_assoc;
        (split; [reflexivity|]); (split; [now apply Forall_app|]); auto.
    + exists ext, [], []. simpl. rewrite app_nil_r. auto.
  - exists ext, [], []. simpl. rewrite app_nil_r. auto.
Qed.

End EventsPassFacts.
Lemma translation_failure_submits_nothing_witness :
  exists s1,
    upsert_events_features unit (fun _ => []) example_empty_query refusing_layer
      strict_layer example_das_events example_strftime example_parse example_timestamp
      example_schema 1609545600000 None true (tt, [])
    = (Raise (AttributeError "'NoneType' object has no attribute 'timestamp'"), s1)
    /\ exists calls, s1.2 = [] ++ calls /\ Forall not_edit_call calls.
Proof.
  eexists.
  eapply (translation_failure_submits_nothing unit (fun _ => [])
            example_empty_query refusing_layer strict_layer example_das_events
            example_strftime example_parse example_timestamp example_schema 1609545600000
            None true (tt, [])).
  - vm_compute. reflexivity.
  - vm_compute. reflexivity.
Defined.

Lemma failed_provisioning_prevents_edits_witness :
  exists e,
    submit_events_pass unit refusing_layer strict_layer example_pending_state
      (tt, [])
    = (Raise e,
       (tt, [] ++ [LogAddToDefinition
                     (new_field_specs (fields_to_add example_pending_state))
                     (Ok false)])).
Proof.
  apply (failed_provisioning_prevents_edits unit refusing_layer strict_layer
           example_pending_state tt tt [] (Ok false)).
  - discriminate.
  - reflexivity.
  - discriminate.
Defined.

(** ** The attachment phase *)

Section AttachmentFacts.

Variable world : Type.
Variable layer_query : string -> world -> res (list row) * world.
Variable strftime : Z -> string.
Variable att_get_list : pyval -> world -> res (list attachment) * world.
Variable att_delete : pyval -> pyval -> world -> res unit * world.
Variable att_add : pyval -> string -> world -> res unit * world.
Variable das_get_file : pyval -> world -> res string * world.
Variable fs_write : string -> string -> world -> res unit * world.
Variable tmpdir_name : string.

Local Abbreviation replace_event :=
  (replace_event_attachments world att_get_list att_delete att_add
     das_get_file fs_write tmpdir_name).

Lemma deletes_answered (oid : pyval) (attachments : list attachment) :
  (forall oid' id w, exists reply w', att_delete oid' id w = (Ok reply, w')) ->
  forall w calls log,
    exists w',
      m_foldl (att_world world)
        (fun _ existing_file =>
           attachments_delete world att_delete oid (att_id existing_file))
        tt attachments ((w, calls), log)
      = (Ok tt, ((w', calls ++ delete_calls oid attachments), log)).
Proof.
  intros Hdel. induction attachments as [|a rest IH]; intros w calls log; simpl.
  - exists w. unfold m_ret, delete_calls. simpl. now rewrite app_nil_r.
  - destruct (Hdel oid (att_id a) w) as ([] & w1 & Hw1).
    destruct (IH w1 (calls ++ [AttDelete oid (att_id a) (Ok tt)]) log)
      as (w' & Hrest).
    exists w'. unfold m_bind at 1. unfold attachments_delete at 1.
    rewrite Hw1, Hrest. unfold delete_calls. simpl.
    now rewrite <- app_assoc.
Qed.

Lemma attaches_answered (oid : pyval) (files : list er_file) :
  (forall url w, exists content w', das_get_file url w = (Ok content, w')) ->
  (forall path content w, exists reply w',
     fs_write path content w = (Ok reply, w')) ->
  (forall oid' path w, exists reply w', att_add oid' path w = (Ok reply, w')) ->
  Forall named_file files ->
  forall w calls log,
    exists contents w',
      length contents = length files
      /\ m_foldl (att_world world)
           (fun _ file =>
              attach_file world att_add das_get_file fs_write tmpdir_name oid file)
           tt files ((w, calls), log)
         = (Ok tt,
            ((w', calls ++ concat (zip_with (attach_calls tmpdir_name oid)
                                     files contents)), log)).
Proof.
  intros Hget Hwrite Hadd Hnamed.
  induction Hnamed as [|file rest [filename Hname] Hrest IH]; intros w calls log;
    simpl.
  - exists [], w. split; [reflexivity|]. unfold m_ret. simpl.
    now rewrite app_nil_r.
  - destruct (Hget (file_url file) w) as (content & w1 & Hw1).
    destruct (Hwrite (tmpdir_name +:+ "/" +:+ filename) content w1)
      as ([] & w2 & Hw2).
    destruct (Hadd oid (tmpdir_name +:+ "/" +:+ filename) w2)
      as ([] & w3 & Hw3).
    destruct (IH w3
                (calls ++ attach_calls tmpdir_name oid file content) log)
      as (contents & w' & Hlen & Hrun).
    exists (content :: contents), w'. split; [simpl; now rewrite Hlen|].
    unfold m_bind at 1. unfold attach_file at 1.
    unfold m_bind at 1. unfold m_lift at 1. unfold tmp_path. rewrite Hname.
    unfold m_bind at 1. unfold get_file at 1. rewrite Hw1.
    unfold m_bind at 1. unfold write_file at 1. rewrite Hw2.
    unfold attachments_add at 1. rewrite Hw3.
    assert (Hcalls :
      ((calls ++ [AttGetFile (file_url file) (Ok content)])
         ++ [AttWrite (tmpdir_name +:+ "/" +:+ filename) content (Ok tt)])
        ++ [AttAdd oid (tmpdir_name +:+ "/" +:+ filename) (Ok tt)]
      = calls ++ attach_calls tmpdir_name oid file content).
    { unfold attach_calls. rewrite Hname. simpl. now rewrite <- !app_assoc. }
    rewrite Hcalls, Hrun. simpl. now rewrite <- app_assoc.
Qed.

(** X24: for an event whose key is in the index, when the layer lists the
    attachments of its feature and every later call is answered, the
    attachments are replaced in full: every listed attachment is deleted, in
    order, and then every file of the event is downloaded, written to the
    temporary directory and attached, in order, whatever the names of the
    attachments that were there. *)
Theorem attachments_fully_replaced
    (existing_events : gmap string (pyval * pyval)) (event : string)
    (files : list er_file) (esri_event : pyval * pyval)
    (existing_attachments : list attachment)
    (w w1 : world) (calls : list att_entry) (log : list log_entry) :
  existing_events !! event = Some esri_event ->
  att_get_list esri_event.1 w = (Ok existing_attachments, w1) ->
  (forall oid id w, exists reply w', att_delete oid id w = (Ok reply, w')) ->
  (forall url w, exists content w', das_get_file url w = (Ok content, w')) ->
  (forall path content w, exists reply w',
     fs_write path content w = (Ok reply, w')) ->
  (forall oid path w, exists reply w', att_add oid path w = (Ok reply, w')) ->
  Forall named_file files ->
  exists contents w',
    length contents = length files
    /\ replace_event existing_events event files ((w, calls), log)
       = (Ok tt,
          ((w', calls
                ++ [AttGetList esri_event.1 (Ok existing_attachments)]
                ++ delete_calls esri_event.1 existing_attachments
                ++ concat (zip_with (attach_calls tmpdir_name esri_event.1)
                             files contents)),
           log)).
Proof.
  intros Hkey Hlist Hdel Hget Hwrite Hadd Hnamed.
  destruct (deletes_answered esri_event.1 existing_attachments Hdel w1
              (calls ++ [AttGetList esri_event.1 (Ok existing_attachments)]) log)
    as (w2 & Hdeletes).
  destruct (attaches_answered esri_event.1 files Hget Hwrite Hadd Hnamed w2
              ((calls ++ [AttGetList esri_event.1 (Ok existing_attachments)])
                 ++ delete_calls esri_event.1 existing_attachments) log)
    as (contents & w3 & Hlen & Hattach).
  exists contents, w3. split; [exact Hlen|].
  unfold replace_event_attachments.
  unfold m_bind at 1. unfold m_lift at 1. rewrite Hkey.
  unfold m_bind at 1. unfold attachments_get_list at 1. rewrite Hlist.
  unfold m_bind at 1. rewrite Hdeletes, Hattach.
  now rewrite <- !app_assoc.
Qed.

(** X25: the replacement is not atomic: when the download of the event's
    first file raises, every attachment the feature had has already been
    deleted and none is attached; the exception is raised to the caller. *)
Theorem failed_download_loses_attachments
    (existing_events : gmap string (pyval * pyval)) (event : string)
    (file : er_file) (files : list er_file) (esri_event : pyval * pyval)
    (existing_attachments : list attachment) (err : exn)
    (w w1 : world) (calls : list att_entry) (log : list log_entry) :
  existing_events !! event = Some esri_event ->
  att_get_list esri_event.1 w = (Ok existing_attachments, w1) ->
  (forall oid id w, exists reply w', att_delete oid id w = (Ok reply, w')) ->
  named_file file ->
  (forall w, exists w', das_get_file (file_url file) w = (Raise err, w')) ->
  exists w',
    replace_event existing_events event (file :: files) ((w, calls), log)
    = (Raise err,
       ((w', calls
             ++ [AttGetList esri_event.1 (Ok existing_attachments)]
             ++ delete_calls esri_event.1 existing_attachments
             ++ [AttGetFile (file_url file) (Raise err)]),
        log)).
Proof.
  intros Hkey Hlist Hdel [filename Hname] Hfail.
  destruct (deletes_answered esri_event.1 existing_attachments Hdel w1
              (calls ++ [AttGetList esri_event.1 (Ok existing_attachments)]) log)
    as (w2 & Hdeletes).
  destruct (Hfail w2) as (w3 & Hw3).
  exists w3. unfold replace_event_attachments.
  unfold m_bind at 1. unfold m_lift at 1. rewrite Hkey.
  unfold m_bind at 1. unfold attachments_get_list at 1. rewrite Hlist.
  unfold m_bind at 1. rewrite Hdeletes. simpl.
  unfold m_bind at 1. unfold attach_file at 1.
  unfold m_bind at 1. unfold m_lift at 1. unfold tmp_path. rewrite Hname.
  unfold m_bind at 1. unfold get_file at 1. rewrite Hw3.
  now rewrite <- !app_assoc.
Qed.

(** X26: when the first event that has files is not a key of the index that
    the layer's answer gives, [_replace_attachments] raises [KeyError] for
    that event right after the query: the attachments of no feature are
    listed, deleted or added. *)
Theorem attachments_of_unindexed_event_raise (oldest_date : option Z)
    (event : string) (files : list er_file)
    (event_files : list (string * list er_file))
    (existing : list row) (existing_events : gmap string (pyval * pyval))
    (w w1 : world) (calls : list att_entry) (log : list log_entry) :
  layer_query (events_where strftime oldest_date) w = (Ok existing, w1) ->
  index_rows "ER_REPORT_NUMBER" existing ∅ = Ok existing_events ->
  existing_events !! event = None ->
  _replace_attachments world layer_query strftime att_get_list att_delete
    att_add das_get_file fs_write tmpdir_name oldest_date
    ((event, files) :: event_files) ((w, calls), log)
  = (Raise (KeyError event),
     ((w1, calls),
      log ++ [LogQuery (events_where strftime oldest_date) (Ok existing)])).
Proof.
  intros Hquery Hidx Hkey. unfold _replace_attachments.
  unfold m_bind at 1. unfold _get_existing_esri_events, query, att_layer_query.
  simpl. rewrite Hquery, Hidx. simpl.
  unfold m_bind at 1. unfold replace_event_attachments.
  unfold m_bind at 1. unfold m_lift at 1. simpl. now rewrite Hkey.
Qed.

End AttachmentFacts.

Lemma attachments_fully_replaced_witness :
  exists contents w',
    length contents = length one_new_file
    /\ replace_event_attachments (list attachment) store_get_list store_delete
         store_add store_get_file store_write "/tmp/x" tie_index "42"
         one_new_file ((two_attachments, []), [])
       = (Ok tt,
          ((w', []
                ++ [AttGetList (PInt 7, PInt 1609545600000).1 (Ok two_attachments)]
                ++ delete_calls (PInt 7, PInt 1609545600000).1 two_attachments
                ++ concat (zip_with
                             (attach_calls "/tmp/x" (PInt 7, PInt 1609545600000).1)
                             one_new_file contents)),
           [])).
Proof.
  apply (attachments_fully_replaced (list attachment) store_get_list
           store_delete store_add store_get_file store_write "/tmp/x"
           tie_index "42" one_new_file (PInt 7, PInt 1609545600000)
           two_attachments two_attachments two_attachments [] []).
  - reflexivity.
  - reflexivity.
  - intros oid id w. eexists _, _. reflexivity.
  - intros url w. eexists _, _. reflexivity.
  - intros path content w. eexists _, _. reflexivity.
  - intros oid path w. eexists _, _. reflexivity.
  - repeat constructor. eexists. reflexivity.
Defined.

(** In that store, a feature with two attachments and one file to attach
    ends with exactly the one new attachment. *)
Example two_attachments_replaced_by_one :
  (replace_event_attachments (list attachment) store_get_list store_delete
     store_add store_get_file store_write "/tmp/x" tie_index "42"
     one_new_file ((two_attachments, []), [])).2.1.1
  = [Attachment (PStr "/tmp/x/new.jpg") (PStr "/tmp/x/new.jpg")].
Proof. vm_compute. reflexivity. Qed.

Lemma failed_download_loses_attachments_witness :
  exists w',
    replace_event_attachments (list attachment) store_get_list store_delete
      store_add store_failing_get_file store_write "/tmp/x" tie_index "42"
      (ErFile (PStr "https://er.example/files/9") (PStr "new.jpg") :: [])
      ((two_attachments, []), [])
    = (Raise (Exn "HTTPError" "404 Not Found"),
       ((w', []
             ++ [AttGetList (PInt 7, PInt 1609545600000).1 (Ok two_attachments)]
             ++ delete_calls (PInt 7, PInt 1609545600000).1 two_attachments
             ++ [AttGetFile
                   (file_url (ErFile (PStr "https://er.example/files/9")
                                (PStr "new.jpg")))
                   (Raise (Exn "HTTPError" "404 Not Found"))]),
        [])).
Proof.
  apply (failed_download_loses_attachments (list attachment) store_get_list
           store_delete store_add store_failing_get_file store_write "/tmp/x"
           tie_index "42"
           (ErFile (PStr "https://er.example/files/9") (PStr "new.jpg")) []
           (PInt 7, PInt 1609545600000) two_attachments
           (Exn "HTTPError" "404 Not Found") two_attachments two_attachments [] []).
  - reflexivity.
  - reflexivity.
  - intros oid id w. eexists _, _. reflexivity.
  - eexists. reflexivity.
  - intros w. eexists. reflexivity.
Defined.

Example failed_download_leaves_no_attachment :
  (replace_event_attachments (list attachment) store_get_list store_delete
     store_add store_failing_get_file store_write "/tmp/x" tie_index "42"
     one_new_file ((two_attachments, []), [])).2.1.1
  = [].
Proof. vm_compute. reflexivity. Qed.

Lemma attachments_of_unindexed_event_raise_witness :
  _replace_attachments (list attachment) store_query example_strftime
    store_get_list store_delete store_add store_get_file store_write "/tmp/x"
    (Some 1606953600000) (("43", one_new_file) :: []) ((two_attachments, []), [])
  = (Raise (KeyError "43"),
     ((two_attachments, []),
      [] ++ [LogQuery (events_where example_strftime (Some 1606953600000))
               (Ok [example_row (PInt 42) (PInt 7) (PInt 1609545600000)])])).
Proof.
  eapply (attachments_of_unindexed_event_raise (list attachment) store_query
            example_strftime store_get_list store_delete store_add
            store_get_file store_write "/tmp/x" (Some 1606953600000)
            "43" one_new_file [] _ _ two_attachments two_attachments [] []).
  - reflexivity.
  - vm_compute. reflexivity.
  - vm_compute. reflexivity.
Defined.

(** ** The whole pass of [upsert_events_from_er] *)

Section FullPassFacts.

Variable world : Type.
Variable layer_properties_fields : world -> list string.
Variable layer_query : string -> world -> res (list row) * world.
Variable layer_add_to_definition :
  list field_spec -> world -> res bool * world.
Variable layer_edit_features :
  edit_call -> world -> res edit_response * world.
Variable das_get_events : bool -> Z -> world -> res (list er_event) * world.
Variable strftime : Z -> string.
Variable parse_timestamp_ms : string -> option Z.
Variable parse_timestamp : string -> option float.
Variable resolve_field_definitions :
  string -> res (pyval * gmap string field_def).
Variable now : Z.
Variable att_get_list : pyval -> world -> res (list attachment) * world.
Variable att_delete : pyval -> pyval -> world -> res unit * world.
Variable att_add : pyval -> string -> world -> res unit * world.
Variable das_get_file : pyval -> world -> res string * world.
Variable fs_write : string -> string -> world -> res unit * world.
Variable tmpdir_name : string.

Local Abbreviation features_pass :=
  (upsert_events_features (att_world world)
     (fun aw => layer_properties_fields aw.1)
     (att_layer_query world layer_query)
     (before_attachments world layer_add_to_definition)
     (before_attachments world layer_edit_features)
     (fun include_related_events =>
        before_attachments world (das_get_events include_related_events))
     strftime parse_timestamp_ms parse_timestamp resolve_field_definitions now).
Local Abbreviation attachment_phase :=
  (_replace_attachments world layer_query strftime att_get_list att_delete
     att_add das_get_file fs_write tmpdir_name).
Local Abbreviation full_pass :=
  (upsert_events_from_er world layer_properties_fields layer_query
     layer_add_to_definition layer_edit_features das_get_events strftime
     parse_timestamp_ms parse_timestamp resolve_field_definitions now
     att_get_list att_delete att_add das_get_file fs_write tmpdir_name).

Lemma keeps_ret {A} (a : A) :
  keeps_attachment_calls (m_ret (att_world world) a).
Proof. intros s. reflexivity. Qed.

Lemma keeps_lift {A} (r : res A) :
  keeps_attachment_calls (m_lift (att_world world) r).
Proof. intros s. reflexivity. Qed.

Lemma keeps_bind {A B} (c : M (att_world world) A)
    (k : A -> M (att_world world) B) :
  keeps_attachment_calls c ->
  (forall a, keeps_attachment_calls (k a)) ->
  keeps_attachment_calls (m_bind (att_world world) c k).
Proof.
  intros Hc Hk s. unfold m_bind. specialize (Hc s).
  destruct (c s) as [[a|e] s1]; simpl in *; [|exact Hc].
  now rewrite Hk.
Qed.

Lemma keeps_foldl {A B} (f : A -> B -> M (att_world world) A) (l : list B) :
  (forall a b, keeps_attachment_calls (f a b)) ->
  forall a, keeps_attachment_calls (m_foldl (att_world world) f a l).
Proof.
  intros Hf. induction l as [|b l IH]; intros a; simpl.
  - apply keeps_ret.
  - apply keeps_bind; [apply Hf | exact IH].
Qed.

Lemma keeps_query (where_ : string) :
  keeps_attachment_calls
    (query (att_world world) (att_layer_query world layer_query) where_).
Proof.
  intros [[w calls] log]. unfold query, att_layer_query. simpl.
  now destruct (layer_query where_ w).
Qed.

Lemma keeps_add_to_definition (fields : list field_spec) :
  keeps_attachment_calls
    (add_to_definition (att_world world)
       (before_attachments world layer_add_to_definition) fields).
Proof.
  intros [[w calls] log]. unfold add_to_definition, before_attachments. simpl.
  now destruct (layer_add_to_definition fields w).
Qed.

Lemma keeps_edit_features (call : edit_call) :
  keeps_attachment_calls
    (edit_features (att_world world)
       (before_attachments world layer_edit_features) call).
Proof.
  intros [[w calls] log]. unfold edit_features, before_attachments. simpl.
  now destruct (layer_edit_features call w).
Qed.

Lemma keeps_upsert_features (adds updates : list feature) (chunk_size : Z) :
  keeps_attachment_calls
    (_upsert_features (att_world world)
       (before_attachments world layer_edit_features) adds updates chunk_size).
Proof.
  unfold _upsert_features, _add_features, _update_features.
  repeat first
    [ apply keeps_bind; [|intros ?]
    | apply keeps_foldl; intros ? ?
    | apply keeps_lift
    | apply keeps_ret
    | apply keeps_edit_features ].
Qed.

Lemma keeps_features_pass (oldest_date : option Z) (include_incidents : bool) :
  keeps_attachment_calls (features_pass oldest_date include_incidents).
Proof.
  unfold upsert_events_features.
  apply keeps_bind.
  { unfold prepare_events_pass, _ensure_attributes_in_layer.
    apply keeps_bind.
    { apply keeps_bind; [intros [[w calls] log]; reflexivity|].
      intros layer_fields.
      destruct (filter _ _); [apply keeps_ret|].
      apply keeps_bind; [apply keeps_add_to_definition|].
      intros _. apply keeps_ret. }
    intros _. apply keeps_bind.
    { intros [[w calls] log]. unfold get_events, before_attachments. simpl.
      now destruct (das_get_events _ _ w). }
    intros er_events. apply keeps_bind.
    { intros s. unfold _get_existing_esri_events.
      pose proof (keeps_query
                    (events_where strftime
                       (Some (default (now - 30 * 24 * 60 * 60 * 1000)%Z
                                oldest_date))) s) as Hq.
      destruct (query _ _ _ s) as [[existing|e] s1]; simpl in *;
        [exact Hq|].
      now destruct (str_contains _ _). }
    intros existing_events. apply keeps_bind;
      [intros [[w calls] log]; reflexivity|].
    intros layer_fields. apply keeps_ret. }
  intros [[er_events existing_events] layer_fields].
  apply keeps_bind; [apply keeps_lift|]. intros st.
  apply keeps_bind; [|intros _; apply keeps_ret].
  unfold submit_events_pass. apply keeps_bind.
  { destruct (fields_to_add st); [apply keeps_ret|].
    unfold _add_fields_to_layer.
    apply keeps_bind; [apply keeps_add_to_definition|].
    intros [|]; [apply keeps_ret | apply keeps_lift]. }
  intros _.
  destruct (features_to_add st), (features_to_update st);
    try apply keeps_ret;
    (apply keeps_bind; [apply keeps_upsert_features | intros _; apply keeps_ret]).
Qed.

(** The attachment phase makes one call that the layer's log records: its
    query, first. *)
Lemma replace_event_keeps_log
    (existing_events : gmap string (pyval * pyval)) (event : string)
    (files : list er_file) :
  appends_only (fun _ => False)
    (replace_event_attachments world att_get_list att_delete att_add
       das_get_file fs_write tmpdir_name existing_events event files).
Proof.
  assert (Hlist : forall oid,
            appends_only (fun _ : log_entry => False)
              (attachments_get_list world att_get_list oid)).
  { intros oid [w calls] log. exists []. unfold attachments_get_list.
    destruct (att_get_list oid w). split; [now rewrite app_nil_r | constructor]. }
  assert (Hdelete : forall oid id,
            appends_only (fun _ : log_entry => False)
              (attachments_delete world att_delete oid id)).
  { intros oid id [w calls] log. exists []. unfold attachments_delete.
    destruct (att_delete oid id w).
    split; [now rewrite app_nil_r | constructor]. }
  assert (Hadd : forall oid path,
            appends_only (fun _ : log_entry => False)
              (attachments_add world att_add oid path)).
  { intros oid path [w calls] log. exists []. unfold attachments_add.
    destruct (att_add oid path w).
    split; [now rewrite app_nil_r | constructor]. }
  assert (Hget : forall url,
            appends_only (fun _ : log_entry => False)
              (get_file world das_get_file url)).
  { intros url [w calls] log. exists []. unfold get_file.
    destruct (das_get_file url w).
    split; [now rewrite app_nil_r | constructor]. }
  assert (Hwrite : forall path content,
            appends_only (fun _ : log_entry => False)
              (write_file world fs_write path content)).
  { intros path content [w calls] log. exists []. unfold write_file.
    destruct (fs_write path content w).
    split; [now rewrite app_nil_r | constructor]. }
  unfold replace_event_attachments.
  apply appends_bind; [apply appends_lift|]. intros oid.
  apply appends_bind; [apply Hlist|]. intros existing_attachments.
  apply appends_bind; [apply appends_foldl; intros; apply Hdelete|]. intros _.
  apply appends_foldl. intros _ file. unfold attach_file.
  apply appends_bind; [apply appends_lift|]. intros tmppath.
  apply appends_bind; [apply Hget|]. intros content.
  apply appends_bind; [apply Hwrite|]. intros _. apply Hadd.
Qed.

Lemma attachment_phase_one_query (oldest_date : option Z)
    (event_files : list (string * list er_file))
    (s : att_world world * list log_entry) :
  exists reply,
    (attachment_phase oldest_date event_files s).2.2
    = s.2 ++ [LogQuery (events_where strftime oldest_date) reply].
Proof.
  destruct s as [[w calls] log]. unfold _replace_attachments.
  unfold m_bind at 1. unfold _get_existing_esri_events, query, att_layer_query.
  simpl. destruct (layer_query (events_where strftime oldest_date) w)
    as [reply w1].
  exists reply.
  assert (Hloop : forall existing_events s1,
            (m_foldl (att_world world)
               (fun _ entry =>
                  replace_event_attachments world att_get_list att_delete
                    att_add das_get_file fs_write tmpdir_name existing_events
                    entry.1 entry.2) tt event_files s1).2.2 = s1.2).
  { intros existing_events [aw1 log1].
    destruct (appends_foldl (att_world world) (fun _ => False)
                (fun _ entry =>
                   replace_event_attachments world att_get_list att_delete
                     att_add das_get_file fs_write tmpdir_name existing_events
                     entry.1 entry.2) event_files
                (fun a b => replace_event_keeps_log existing_events b.1 b.2)
                tt aw1 log1) as (ext & Hext & Hnone).
    destruct ext as [|entry ext]; [now rewrite app_nil_r in Hext|].
    now inversion Hnone. }
  destruct reply as [existing|e]; simpl.
  - destruct (index_rows "ER_REPORT_NUMBER" existing ∅) as [existing_events|e];
      simpl; [apply Hloop | reflexivity].
  - destruct (str_contains _ _); simpl; [apply Hloop | reflexivity].
Qed.

(** X23: whatever the services answer, the calls a pass makes on the layer
    come in this order: first the calls that are no feature edits (the base
    attributes, the query, the provisioning of the pending fields), then the
    add calls, then the update calls, and last, only when attachments are
    included, the one query of the attachment phase; no attachment is
    listed, deleted or added before that query, and no field is provisioned
    and no feature is edited after it. *)
Theorem events_pass_edits_last (oldest_date : option Z)
    (include_attachments include_incidents : bool)
    (s : att_world world * list log_entry) :
  exists pre add_calls update_calls attachment_query,
    (full_pass oldest_date include_attachments include_incidents s).2.2
    = s.2 ++ pre ++ add_calls ++ update_calls ++ attachment_query
    /\ Forall not_edit_call pre
    /\ Forall is_add_call add_calls
    /\ Forall is_update_call update_calls
    /\ (attachment_query = []
        \/ exists reply,
             attachment_query
             = [LogQuery
                  (events_where strftime
                     (Some (default (now - 30 * 24 * 60 * 60 * 1000)%Z
                              oldest_date))) reply])
    /\ (include_attachments = false -> attachment_query = [])
    /\ (attachment_query = [] ->
        (full_pass oldest_date include_attachments include_incidents s).2.1.2
        = s.1.2).
Proof.
  destruct s as [aw log].
  destruct (events_features_call_order (att_world world)
              (fun aw => layer_properties_fields aw.1)
              (att_layer_query world layer_query)
              (before_attachments world layer_add_to_definition)
              (before_attachments world layer_edit_features)
              (fun include_related_events =>
                 before_attachments world (das_get_events include_related_events))
              strftime parse_timestamp_ms parse_timestamp
              resolve_field_definitions now oldest_date include_incidents aw log)
    as (pre & adds & upds & Hlog & Hpre & Hadds & Hupds).
  pose proof (keeps_features_pass oldest_date include_incidents (aw, log))
    as Hkeeps.
  exists pre, adds, upds.
  unfold upsert_events_from_er, m_bind.
  destruct (features_pass oldest_date include_incidents (aw, log))
    as [[st|e] [aw1 log1]]; simpl in Hlog, Hkeeps; subst log1.
  - destruct include_attachments.
    + destruct (er_event_files st) as [|entry files] eqn:Hfiles.
      * exists []. simpl. rewrite !app_nil_r. auto 10.
      * destruct (attachment_phase_one_query
                    (Some (default (now - 30 * 24 * 60 * 60 * 1000)%Z oldest_date))
                    (entry :: files)
                    (aw1, log ++ pre ++ adds ++ upds)) as (reply & Hq).
        exists [LogQuery
                  (events_where strftime
                     (Some (default (now - 30 * 24 * 60 * 60 * 1000)%Z
                              oldest_date))) reply].
        split; [rewrite Hq; simpl; now rewrite <- !app_assoc|].
        do 3 (split; [assumption|]).
        split; [right; eauto|]. split; discriminate.
    + exists []. simpl. rewrite !app_nil_r. auto 10.
  - exists []. simpl. rewrite !app_nil_r. auto 10.
Qed.

End FullPassFacts.

(** A pass over an event with one file, on a layer that holds it with two
    attachments: the two are deleted and the file is attached. *)
Example full_pass_replaces_attachments :
  (upsert_events_from_er (list attachment) (fun _ => []) store_query
     store_add_to_definition store_edit_features store_get_events
     example_strftime example_parse example_timestamp example_schema
     1609545600000 store_get_list store_delete store_add store_get_file
     store_write "/tmp/x" None true true ((two_attachments, []), [])).2.1
  = ([Attachment (PStr "/tmp/x/new.jpg") (PStr "/tmp/x/new.jpg")],
     [AttGetList (PInt 7) (Ok two_attachments);
      AttDelete (PInt 7) (PInt 1) (Ok tt);
      AttDelete (PInt 7) (PInt 2) (Ok tt);
      AttGetFile (PStr "https://er.example/files/9") (Ok "content");
      AttWrite "/tmp/x/new.jpg" "content" (Ok tt);
      AttAdd (PInt 7) "/tmp/x/new.jpg" (Ok tt)]).
Proof. vm_compute. reflexivity. Qed.

(** ** The CSV loader *)

Section CsvLoaderFacts.

Variable coordinate : Type.
Variable py_float : string -> option coordinate.
Variable dateparser_parse : string -> option py_datetime.

Local Abbreviation process_row := (_process_row coordinate py_float dateparser_parse).
Local Abbreviation yield := (yield_points coordinate py_float dateparser_parse).
Local Abbreviation parse_csv :=
  (parse_observation_csv coordinate py_float dateparser_parse).

Lemma copied_columns (row : gmap string string) (cols : list string) :
  forall (acc : gmap string string) (col : string),
    foldl (fun point col =>
             match row !! col with
             | Some v => <[col := v]> point
             | None => point
             end) acc cols !! col
    = match row !! col with
      | Some v => if bool_decide (col ∈ cols) then Some v else acc !! col
      | None => acc !! col
      end.
Proof.
  induction cols as [|c cols IH]; intros acc col; simpl.
  - destruct (row !! col); [|reflexivity].
    first [reflexivity | case_bool_decide as H; [inversion H | reflexivity]].
  - rewrite IH. destruct (decide (col = c)) as [->|Hne].
    + destruct (row !! c) as [v|] eqn:Hc; [|reflexivity].
      rewrite lookup_insert_eq.
      repeat case_bool_decide; try reflexivity; set_solver.
    + assert (Hlookup :
        match row !! c with
        | Some v => <[c := v]> acc
        | None => acc
        end !! col = acc !! col).
      { destruct (row !! c); [apply lookup_insert_ne; congruence | reflexivity]. }
      rewrite Hlookup.
      destruct (row !! col) as [v|]; [|reflexivity].
      repeat case_bool_decide; try reflexivity; set_solver.
Qed.

(** X27: [_process_row] keeps the columns apart: the point's ["additional"]
    map holds exactly the columns of the row that are neither required nor
    optional, the optional columns of the row are copied beside it, and the
    required columns [source_provider] and [manufacturer_id] are in neither;
    its ["recorded_at"] always has a time zone. *)
Theorem process_row_columns (row : gmap string string) (point : csv_point coordinate) :
  process_row row = Ok point ->
  (forall col v,
     cp_additional coordinate point !! col = Some v
     <-> row !! col = Some v /\ (col ∉ REQ_COLS) /\ (col ∉ OPTIONAL_COLS))
  /\ (forall col v,
        cp_optional coordinate point !! col = Some v
        <-> row !! col = Some v /\ (col ∈ OPTIONAL_COLS))
  /\ is_Some (dt_tzinfo (cp_recorded_at coordinate point)).
Proof.
  unfold _process_row, csv_get, to_float. intros H.
  destruct (row !! "recorded_at") as [r|]; cbn [res_bind] in H; [|discriminate].
  destruct (dateparser_parse r) as [d|]; cbn [res_bind] in H; [|discriminate].
  destruct (row !! "lat") as [a|]; cbn [res_bind] in H; [|discriminate].
  destruct (py_float a) as [lat|]; cbn [res_bind] in H; [|discriminate].
  destruct (row !! "lon") as [o|]; cbn [res_bind] in H; [|discriminate].
  destruct (py_float o) as [lon|]; cbn [res_bind] in H; [|discriminate].
  set (optional := foldl _ _ OPTIONAL_COLS) in H.
  set (additional := filter _ row) in H.
  injection H as <-. cbn [cp_additional cp_optional cp_recorded_at].
  subst optional additional.
  split; [intros col v; rewrite map_lookup_filter_Some; simpl; tauto|].
  split;
    [|destruct (dt_tzinfo d) as [tz|] eqn:Htz; simpl;
      [rewrite Htz; exists tz; reflexivity | exists 0%Z; reflexivity]].
  intros col v. rewrite (copied_columns row OPTIONAL_COLS ∅ col), lookup_empty.
  destruct (row !! col) as [v'|].
  - case_bool_decide; split.
    + intros ?; simplify_eq; auto.
    + intros [? ?]; assumption.
    + discriminate.
    + intros [? ?]; contradiction.
  - split; [discriminate | intros [? _]; discriminate].
Qed.

(** X28: a row that holds [recorded_at], [lat] and [lon] yields a point
    exactly when its [recorded_at] parses as a date and its [lat] and [lon]
    parse as floats; the other columns never make it fail. *)
Theorem process_row_succeeds (row : gmap string string)
    (recorded_at lat lon : string) :
  row !! "recorded_at" = Some recorded_at ->
  row !! "lat" = Some lat ->
  row !! "lon" = Some lon ->
  (exists point, process_row row = Ok point)
  <-> is_Some (dateparser_parse recorded_at)
      /\ is_Some (py_float lat) /\ is_Some (py_float lon).
Proof.
  intros Hr Hlat Hlon. unfold _process_row, csv_get, to_float.
  rewrite Hr, Hlat, Hlon. simpl.
  destruct (dateparser_parse recorded_at) as [d|]; simpl.
  - destruct (py_float lat) as [a|]; simpl.
    + destruct (py_float lon) as [o|]; simpl.
      * split; [eauto | intros _; eauto].
      * split; [intros [p Hp]; discriminate | intros (_ & _ & [x Hx]); discriminate].
    + split; [intros [p Hp]; discriminate | intros (_ & [x Hx] & _); discriminate].
  - split; [intros [p Hp]; discriminate | intros ([x Hx] & _); discriminate].
Qed.

Lemma header_check (names : list string) (cols : list string) :
  forall is_error,
    foldl (fun is_error col =>
             if bool_decide (col ∈ names) then is_error else true)
          is_error cols = false
    <-> is_error = false /\ cols ⊆ names.
Proof.
  induction cols as [|c cols IH]; intros b; simpl.
  - split; [intros ->; split; [reflexivity | set_solver] | tauto].
  - rewrite IH. destruct (bool_decide (c ∈ names)) eqn:Hc.
    + apply bool_decide_eq_true in Hc. set_solver.
    + apply bool_decide_eq_false in Hc. split; [intros [? _]; discriminate|].
      intros [_ Hsub]. set_solver.
Qed.

Lemma yield_points_prefix (rows : list (gmap string string)) :
  exists good rest,
    rows = good ++ rest
    /\ Forall2 (fun row point => process_row row = Ok point) good (yield rows).1
    /\ match (yield rows).2 with
       | None => rest = []
       | Some e => exists bad rest', rest = bad :: rest' /\ process_row bad = Raise e
       end.
Proof.
  induction rows as [|row rows IH]; simpl.
  - exists [], []. split; [reflexivity|]. split; [constructor | reflexivity].
  - destruct (process_row row) as [point|e] eqn:Hrow.
    + destruct IH as (good & rest & Heq & Hgood & Hrest).
      destruct (yield rows) as [points raised]. simpl in *.
      exists (row :: good), rest. split; [now rewrite Heq|].
      split; [constructor; assumption | exact Hrest].
    + exists [], (row :: rows). split; [reflexivity|].
      split; [constructor | simpl; eauto].
Qed.

(** X29: [parse_observation_csv] yields no point and raises
    [DataFormatException] when the header lacks a required column; when the
    header has them all it yields, in order, the points of the rows up to
    the first row that [_process_row] fails on, and then raises that row's
    exception: the rows after it are not read. *)
Theorem parse_observation_csv_yields (names : list string)
    (rows : list (gmap string string)) :
  (~ REQ_COLS ⊆ names ->
   parse_csv (Some names) rows
   = ([], Some (DataFormatException "Invalid columns.")))
  /\ (REQ_COLS ⊆ names ->
      exists good rest,
        rows = good ++ rest
        /\ Forall2 (fun row point => process_row row = Ok point)
                   good (parse_csv (Some names) rows).1
        /\ match (parse_csv (Some names) rows).2 with
           | None => rest = []
           | Some e =>
               exists bad rest', rest = bad :: rest' /\ process_row bad = Raise e
           end).
Proof.
  unfold parse_observation_csv.
  pose proof (header_check names REQ_COLS false) as Hcheck.
  destruct (foldl _ false REQ_COLS) eqn:Herr.
  - split; [reflexivity|]. intros Hsub. exfalso.
    assert (true = false) by (apply Hcheck; auto). discriminate.
  - split; [|intros _; apply yield_points_prefix].
    intros Hsub. exfalso. apply Hsub. now apply Hcheck.
Qed.

End CsvLoaderFacts.

Lemma process_row_columns_witness :
  exists point,
    _process_row string example_csv_float example_csv_date
      (example_csv_row "2021-01-01 00:00:00" "-1.3") = Ok point
    /\ (forall col v,
          cp_additional string point !! col = Some v
          <-> example_csv_row "2021-01-01 00:00:00" "-1.3" !! col = Some v
              /\ (col ∉ REQ_COLS) /\ (col ∉ OPTIONAL_COLS))
    /\ (forall col v,
          cp_optional string point !! col = Some v
          <-> example_csv_row "2021-01-01 00:00:00" "-1.3" !! col = Some v
              /\ (col ∈ OPTIONAL_COLS))
    /\ is_Some (dt_tzinfo (cp_recorded_at string point)).
Proof.
  eexists. split; [vm_compute; reflexivity|].
  apply (process_row_columns string example_csv_float example_csv_date
           (example_csv_row "2021-01-01 00:00:00" "-1.3")).
  vm_compute. reflexivity.
Defined.

Lemma process_row_succeeds_witness :
  (exists point,
     _process_row string example_csv_float example_csv_date
       (example_csv_row "2021-01-01 00:00:00" "-1.3") = Ok point)
  <-> is_Some (example_csv_date "2021-01-01 00:00:00")
      /\ is_Some (example_csv_float "-1.3") /\ is_Some (example_csv_float "36.8").
Proof.
  apply (process_row_succeeds string example_csv_float example_csv_date
           (example_csv_row "2021-01-01 00:00:00" "-1.3")
           "2021-01-01 00:00:00" "-1.3" "36.8"); reflexivity.
Defined.

Lemma parse_observation_csv_yields_witness :
  parse_observation_csv string example_csv_float example_csv_date
    (Some ["recorded_at"; "lat"; "lon"])
    [example_csv_row "2021-01-01 00:00:00" "-1.3"]
  = ([], Some (DataFormatException "Invalid columns."))
  /\ exists good rest,
       [example_csv_row "2021-01-01 00:00:00" "-1.3";
        example_csv_row "2021-01-01 00:00:00" "north";
        example_csv_row "2021-01-01 00:00:00" "-1.4"] = good ++ rest
       /\ Forall2 (fun row point =>
                     _process_row string example_csv_float example_csv_date row
                     = Ok point)
                  good
                  (parse_observation_csv string example_csv_float example_csv_date
                     (Some (REQ_COLS ++ ["subject_name"; "battery"]))
                     [example_csv_row "2021-01-01 00:00:00" "-1.3";
                      example_csv_row "2021-01-01 00:00:00" "north";
                      example_csv_row "2021-01-01 00:00:00" "-1.4"]).1
       /\ match (parse_observation_csv string example_csv_float example_csv_date
                   (Some (REQ_COLS ++ ["subject_name"; "battery"]))
                   [example_csv_row "2021-01-01 00:00:00" "-1.3";
                    example_csv_row "2021-01-01 00:00:00" "north";
                    example_csv_row "2021-01-01 00:00:00" "-1.4"]).2 with
          | None => rest = []
          | Some e =>
              exists bad rest',
                rest = bad :: rest'
                /\ _process_row string example_csv_float example_csv_date bad
                   = Raise e
          end.
Proof.
  split.
  - apply (parse_observation_csv_yields string example_csv_float
             example_csv_date ["recorded_at"; "lat"; "lon"]).
    intros Hsub.
    assert (Hin : "source_provider" ∈ ["recorded_at"; "lat"; "lon"]).
    { apply Hsub. apply list_elem_of_here. }
    set_solver.
  - apply (parse_observation_csv_yields string example_csv_float
             example_csv_date (REQ_COLS ++ ["subject_name"; "battery"])).
    set_solver.
Defined.

(** ** Tracks *)

Lemma track_polylines_classified (existing_tracks : gmap pykey pyval)
    (subj : subject) (features : list er_track) :
  forall acc,
    tracks_classified existing_tracks acc ->
    tracks_classified existing_tracks
      (track_polylines existing_tracks subj features acc).
Proof.
  induction features as [|feature rest IH]; intros acc Hacc; simpl; [exact Hacc|].
  destruct (tr_coordinates feature) as [coordinates|]; [|now apply IH].
  destruct Hacc as [Hadd Hupd].
  destruct (existing_tracks !! KStr (py_str (subj_id subj))) as [objectid|] eqn:Hk;
    apply IH; split; simpl; try assumption.
  - apply Forall_app. split; [exact Hupd|]. constructor; [|constructor].
    exists (subj_id subj), objectid. simpl.
    split; [|split; [exact Hk | apply lookup_insert_eq]].
    rewrite !lookup_insert_ne by discriminate. apply lookup_insert_eq.
  - apply Forall_app. split; [exact Hadd|]. constructor; [|constructor].
    simpl. split.
    + rewrite !lookup_insert_ne by discriminate. apply lookup_empty.
    + exists (subj_id subj). split; [|exact Hk].
      rewrite lookup_insert_ne by discriminate. apply lookup_insert_eq.
Qed.

Section TrackFacts.

Variable world : Type.
Variable layer_properties_fields : world -> list string.
Variable layer_query : string -> world -> res (list row) * world.
Variable layer_add_to_definition :
  list field_spec -> world -> res bool * world.
Variable das_get_subjects : world -> res (list subject) * world.
Variable das_get_subject_tracks :
  pyval -> Z -> world -> res (list er_track) * world.
Variable clock : world -> Z * world.
Variable parse_timestamp_ms : string -> option Z.

Lemma returns_bind {A B} (c : M world A) (k : A -> M world B)
    (Q : B -> Prop) :
  (forall a, returns_only (k a) Q) ->
  returns_only (m_bind world c k) Q.
Proof.
  intros Hk s b s' H. unfold m_bind in H.
  destruct (c s) as [[a|e] s1]; [|discriminate].
  exact (Hk a s1 b s' H).
Qed.

Lemma returns_foldl {A B} (f : A -> B -> M world A) (Q : A -> Prop)
    (l : list B) :
  (forall a b, Q a -> returns_only (f a b) Q) ->
  forall a, Q a -> returns_only (m_foldl world f a l) Q.
Proof.
  intros Hf. induction l as [|b l IH]; intros a Ha s r s' H; simpl in H.
  - unfold m_ret in H. now injection H as <- _.
  - unfold m_bind in H.
    destruct (f a b s) as [[a1|e] s1] eqn:Hstep; [|discriminate].
    exact (IH a1 (Hf a b Ha s a1 s1 Hstep) s1 r s' H).
Qed.

Lemma track_step_classified (since : Z) (existing_tracks : gmap pykey pyval)
    (acc : list polyline * list polyline) (subj : subject) :
  tracks_classified existing_tracks acc ->
  returns_only
    (track_step world das_get_subject_tracks clock parse_timestamp_ms since
       existing_tracks acc subj)
    (tracks_classified existing_tracks).
Proof.
  intros Hacc. unfold track_step.
  destruct (subj_last_position_date subj) as [last_position_date|].
  - apply returns_bind. intros [|].
    + intros s r s' H. unfold m_ret in H. now injection H as <- _.
    + apply returns_bind. intros features s r s' H.
      unfold m_ret in H. injection H as <- _.
      now apply track_polylines_classified.
  - intros s r s' H. unfold m_ret in H. now injection H as <- _.
Qed.

Lemma log_entry_kept {A} (P : log_entry -> Prop) (c : M world A)
    (s : world * list log_entry) (entry : log_entry) :
  appends_only P c -> entry ∈ s.2 -> entry ∈ (c s).2.2.
Proof.
  intros Hc Hin. destruct s as [w log].
  destruct (Hc w log) as (ext & -> & _). apply elem_of_app. now left.
Qed.

Lemma track_step_appends (since : Z) (existing_tracks : gmap pykey pyval)
    (acc : list polyline * list polyline) (subj : subject) :
  appends_only (fun _ => True)
    (track_step world das_get_subject_tracks clock parse_timestamp_ms since
       existing_tracks acc subj).
Proof.
  assert (Hnow : appends_only (fun _ : log_entry => True) (datetime_now world clock)).
  { intros w log. exists []. unfold datetime_now.
    destruct (clock w) as [t w']. split; [now rewrite app_nil_r | constructor]. }
  unfold track_step.
  destruct (subj_last_position_date subj) as [last_position_date|];
    [|apply appends_ret].
  apply appends_bind.
  - unfold track_is_current.
    destruct (existing_tracks !! py_key (subj_id subj)); [|apply appends_ret].
    apply appends_bind; [exact Hnow|]. intros now.
    destruct (parse_timestamp_ms last_position_date);
      [apply appends_ret | apply appends_lift].
  - intros [|]; [apply appends_ret|].
    apply appends_bind; [|intros; apply appends_ret].
    intros w log. exists []. unfold get_subject_tracks.
    destruct (das_get_subject_tracks _ _ w) as [reply w'].
    split; [now rewrite app_nil_r | constructor].
Qed.

(** X30: when the loop of [upsert_tracks_from_er] returns, the polylines to
    add carry no [OBJECTID] and belong to subjects whose id, as a string, is
    not a key of the index of existing tracks, and the polylines to update
    carry the [OBJECTID] that the index holds under the string form of their
    subject's id; the index is the one built from the features that the layer
    returned for the track query. *)
Theorem tracks_added_or_updated (since : option Z)
    (s s' : world * list log_entry) (adds updates : list polyline) :
  tracks_to_upsert world layer_properties_fields layer_query
    layer_add_to_definition das_get_subjects das_get_subject_tracks clock
    parse_timestamp_ms since s = (Ok (adds, updates), s') ->
  exists existing existing_tracks,
    LogQuery "'ER_ID'<>''" (Ok existing) ∈ s'.2
    /\ index_tracks existing ∅ = Ok existing_tracks
    /\ tracks_classified existing_tracks (adds, updates).
Proof.
  unfold tracks_to_upsert. intros H.
  unfold m_bind at 1 in H.
  destruct (_ensure_attributes_in_layer _ _ _ _ s) as [[[]|e] s1]; [|discriminate].
  unfold m_bind at 1 in H.
  destruct (get_subjects world das_get_subjects s1) as [[subjects|e] s2];
    [|discriminate].
  unfold m_bind at 1 in H. unfold _get_existing_esri_tracks in H.
  unfold m_bind at 1 in H.
  assert (Hlogged :
    forall existing s3,
      query world layer_query "'ER_ID'<>''" s2 = (Ok existing, s3) ->
      LogQuery "'ER_ID'<>''" (Ok existing) ∈ s3.2).
  { intros existing s3. unfold query. destruct s2 as [w2 log2].
    destruct (layer_query "'ER_ID'<>''" w2) as [reply w3].
    intros Hq. injection Hq as -> <-. simpl.
    apply elem_of_app. right. apply list_elem_of_here. }
  destruct (query world layer_query "'ER_ID'<>''" s2) as [[existing|e] s3];
    [|discriminate].
  specialize (Hlogged existing s3 eq_refl).
  unfold m_lift at 1 in H.
  destruct (index_tracks existing ∅) as [existing_tracks|e] eqn:Hidx;
    [|discriminate].
  exists existing, existing_tracks.
  unfold m_bind at 1 in H.
  match type of H with
  | context [match ?c s3 with _ => _ end] =>
      assert (Hsince : appends_only (fun _ : log_entry => True) c)
        by (destruct since;
            [ apply appends_ret
            | apply appends_bind; [|intros; apply appends_ret];
              intros w log; exists []; unfold datetime_now;
              destruct (clock w) as [t0 w'];
              split; [now rewrite app_nil_r | constructor] ]);
      pose proof (log_entry_kept _ c s3 _ Hsince Hlogged) as Hlogged4;
      destruct (c s3) as [[t|e] s4]; [|discriminate]
  end.
  split.
  { pose proof (log_entry_kept _
                  (m_foldl world
                     (track_step world das_get_subject_tracks clock
                        parse_timestamp_ms t existing_tracks) ([], []) subjects)
                  s4 _
                  (appends_foldl world (fun _ => True) _ subjects
                     (fun a b => track_step_appends t existing_tracks a b) ([], []))
                  Hlogged4) as Hkept.
    now rewrite H in Hkept. }
  split; [exact Hidx|].
  assert (Hinit : tracks_classified existing_tracks ([], []))
    by (split; constructor).
  exact (returns_foldl
           (track_step world das_get_subject_tracks clock parse_timestamp_ms
              t existing_tracks)
           (tracks_classified existing_tracks) subjects
           (fun a b Ha => track_step_classified t existing_tracks a b Ha)
           ([], []) Hinit s4 (adds, updates) s' H).
Qed.

End TrackFacts.

Lemma tracks_added_or_updated_witness :
  exists s' adds updates,
    tracks_to_upsert unit example_track_fields example_tracks_query
      example_add_to_definition example_track_subjects example_das_tracks
      example_clock example_parse None (tt, []) = (Ok (adds, updates), s')
    /\ length adds = 1%nat
    /\ length updates = 1%nat
    /\ exists existing existing_tracks,
         LogQuery "'ER_ID'<>''" (Ok existing) ∈ s'.2
         /\ index_tracks existing ∅ = Ok existing_tracks
         /\ tracks_classified existing_tracks (adds, updates).
Proof.
  do 3 eexists. split; [vm_compute; reflexivity|].
  split; [reflexivity|]. split; [reflexivity|].
  eapply (tracks_added_or_updated unit example_track_fields
            example_tracks_query example_add_to_definition
            example_track_subjects example_das_tracks example_clock
            example_parse None (tt, [])).
  vm_compute. reflexivity.
Defined.
